(** * colour: vectorised colour-science transforms, embedded and verified

    The development follows [colour_vectorise.py] (the vectorised
    re-implementations of the [colour] API) and
    [colour/difference/delta_e.py] (the reference colour differences).

    Numbers.  numpy computes on IEEE-754 binary64; the embedding uses Rocq's
    primitive [float] for it, so decimal literals round as Python's do and
    [+ - * / sqrt ==] are the correctly rounded operations.  The linear part
    of the library (xyY/XYZ, von Kries adaptation, XYZ<->RGB) is written once
    over an arithmetic backend [Arith]; [binary64] is the backend numpy runs,
    [exact] interprets the same expressions over the rationals and is used
    for the algebraic identities that floating point satisfies only up to
    rounding.

    Arrays.  An [ndarray] is a shape and its row-major data.  The functions
    reshape their argument to [(-1, k)], compute on columns, and reshape the
    result back, as the Python does. *)

From Stdlib Require Import ZArith QArith Qcanon Floats List Bool String Ascii Lia.
From stdpp Require Import base option list strings gmap sorting.

Set Warnings "-inexact-float".
Set Default Proof Using "Type".

(* ===================================================================== *)
(** ** Exceptions *)
(* ===================================================================== *)

(** The text of a raised exception, kept structured: the format string is
    named by the constructor and its arguments are stored as they are
    passed to [str.format]. *)
Inductive message : Type :=
  | msg_transform_undefined (transform : string) (supported : list string)
      (* '"{0}" chromatic adaptation transform is not defined! Supported
         methods: "{1}".' *)
  | msg_wavelength_domain (wavelength : list float) (start end_ : float)
      (* '"{0} nm" wavelength is not in "[{1}, {2}]" domain!' *)
  | msg_index_type (type_name : string)
      (* '"{0}" type is not supported for indexing!' *)
  | msg_missing_key (key : Qc)
      (* dict.__getitem__ on an absent key *)
  | msg_numpy (text : string).
      (* raised inside numpy: reshape, reductions, linalg *)

Inductive exn : Type :=
  | KeyError (m : message)
  | ValueError (m : message)
  | NotImplementedError (m : message)
  | LinAlgError (m : message).

Inductive result (T : Type) : Type :=
  | Ok (v : T)
  | Raise (e : exn).
Arguments Ok {T} v.
Arguments Raise {T} e.

#[global] Instance result_ret : MRet result := fun _ v => Ok v.
#[global] Instance result_bind : MBind result := fun _ _ f r =>
  match r with Ok v => f v | Raise e => Raise e end.
#[global] Instance result_fmap : FMap result := fun _ _ f r =>
  match r with Ok v => Ok (f v) | Raise e => Raise e end.

Definition raises {T} (r : result T) : Prop :=
  match r with Ok _ => False | Raise _ => True end.

Definition returns {T} (r : result T) : Prop :=
  match r with Ok _ => True | Raise _ => False end.

(* ===================================================================== *)
(** ** Arithmetic backends *)
(* ===================================================================== *)

Record Arith : Type := MkArith {
  num :> Type;
  zero : num;
  one : num;
  add : num -> num -> num;
  sub : num -> num -> num;
  mul : num -> num -> num;
  div : num -> num -> num;
  eqb : num -> num -> bool   (* Python's [==] *)
}.
Arguments zero {_}.
Arguments one {_}.
Arguments add {_} _ _.
Arguments sub {_} _ _.
Arguments mul {_} _ _.
Arguments div {_} _ _.
Arguments eqb {_} _ _.

(** IEEE-754 binary64, the dtype of every array the library builds. *)
#[warnings="-projection-no-head-constant"]
Canonical Structure binary64 : Arith :=
  MkArith float 0%float 1%float
          PrimFloat.add PrimFloat.sub PrimFloat.mul PrimFloat.div PrimFloat.eqb.

(** Exact rational arithmetic: the real-number reading of the formulas.
    Division by zero is total here ([x / 0 = 0]); binary64 gives inf or nan. *)
Canonical Structure exact : Arith :=
  MkArith Qc (Q2Qc 0) (Q2Qc 1) Qcplus Qcminus Qcmult Qcdiv
          (fun a b => bool_decide (a = b)).

Declare Scope num_scope.
Delimit Scope num_scope with num.
Infix "+" := add : num_scope.
Infix "-" := sub : num_scope.
Infix "*" := mul : num_scope.
Infix "/" := div : num_scope.
Infix "==" := eqb (at level 70, no associativity) : num_scope.

(* ===================================================================== *)
(** ** numpy arrays *)
(* ===================================================================== *)

Record ndarray (T : Type) : Type := NDArray {
  shape : list nat;
  data : list T            (* row-major (C order) *)
}.
Arguments NDArray {T} shape data.
Arguments shape {T} _.
Arguments data {T} _.

(** [np.prod(shape)]: the number of elements of an array of that shape. *)
Definition size_of (s : list nat) : nat := foldr Nat.mul 1 s.

(** An array is well formed when its data fill its shape. *)
Definition wf {T} (a : ndarray T) : Prop := length (data a) = size_of (shape a).

(** A 1-d array from a Python sequence. *)
Definition array1 {T} (l : list T) : ndarray T := NDArray [length l] l.

(** [ndarray.reshape]/[np.reshape] to a shape that may hold one [-1].
    numpy raises [ValueError] when the sizes do not match, when more than one
    dimension is unknown, or when the unknown one cannot be determined. *)
Definition known_size (newshape : list Z) : Z :=
  foldr (fun d acc => if (d =? -1)%Z then acc else (d * acc)%Z) 1%Z newshape.

Definition resolve_shape (n : nat) (newshape : list Z) : option (list nat) :=
  if existsb (fun d => (d <? -1)%Z) newshape then None
  else
    let k := known_size newshape in
    match length (List.filter (fun d => (d =? -1)%Z) newshape) with
    | 0 => if (k =? Z.of_nat n)%Z then Some (map Z.to_nat newshape) else None
    | 1 =>
        if (0 <? k)%Z && (Z.of_nat n mod k =? 0)%Z
        then Some (map (fun d => if (d =? -1)%Z then Z.to_nat (Z.of_nat n / k)
                                 else Z.to_nat d) newshape)
        else None
    | _ => None
    end.

Definition np_reshape {T} (l : list T) (newshape : list Z) : result (ndarray T) :=
  match resolve_shape (length l) newshape with
  | Some s => Ok (NDArray s l)
  | None => Raise (ValueError (msg_numpy "cannot reshape array"))
  end.

(** Modelled from the spec: [colour.utilities.as_shape], [as_array],
    [auto_axis] and [as_stack] are not in the sources; they are the
    reshape-in / reshape-out helpers of the shape contract (flatten to a
    canonical [(-1, k)] shape, reshape the result to the caller's leading
    shape with the output channel count substituted). *)
Definition as_shape {T} (x : ndarray T) : list nat := shape x.

Definition auto_axis (s : list nat) : list Z :=
  map Z.of_nat (removelast s) ++ [(-1)%Z].

(** The data of a [(-1, 3)] (resp. [(-1, 2)]) array, row by row. *)
Fixpoint rows3 {T} (l : list T) : list (T * T * T) :=
  match l with
  | a :: b :: c :: l' => (a, b, c) :: rows3 l'
  | _ => []
  end.

Fixpoint rows2 {T} (l : list T) : list (T * T) :=
  match l with
  | a :: b :: l' => (a, b) :: rows2 l'
  | _ => []
  end.

(** [as_array(x, (-1, 3))] and [as_array(x, (-1, 2))]. *)
Definition as_array3 {T} (x : ndarray T) : result (list (T * T * T)) :=
  a ← np_reshape (data x) [(-1)%Z; 3%Z]; Ok (rows3 (data a)).

Definition as_array2 {T} (x : ndarray T) : result (list (T * T)) :=
  a ← np_reshape (data x) [(-1)%Z; 2%Z]; Ok (rows2 (data a)).

(** Columns [a[:, 0]], [a[:, 1]], [a[:, 2]] of an [(N, 3)] array. *)
Definition col0 {T} (a : list (T * T * T)) : list T := map (fun r => r.1.1) a.
Definition col1 {T} (a : list (T * T * T)) : list T := map (fun r => r.1.2) a.
Definition col2 {T} (a : list (T * T * T)) : list T := map (fun r => r.2) a.

(** [np.dstack((a, b, c))] of three 1-d arrays: shape [(1, N, 3)]. *)
Fixpoint dstack3 {T} (a b c : list T) : list (T * T * T) :=
  match a, b, c with
  | x :: a', y :: b', z :: c' => (x, y, z) :: dstack3 a' b' c'
  | _, _, _ => []
  end.

Definition ravel3 {T} (a : list (T * T * T)) : list T :=
  concat (map (fun r => [r.1.1; r.1.2; r.2]) a).

(** [as_stack(x, shape=s)]: the stacked columns, reshaped to [s]. *)
Definition as_stack {T} (x : list (T * T * T)) (s : list Z) : result (ndarray T) :=
  np_reshape (ravel3 x) s.

(** [np.where(c, a, b)] on three arrays of one length; with
    [c[:, np.newaxis]] the elements are rows. *)
Fixpoint np_where {T} (c : list bool) (a b : list T) : list T :=
  match c, a, b with
  | t :: c', x :: a', y :: b' => (if t then x else y) :: np_where c' a' b'
  | _, _, _ => []
  end.

(** [np.resize(a, new_shape)]: the flattened [a] repeated cyclically to
    [n] elements (zeros when [a] is empty). *)
Definition np_resize {T} (fill : T) (a : list T) (n : nat) : list T :=
  map (fun i => nth (i mod length a) a fill) (seq 0 n).

(** Elementwise arithmetic on 1-d arrays of one length, and with a Python
    scalar on one side. *)
Section Ufuncs.
Context {A : Arith}.

Definition np_add (a b : list A) : list A := zip_with add a b.
Definition np_sub (a b : list A) : list A := zip_with sub a b.
Definition np_mul (a b : list A) : list A := zip_with mul a b.
Definition np_div (a b : list A) : list A := zip_with div a b.
(** A Python scalar on the left / on the right of an array. *)
Definition scalar_l (f : A -> A -> A) (k : A) (a : list A) : list A := map (f k) a.
Definition scalar_r (f : A -> A -> A) (a : list A) (k : A) : list A :=
  map (fun v => f v k) a.
Definition np_eq_scalar (a : list A) (k : A) : list bool :=
  map (fun v => eqb v k) a.
Definition np_ones (n : nat) : list A := replicate n one.
End Ufuncs.

Declare Scope np_scope.
Delimit Scope np_scope with np.
Infix "+" := np_add : np_scope.
Infix "-" := np_sub : np_scope.
Infix "*" := np_mul : np_scope.
Infix "/" := np_div : np_scope.
Notation "k $+ a" := (scalar_l add k a) (at level 50, left associativity) : np_scope.
Notation "k $- a" := (scalar_l sub k a) (at level 50, left associativity) : np_scope.
Notation "k $* a" := (scalar_l mul k a) (at level 40, left associativity) : np_scope.
Notation "k $/ a" := (scalar_l div k a) (at level 40, left associativity) : np_scope.
Notation "a +$ k" := (scalar_r add a k) (at level 50, left associativity) : np_scope.
Notation "a -$ k" := (scalar_r sub a k) (at level 50, left associativity) : np_scope.
Notation "a *$ k" := (scalar_r mul a k) (at level 40, left associativity) : np_scope.
Notation "a /$ k" := (scalar_r div a k) (at level 40, left associativity) : np_scope.

(* ===================================================================== *)
(** ** colour.models.cie_xyy *)
(* ===================================================================== *)

Section CIE_xyY.
Context {A : Arith}.

(** [xyY_to_XYZ_vectorise].  [np.where] is strict: both stacks are
    computed, the quotient by [y] too where [y == 0]; IEEE division is
    total and [handle_numpy_errors(divide='ignore')] silences its
    warning. *)
Definition xyY_to_XYZ_vectorise (xyY : ndarray A) : result (ndarray A) :=
  let shape := as_shape xyY in
  xyY ← as_array3 xyY;
  let x := col0 xyY in
  let y := col1 xyY in
  let Y := col2 xyY in
  as_stack
    (np_where (np_eq_scalar y zero)
                (dstack3 y y y)
                (dstack3 (x * Y / y) Y ((one $- x - y) * Y / y))%np)
    (auto_axis shape).

(** [xy_to_XYZ_vectorise]: luminance [Y = 1]. *)
Definition xy_to_XYZ_vectorise (xy : ndarray A) : result (ndarray A) :=
  let shape := as_shape xy in
  xy ← as_array2 xy;
  xyY ← as_stack (dstack3 (map fst xy) (map snd xy) (np_ones (length xy)))
                 (auto_axis shape);
  xyY_to_XYZ_vectorise xyY.

(** The formula of one row. *)
Definition xyY_to_XYZ_row (r : A * A * A) : A * A * A :=
  let '(x, y, Y) := r in
  if (y == zero)%num then (y, y, y)
  else ((x * Y / y)%num, Y, ((one - x - y) * Y / y)%num).
End CIE_xyY.

(* ===================================================================== *)
(** ** Linear algebra on 3-vectors and 3x3 matrices *)
(* ===================================================================== *)

Abbreviation vec3 T := (T * T * T)%type (only parsing).
Abbreviation mat3 T := (vec3 T * vec3 T * vec3 T)%type (only parsing).

(** numpy broadcasting of two stacks along their leading axis: equal
    lengths pair up, a stack of one is repeated, anything else raises. *)
Definition broadcast_rows {X Y Z} (f : X -> Y -> Z) (a : list X) (b : list Y)
  : result (list Z) :=
  if bool_decide (length a = length b) then Ok (zip_with f a b)
  else match a, b with
       | [x], _ => Ok (map (f x) b)
       | _, [y] => Ok (map (fun x => f x y) a)
       | _, _ => Raise (ValueError (msg_numpy "operands could not be broadcast together"))
       end.

Section Linalg.
Context {A : Arith}.
Local Open Scope num_scope.

(** Sum of products over the contracted index, accumulated in index order. *)
Definition dot3 (u v : vec3 A) : A :=
  let '(u0, u1, u2) := u in
  let '(v0, v1, v2) := v in
  u0 * v0 + u1 * v1 + u2 * v2.

Definition np_transpose (M : mat3 A) : mat3 A :=
  let '((a, b, c), (d, e, f), (g, h, i)) := M in
  ((a, d, g), (b, e, h), (c, f, i)).

(** [M v]: the action of [M] on a column vector. *)
Definition mat_vec (M : mat3 A) (v : vec3 A) : vec3 A :=
  let '(r0, r1, r2) := M in (dot3 v r0, dot3 v r1, dot3 v r2).

(** [np.dot(a, B)] for a stack of rows [a] of shape [(N, 3)]:
    [out[n, j] = sum_i a[n, i] * B[i, j]]. *)
Definition np_dot (a : list (vec3 A)) (B : mat3 A) : list (vec3 A) :=
  let '(c0, c1, c2) := np_transpose B in
  map (fun v => (dot3 v c0, dot3 v c1, dot3 v c2)) a.

(** The matrix product [P Q]: [out[i, k] = sum_j P[i, j] * Q[j, k]]. *)
Definition mat_mul (P Q : mat3 A) : mat3 A :=
  let '(p0, p1, p2) := P in
  let '(c0, c1, c2) := np_transpose Q in
  ((dot3 p0 c0, dot3 p0 c1, dot3 p0 c2),
   (dot3 p1 c0, dot3 p1 c1, dot3 p1 c2),
   (dot3 p2 c0, dot3 p2 c1, dot3 p2 c2)).

Definition identity3 : mat3 A :=
  ((one, zero, zero), (zero, one, zero), (zero, zero, one)).

(** Elementwise quotient of two [(.., 3)] rows. *)
Definition vec_div (u v : vec3 A) : vec3 A :=
  let '(u0, u1, u2) := u in
  let '(v0, v1, v2) := v in
  (u0 / v0, u1 / v1, u2 / v2).

(** Modelled from the spec: [colour.utilities.row_as_diagonal] is not in the
    sources; it turns each row of an [(N, 3)] array into the diagonal
    matrix [diag(row)] (the matrix [D = diag(rho_target / rho_source)] of
    the von Kries transform). *)
Definition diagonal (d : vec3 A) : mat3 A :=
  let '(d0, d1, d2) := d in
  ((d0, zero, zero), (zero, d1, zero), (zero, zero, d2)).

Definition row_as_diagonal (D : list (vec3 A)) : list (mat3 A) := map diagonal D.

Definition det3 (M : mat3 A) : A :=
  let '((a, b, c), (d, e, f), (g, h, i)) := M in
  a * (e * i - f * h) - b * (d * i - f * g) + c * (d * h - e * g).

(** [np.linalg.inv] belongs to numpy (LAPACK), not to this library.  It is
    modelled by the closed form adjugate / determinant, raising
    [LinAlgError] on a singular matrix as numpy does.  Over [exact] this
    is the inverse; over [binary64] LAPACK's LU factorisation may round
    differently in the last bits. *)
Definition np_linalg_inv (M : mat3 A) : result (mat3 A) :=
  let '((a, b, c), (d, e, f), (g, h, i)) := M in
  let dt := det3 M in
  if dt == zero then Raise (LinAlgError (msg_numpy "Singular matrix"))
  else Ok (((e * i - f * h) / dt, (c * h - b * i) / dt, (b * f - c * e) / dt),
           ((f * g - d * i) / dt, (a * i - c * g) / dt, (c * d - a * f) / dt),
           ((d * h - e * g) / dt, (b * g - a * h) / dt, (a * e - b * d) / dt)).

(** An array of shape [(N, 3, 3)] after [np.squeeze]: the leading axis
    disappears when [N = 1]. *)
Inductive squeezed : Type :=
  | Matrix (m : mat3 A)              (* shape (3, 3) *)
  | Matrices (ms : list (mat3 A)).   (* shape (N, 3, 3), N <> 1 *)

Definition np_squeeze (ms : list (mat3 A)) : squeezed :=
  match ms with
  | [m] => Matrix m
  | _ => Matrices ms
  end.

(** [np.einsum('...i,...ji', v, M)]: [out[.., j] = sum_i v[.., i] * M[.., j, i]],
    the ellipsis axes broadcast. *)
Definition einsum_vM (v : list (vec3 A)) (M : squeezed) : result (list (vec3 A)) :=
  match M with
  | Matrix m => Ok (map (mat_vec m) v)
  | Matrices ms => broadcast_rows (fun x m => mat_vec m x) v ms
  end.
End Linalg.
Arguments squeezed A : clear implicits.

(* ===================================================================== *)
(** ** Registries keyed by case-insensitive names *)
(* ===================================================================== *)

Definition lower_ascii (c : ascii) : ascii :=
  let n := nat_of_ascii c in
  if (65 <=? n)%nat && (n <=? 90)%nat then ascii_of_nat (n + 32) else c.

Fixpoint lower (s : string) : string :=
  match s with
  | EmptyString => EmptyString
  | String c s' => String (lower_ascii c) (lower s')
  end.

(** Modelled from the spec: [colour.utilities.CaseInsensitiveMapping] is not
    in the sources; the spec describes the registries as read-only tables
    keyed by case-insensitive string name.  Keys are stored lower-cased and
    a query is lower-cased before the lookup. *)
Abbreviation CaseInsensitiveMapping V := (gmap string V) (only parsing).

Definition cim_of_list {V} (l : list (string * V)) : gmap string V :=
  list_to_map (map (fun kv => (lower kv.1, kv.2)) l).

Definition cim_get {V} (m : gmap string V) (name : string) : option V :=
  m !! lower name.

Definition cim_keys {V} (m : gmap string V) : list string :=
  map fst (map_to_list m).

(* ===================================================================== *)
(** ** colour.adaptation: the von Kries chromatic adaptation matrix *)
(* ===================================================================== *)

Section VonKries.
Context {A : Arith}.

(** The table [CHROMATIC_ADAPTATION_TRANSFORMS] of [colour.adaptation] is
    outside the sources: it is a parameter of the functions that read it. *)
Variable CHROMATIC_ADAPTATION_TRANSFORMS : CaseInsensitiveMapping (mat3 A).

(** [chromatic_adaptation_matrix_VonKries_vectorise].  The lookup is the
    first statement; [as_array(M, (3, 3))] leaves a 3 x 3 table entry as it
    is. *)
Definition chromatic_adaptation_matrix_VonKries_vectorise
    (XYZ_w XYZ_wr : ndarray A) (transform : string) : result (squeezed A) :=
  match cim_get CHROMATIC_ADAPTATION_TRANSFORMS transform with
  | None =>
      Raise (KeyError (msg_transform_undefined
                         transform (cim_keys CHROMATIC_ADAPTATION_TRANSFORMS)))
  | Some M =>
      XYZ_w ← as_array3 XYZ_w;
      XYZ_wr ← as_array3 XYZ_wr;
      let rgb_w := np_dot XYZ_w (np_transpose M) in
      let rgb_wr := np_dot XYZ_wr (np_transpose M) in
      D ← broadcast_rows vec_div rgb_wr rgb_w;
      let D := row_as_diagonal D in
      M_inv ← np_linalg_inv M;
      let cat := map (mat_mul M_inv) D in
      let cat := map (fun c => mat_mul c M) cat in
      Ok (np_squeeze cat)
  end.

(* ------------------------------------------------------------------- *)
(** ** colour.models.rgb: XYZ <-> RGB *)
(* ------------------------------------------------------------------- *)

(** An optional transfer function is applied to every element. *)
Definition apply_transfer (f : option (A -> A)) (a : list (vec3 A)) : list (vec3 A) :=
  match f with
  | None => a
  | Some f => map (fun '(r, g, b) => (f r, f g, f b)) a
  end.

(** [XYZ_to_RGB_vectorise]: adapt from the white of [XYZ] to the white of
    the RGB space, project through the matrix, encode, reshape back. *)
Definition XYZ_to_RGB_vectorise
    (XYZ illuminant_XYZ illuminant_RGB : ndarray A)
    (XYZ_to_RGB_matrix : mat3 A)
    (chromatic_adaptation_transform : string)
    (transfer_function : option (A -> A)) : result (ndarray A) :=
  let shape := as_shape XYZ in
  XYZ ← as_array3 XYZ;
  w ← xy_to_XYZ_vectorise illuminant_XYZ;
  wr ← xy_to_XYZ_vectorise illuminant_RGB;
  M ← chromatic_adaptation_matrix_VonKries_vectorise
        w wr chromatic_adaptation_transform;
  XYZ_a ← einsum_vM XYZ M;
  RGB ← einsum_vM XYZ_a (Matrix XYZ_to_RGB_matrix);
  let RGB := apply_transfer transfer_function RGB in
  np_reshape (ravel3 RGB) (map Z.of_nat shape).

(** [RGB_to_XYZ_vectorise], the mirror: decode, project, adapt, reshape
    back. *)
Definition RGB_to_XYZ_vectorise
    (RGB illuminant_RGB illuminant_XYZ : ndarray A)
    (RGB_to_XYZ_matrix : mat3 A)
    (chromatic_adaptation_transform : string)
    (inverse_transfer_function : option (A -> A)) : result (ndarray A) :=
  let shape := as_shape RGB in
  RGB ← as_array3 RGB;
  let RGB := apply_transfer inverse_transfer_function RGB in
  XYZ ← einsum_vM RGB (Matrix RGB_to_XYZ_matrix);
  w ← xy_to_XYZ_vectorise illuminant_RGB;
  wr ← xy_to_XYZ_vectorise illuminant_XYZ;
  M ← chromatic_adaptation_matrix_VonKries_vectorise
        w wr chromatic_adaptation_transform;
  XYZ_a ← einsum_vM XYZ M;
  np_reshape (ravel3 XYZ_a) (map Z.of_nat shape).
End VonKries.

(** The cone-response matrices of the published transforms that the
    examples use (Lam 1985 for Bradford, CIECAM02 for CAT02). *)
Definition BRADFORD_CAT : mat3 float :=
  (( 0.8951,  0.2664, -0.1614),
   (-0.7502,  1.7135,  0.0367),
   ( 0.0389, -0.0685,  1.0296))%float.

Definition CAT02_CAT : mat3 float :=
  (( 0.7328, 0.4296, -0.1624),
   (-0.7036, 1.6975,  0.0061),
   ( 0.0030, 0.0136,  0.9834))%float.

Definition transforms_example : gmap string (mat3 float) :=
  cim_of_list [("Bradford", BRADFORD_CAT); ("CAT02", CAT02_CAT)].

(** The constants of the analysis functions of [XYZ_to_RGB] and
    [RGB_to_XYZ]. *)
Definition W_D50 : ndarray float := array1 [0.34567; 0.35850]%float.
Definition W_D65 : ndarray float := array1 [0.31271; 0.32902]%float.
Definition M_XYZ_to_RGB : mat3 float :=
  (( 3.24100326, -1.53739899, -0.49861587),
   (-0.96922426,  1.87592999,  0.04155422),
   ( 0.05563942, -0.2040112,   1.05714897))%float.
Definition M_RGB_to_XYZ : mat3 float :=
  ((0.41238656, 0.35759149, 0.18045049),
   (0.21263682, 0.71518298, 0.0721802),
   (0.01933062, 0.11919716, 0.95037259))%float.

(* ===================================================================== *)
(** ** colour.models.cie_xyy: XYZ to xyY *)
(* ===================================================================== *)

Definition ravel2 {T} (a : list (T * T)) : list T :=
  concat (map (fun r => [r.1; r.2]) a).

(** [np.where(c, a, b)] on [(N, 3)] arrays, element by element. *)
Definition where3 {T} (c : bool * bool * bool) (a b : vec3 T) : vec3 T :=
  let '(c0, c1, c2) := c in
  let '(a0, a1, a2) := a in
  let '(b0, b1, b2) := b in
  (if c0 then a0 else b0, if c1 then a1 else b1, if c2 then a2 else b2).

Fixpoint np_where3 {T} (c : list (bool * bool * bool)) (a b : list (vec3 T))
  : list (vec3 T) :=
  match c, a, b with
  | t :: c', x :: a', y :: b' => where3 t x y :: np_where3 c' a' b'
  | _, _, _ => []
  end.

Section CIE_XYZ_to_xyY.
Context {A : Arith}.

(** [XYZ == 0] on an [(N, 3)] array. *)
Definition eq_zero3 (XYZ : list (vec3 A)) : list (bool * bool * bool) :=
  map (fun '(X, Y, Z) => (eqb X zero, eqb Y zero, eqb Z zero)) XYZ.

(** [XYZ_to_xyY_vectorise].  The default of [illuminant] is an entry of the
    [ILLUMINANTS] table, which is outside the sources: the argument is
    explicit here.  Floating-point warnings are silenced by the decorator
    [handle_numpy_errors(divide='ignore', invalid='ignore')]. *)
Definition XYZ_to_xyY_vectorise (XYZ illuminant : ndarray A) : result (ndarray A) :=
  let shape := as_shape XYZ in
  XYZ ← as_array3 XYZ;
  illuminant ← as_array2 illuminant;
  let illuminant := rows3 (np_resize zero (ravel2 illuminant) (3 * length XYZ)) in
  let X := col0 XYZ in
  let Y := col1 XYZ in
  let Z := col2 XYZ in
  as_stack
    (np_where3 (eq_zero3 XYZ)
               (dstack3 (col0 illuminant) (col1 illuminant) Y)
               (dstack3 (X / (X + Y + Z)) (Y / (X + Y + Z)) Y)%np)
    (map Z.of_nat shape).
End CIE_XYZ_to_xyY.

(* ===================================================================== *)
(** ** Functions that exist on binary64 only *)
(* ===================================================================== *)

Definition np_square (a : list float) : list float := map (fun v => (v * v)%float) a.
Definition np_sqrt (a : list float) : list float := map PrimFloat.sqrt a.
Definition np_gt_scalar (a : list float) (k : float) : list bool :=
  map (fun v => (k <? v)%float) a.
Definition np_lt_scalar (a : list float) (k : float) : list bool :=
  map (fun v => (v <? k)%float) a.
Definition np_le_scalar (a : list float) (k : float) : list bool :=
  map (fun v => (v <=? k)%float) a.
Definition vec_mul (u v : vec3 float) : vec3 float :=
  let '(u0, u1, u2) := u in
  let '(v0, v1, v2) := v in
  (u0 * v0, u1 * v1, u2 * v2)%float.

Definition is_nan (v : float) : bool := negb (v =? v)%float.

Section CIE_Lab.
Local Open Scope float_scope.

(** [x ** k] for an exponent other than 2 is C's [pow], which libm does not
    round correctly in every case: it is a parameter.  [x ** 2] is numpy's
    [square], the rounded product [x * x]. *)
Variable npy_pow : float -> float -> float.
(** [colour.constants.CIE_E] and [CIE_K] are outside the sources. *)
Variables CIE_E CIE_K : float.

Definition np_power (a : list float) (k : float) : list float :=
  map (fun v => npy_pow v k) a.

(** [Lab_to_XYZ_vectorise]; the illuminant, whose default is an entry of
    the [ILLUMINANTS] table, is explicit. *)
Definition Lab_to_XYZ_vectorise (Lab illuminant : ndarray float)
  : result (ndarray float) :=
  let shape := as_shape Lab in
  Lab ← as_array3 Lab;
  w ← xy_to_XYZ_vectorise illuminant;
  let XYZ_r := rows3 (np_resize 0 (data w) (3 * length Lab)) in
  let L := col0 Lab in
  let a := col1 Lab in
  let b := col2 Lab in
  let f_y := ((L +$ 16) /$ 116)%np in
  let f_x := (a /$ 500 + f_y)%np in
  let f_z := (f_y - b /$ 200)%np in
  let x_r := np_where (np_gt_scalar (np_power f_x 3) CIE_E)
               (np_power f_x 3) ((116 $* f_x -$ 16) /$ CIE_K)%np in
  let y_r := np_where (np_gt_scalar L (CIE_K * CIE_E))
               (np_power ((L +$ 16) /$ 116)%np 3) (L /$ CIE_K)%np in
  let z_r := np_where (np_gt_scalar (np_power f_z 3) CIE_E)
               (np_power f_z 3) ((116 $* f_z -$ 16) /$ CIE_K)%np in
  np_reshape (ravel3 (zip_with vec_mul (dstack3 x_r y_r z_r) XYZ_r))
             (map Z.of_nat shape).

(* ------------------------------------------------------------------- *)
(** ** colour.temperature.cct: CCT to xy, CIE D series *)
(* ------------------------------------------------------------------- *)

Definition CCT_domain_warning : string :=
  "Correlated colour temperature must be in domain [4000, 25000], unpredictable results may occur!".

(** [np.any(CCT[np.logical_or(CCT < 4000, CCT > 25000)])]: some value
    outside the domain is non-zero (a nan is never selected: both
    comparisons are false on it). *)
Definition CCT_out_of_domain (CCT : list float) : bool :=
  existsb (fun c => ((c <? 4000) || (25000 <? c)) && negb (c =? 0)) CCT.

(** The two cubic polynomials in [1 / CCT] for [x]. *)
Definition x_low_temperature (CCT : list float) : list float :=
  (((-4.607 * 1e9)%float $/ np_power CCT 3 +
    (2.9678 * 1e6)%float $/ np_square CCT +
    (0.09911 * 1e3)%float $/ CCT) +$ 0.244063)%np.

Definition x_high_temperature (CCT : list float) : list float :=
  (((-2.0064 * 1e9)%float $/ np_power CCT 3 +
    (1.9018 * 1e6)%float $/ np_square CCT +
    (0.24748 * 1e3)%float $/ CCT) +$ 0.23704)%np.

(** [CCT_to_xy_CIE_D_vectorise]: the warnings it emits and the [(x, y)]
    pairs, one per temperature of the [(-1, 1)] column. *)
Definition CCT_to_xy_CIE_D_vectorise (CCT : ndarray float)
  : list string * list (float * float) :=
  let CCT := data CCT in
  let warnings := if CCT_out_of_domain CCT then [CCT_domain_warning] else [] in
  let x := np_where (np_le_scalar CCT 7000)
                    (x_low_temperature CCT)
                    (x_high_temperature CCT) in
  let y := ((-3) $* np_square x + 2.87 $* x -$ 0.275)%np in
  (warnings, zip x y).
End CIE_Lab.

(* ===================================================================== *)
(** ** colour.difference.delta_e: CIE 1994 colour difference *)
(* ===================================================================== *)

(** Modelled from the spec: [colour.utilities.as_numeric] is not in the
    sources; it hands a one-element array back as a Python number (a 0-d
    value) and leaves any other array as it is. *)
Definition as_numeric {T} (a : ndarray T) : ndarray T :=
  match data a with
  | [v] => NDArray [] [v]
  | _ => a
  end.

(** [np.broadcast_arrays] on the leading axis of two stacks. *)
Definition broadcast_arrays {X} (a b : list X) : result (list X * list X) :=
  if bool_decide (length a = length b) then Ok (a, b)
  else match a, b with
       | [x], _ => Ok (replicate (length b) x, b)
       | _, [y] => Ok (a, replicate (length a) y)
       | _, _ => Raise (ValueError (msg_numpy "operands could not be broadcast together"))
       end.

Section DeltaE.
Local Open Scope float_scope.

(** [delta_E_CIE1994_vectorise(Lab1, Lab2, textiles=True, **kwargs)];
    [None] for [textiles] is the call that leaves the argument out.  The
    two stacks broadcast against each other in every elementwise
    operation; the model broadcasts them once, up front. *)
Definition delta_E_CIE1994_vectorise (Lab1 Lab2 : ndarray float)
    (textiles : option bool) : result (ndarray float) :=
  let textiles := default true textiles in
  let shape := as_shape Lab1 in
  let k1 := if textiles then 0.048 else 0.045 in
  let k2 := if textiles then 0.014 else 0.015 in
  let kL := if textiles then 2 else 1 in
  let kC := 1 in
  let kH := 1 in
  Lab1 ← as_array3 Lab1;
  Lab2 ← as_array3 Lab2;
  '(Lab1, Lab2) ← broadcast_arrays Lab1 Lab2;
  let L1 := col0 Lab1 in let a1 := col1 Lab1 in let b1 := col2 Lab1 in
  let L2 := col0 Lab2 in let a2 := col1 Lab2 in let b2 := col2 Lab2 in
  let C1 := np_sqrt (np_square a1 + np_square b1)%np in
  let C2 := np_sqrt (np_square a2 + np_square b2)%np in
  let sL := 1 in
  let sC := (1 $+ k1 $* C1)%np in
  let sH := (1 $+ k2 $* C1)%np in
  let delta_L := (L1 - L2)%np in
  let delta_C := (C1 - C2)%np in
  let delta_A := (a1 - a2)%np in
  let delta_B := (b1 - b2)%np in
  let delta_H :=
    np_sqrt (np_square delta_A + np_square delta_B - np_square delta_C)%np in
  let L := np_square (delta_L /$ (kL * sL)%float)%np in
  let C := np_square (delta_C / (kC $* sC))%np in
  let H := np_square (delta_H / (kH $* sH))%np in
  let delta_E := np_sqrt (L + C + H)%np in
  delta_E ← np_reshape delta_E (auto_axis shape);
  Ok (as_numeric delta_E).

(** The reference [delta_E_CIE1994(Lab_1, Lab_2, textiles=False)] of
    [colour/difference/delta_e.py], for one pair of Lab triples.  [tsplit]
    (outside the sources) splits a triple into its three numpy scalars,
    and [**] on a numpy scalar is C's [pow], the parameter [npy_pow]: it
    need not return the correctly rounded square.  (On an array, as in the
    vectorised function, [** 2] is [np.square], the rounded product.) *)
Variable npy_pow : float -> float -> float.

Definition delta_E_CIE1994 (Lab_1 Lab_2 : vec3 float) (textiles : option bool)
  : float :=
  let textiles := default false textiles in
  let k_1 := if textiles then 0.048 else 0.045 in
  let k_2 := if textiles then 0.014 else 0.015 in
  let k_L := if textiles then 2 else 1 in
  let k_C := 1 in
  let k_H := 1 in
  let '(L_1, a_1, b_1) := Lab_1 in
  let '(L_2, a_2, b_2) := Lab_2 in
  let C_1 := sqrt (npy_pow a_1 2 + npy_pow b_1 2) in
  let C_2 := sqrt (npy_pow a_2 2 + npy_pow b_2 2) in
  let s_L := 1 in
  let s_C := 1 + k_1 * C_1 in
  let s_H := 1 + k_2 * C_1 in
  let delta_L := L_1 - L_2 in
  let delta_C := C_1 - C_2 in
  let delta_A := a_1 - a_2 in
  let delta_B := b_1 - b_2 in
  let delta_H :=
    sqrt (npy_pow delta_A 2 + npy_pow delta_B 2 - npy_pow delta_C 2) in
  let L := npy_pow (delta_L / (k_L * s_L)) 2 in
  let C := npy_pow (delta_C / (k_C * s_C)) 2 in
  let H := npy_pow (delta_H / (k_H * s_H)) 2 in
  sqrt (L + C + H).

(** The ten numbers the formula squares for a pair of Lab triples, in the
    order it squares them, each computed with rounded products. *)
Definition squares_of_CIE1994 (Lab_1 Lab_2 : vec3 float) (textiles : bool)
  : list float :=
  let k_1 := if textiles then 0.048 else 0.045 in
  let k_2 := if textiles then 0.014 else 0.015 in
  let k_L := if textiles then 2 else 1 in
  let '(L_1, a_1, b_1) := Lab_1 in
  let '(L_2, a_2, b_2) := Lab_2 in
  let C_1 := sqrt (a_1 * a_1 + b_1 * b_1) in
  let C_2 := sqrt (a_2 * a_2 + b_2 * b_2) in
  let s_C := 1 + k_1 * C_1 in
  let s_H := 1 + k_2 * C_1 in
  let delta_L := L_1 - L_2 in
  let delta_C := C_1 - C_2 in
  let delta_A := a_1 - a_2 in
  let delta_B := b_1 - b_2 in
  let delta_H :=
    sqrt (delta_A * delta_A + delta_B * delta_B - delta_C * delta_C) in
  [a_1; b_1; a_2; b_2; delta_A; delta_B; delta_C;
   delta_L / (k_L * 1); delta_C / (1 * s_C); delta_H / (1 * s_H)].
End DeltaE.

(** A [pow] that returns the correctly rounded product at exponent 2, to
    run the reference. *)
Definition pow_rounded_square (x k : float) : float :=
  if (k =? 2)%float then (x * x)%float else x.

(** C's [pow] at exponent 2 on the ten numbers the reference squares for
    the pair [(18, -45.4, -86.5)], [(29.3, -93.4, -80.9)] with
    [textiles=True], as glibc 2.36 (x86-64) returns it: the rounded
    product, except at [-45.4 - -93.4 = 48.00000000000001], where it
    returns 2304.0000000000005 and the rounded product is
    2304.000000000001. *)
Definition pow_glibc_sample (x k : float) : float :=
  if (x =? 48.00000000000001)%float && (k =? 2)%float
  then 2304.0000000000005%float
  else pow_rounded_square x k.


Definition Lab_sample_1 : vec3 float := (100, 21.57210357, 272.2281935)%float.
Definition Lab_sample_2 : vec3 float := (100, 426.67945353, 72.39590835)%float.
Definition array_of_vec3 {T} (v : vec3 T) : ndarray T :=
  array1 [v.1.1; v.1.2; v.2].

(* ===================================================================== *)
(** ** colour.colorimetry.spectrum: SpectralPowerDistribution.__getitem__ *)
(* ===================================================================== *)

(** The class is outside the sources; [__getitem__] reads two of its
    attributes.  Modelled from the spec: [data] is the mapping from
    wavelength (unique key) to value, [values] the values by ascending
    wavelength.  A wavelength is a Python number used as a dict key: ints
    and floats of one value are one key, which the rationals give. *)
Record SpectralPowerDistribution : Type := {
  name : string;
  spd_data : gmap Qc float
}.

Definition wavelengths (self : SpectralPowerDistribution) : list Qc :=
  merge_sort Qcle (map fst (map_to_list (spd_data self))).

Definition values (self : SpectralPowerDistribution) : list float :=
  omap (M:=list) (fun w => spd_data self !! w) (wavelengths self).

(** What is written between the brackets of [spd[...]]. *)
Inductive index : Type :=
  | Numeric (wavelength : Qc)                   (* is_numeric *)
  | Iterable (wavelengths : list Qc)            (* is_iterable *)
  | Slice (start stop step : option Z)          (* type(...) is slice *)
  | Unsupported (type_name : string).

(** What indexing returns: a stored number or an array. *)
Inductive item : Type :=
  | Number (v : float)
  | Array (vs : list float).

(** [dict.__getitem__]. *)
Definition dict_getitem (d : gmap Qc float) (k : Qc) : result float :=
  match d !! k with
  | Some v => Ok v
  | None => Raise (KeyError (msg_missing_key k))
  end.

(** Basic slicing of a sequence of length [len] (CPython's
    [PySlice_AdjustIndices]): the positions selected by [start:stop:step]. *)
Definition slice_clamp (len lo hi v : Z) : Z :=
  let v := if (v <? 0)%Z then (v + len)%Z else v in
  if (v <? lo)%Z then lo else if (hi <? v)%Z then hi else v.

Definition slice_positions (len : Z) (start stop step : option Z)
  : result (list Z) :=
  let step := default 1%Z step in
  if (step =? 0)%Z then Raise (ValueError (msg_numpy "slice step cannot be zero"))
  else if (0 <? step)%Z then
    let start := from_option (slice_clamp len 0 len) 0%Z start in
    let stop := from_option (slice_clamp len 0 len) len stop in
    let n := if (start <? stop)%Z then ((stop - start - 1) / step + 1)%Z else 0%Z in
    Ok (map (fun i => (start + Z.of_nat i * step)%Z) (seq 0 (Z.to_nat n)))
  else
    let start := from_option (slice_clamp len (-1) (len - 1)) (len - 1)%Z start in
    let stop := from_option (slice_clamp len (-1) (len - 1)) (-1)%Z stop in
    let n := if (stop <? start)%Z then ((start - stop - 1) / (- step) + 1)%Z else 0%Z in
    Ok (map (fun i => (start + Z.of_nat i * step)%Z) (seq 0 (Z.to_nat n))).

Definition getitem_slice {T} (l : list T) (start stop step : option Z)
  : result (list T) :=
  ps ← slice_positions (Z.of_nat (length l)) start stop step;
  Ok (omap (M:=list) (fun p : Z => l !! Z.to_nat p) ps).

Definition SpectralPowerDistribution__getitem__
    (self : SpectralPowerDistribution) (wavelength : index) : result item :=
  match wavelength with
  | Numeric w => v ← dict_getitem (spd_data self) w; Ok (Number v)
  | Iterable ws => vs ← mapM (dict_getitem (spd_data self)) ws; Ok (Array vs)
  | Slice start stop step => vs ← getitem_slice (values self) start stop step; Ok (Array vs)
  | Unsupported type_name => Raise (NotImplementedError (msg_index_type type_name))
  end.

(** The distribution of [SpectralPowerDistribution__getitem__analysis]. *)
Definition spd_sample : SpectralPowerDistribution :=
  {| name := "Spd";
     spd_data := list_to_map [(Q2Qc 510, 49.67%float); (Q2Qc 520, 69.59%float);
                              (Q2Qc 530, 81.73%float); (Q2Qc 540, 88.19%float)] |}.

(* ===================================================================== *)
(** ** Row formulas, predicates and sample data of the statements *)
(* ===================================================================== *)

Section Row_formulas.
Context {A : Arith}.
Local Open Scope num_scope.

(** One row of [XYZ_to_xyY_vectorise], given the row of the resized
    illuminant array that faces it. *)
Definition XYZ_to_xyY_row (ill XYZ : vec3 A) : vec3 A :=
  let '(i0, i1, _) := ill in
  let '(X, Y, Z) := XYZ in
  (if X == zero then i0 else X / (X + Y + Z),
   if Y == zero then i1 else Y / (X + Y + Z),
   Y).

(** The adaptation matrix [M^-1 D M] between two whites. *)
Definition von_kries (M M_inv : mat3 A) (w wr : vec3 A) : mat3 A :=
  mat_mul (mat_mul M_inv (diagonal (vec_div (mat_vec M wr) (mat_vec M w)))) M.

(** The tristimulus values of a white given as an [xy] pair. *)
Definition white (xy : A * A) : vec3 A := xyY_to_XYZ_row (xy.1, xy.2, one).
End Row_formulas.

(** Order on binary64, as propositions. *)
Definition float_le (a b : float) : Prop := (a <=? b)%float = true.
Definition float_lt (a b : float) : Prop := (a <? b)%float = true.

Section CCT_rows.
Variable npy_pow : float -> float -> float.
Local Open Scope float_scope.

(** The two polynomials at one temperature. *)
Definition x_low (c : float) : float :=
  -4.607 * 1e9 / npy_pow c 3 + 2.9678 * 1e6 / (c * c) + 0.09911 * 1e3 / c
  + 0.244063.

Definition x_high (c : float) : float :=
  -2.0064 * 1e9 / npy_pow c 3 + 1.9018 * 1e6 / (c * c) + 0.24748 * 1e3 / c
  + 0.23704.

(** The [x] column of the result, temperature by temperature. *)
Definition CCT_x (CCT : ndarray float) : list float :=
  map fst (CCT_to_xy_CIE_D_vectorise npy_pow CCT).2.
End CCT_rows.

(** A stand-in for C's [pow], exact enough for cubes, to run the formula. *)
Definition pow_by_products (x k : float) : float :=
  if (k =? 3)%float then (x * x * x)%float else x.


(** A vector of the rationals without a zero component. *)
Definition nonzero3 (v : vec3 Qc) : Prop :=
  v.1.1 <> Q2Qc 0 /\ v.1.2 <> Q2Qc 0 /\ v.2 <> Q2Qc 0.

(** The constants of the round trip as exact decimals. *)
Definition decimal (n : Z) (d : positive) : Qc := Q2Qc (n # d).

Definition XYZ_sample_exact : ndarray Qc :=
  array1 [decimal 7049534 100000000; decimal 1008 10000; decimal 9558313 100000000].
Definition W_D50_exact : Qc * Qc := (decimal 34567 100000, decimal 35850 100000).
Definition W_D65_exact : Qc * Qc := (decimal 31271 100000, decimal 32902 100000).
Definition BRADFORD_CAT_exact : mat3 Qc :=
  ((decimal 8951 10000, decimal 2664 10000, decimal (-1614) 10000),
   (decimal (-7502) 10000, decimal 17135 10000, decimal 367 10000),
   (decimal 389 10000, decimal (-685) 10000, decimal 10296 10000)).
Definition M_XYZ_to_RGB_exact : mat3 Qc :=
  ((decimal 324100326 100000000, decimal (-153739899) 100000000,
    decimal (-49861587) 100000000),
   (decimal (-96922426) 100000000, decimal 187592999 100000000,
    decimal 4155422 100000000),
   (decimal 5563942 100000000, decimal (-20401120) 100000000,
    decimal 105714897 100000000)).
(** Its inverse over the rationals. *)
Definition M_RGB_to_XYZ_exact : mat3 Qc :=
  match np_linalg_inv (A:=exact) M_XYZ_to_RGB_exact with
  | Ok m => m
  | Raise _ => identity3
  end.
Definition transforms_exact : gmap string (mat3 Qc) :=
  cim_of_list [("Bradford", BRADFORD_CAT_exact)].

(** The inverse of the Bradford matrix, as the model of [np.linalg.inv]
    computes it on binary64. *)
Definition BRADFORD_CAT_inverse : mat3 float :=
  Eval vm_compute in
    match np_linalg_inv (A:=binary64) BRADFORD_CAT with
    | Ok m => m
    | Raise _ => identity3
    end.

(** [colour.constants]: [CIE_E = 216 / 24389], [CIE_K = 24389 / 27]. *)
Definition CIE_E_value : float := (216 / 24389)%float.
Definition CIE_K_value : float := (24389 / 27)%float.

(** A 2 x 2 image. *)
Definition image_sample : ndarray float :=
  NDArray [2; 2; 3]
    [0.07049534; 0.1008; 0.09558313; 0.5; 0.5; 0.5;
     0; 0; 0; 1; 1; 1]%float.

(* ===================================================================== *)
(** ** SpectralPowerDistribution: __setitem__, get, __contains__ *)
(* ===================================================================== *)

(** The loop [for i in range(len(wavelengths)):
    self.data.__setitem__(wavelengths[i], values[i])]: later assignments
    to one key win. *)
Definition dict_setitems (d : gmap Qc float) (keys : list Qc) (vals : list float)
  : gmap Qc float :=
  fold_left (fun d kv => <[kv.1 := kv.2]> d) (zip keys vals) d.

(** [SpectralPowerDistribution__setitem__]: the keys are the given
    wavelength(s), or for a slice the existing wavelengths at the sliced
    positions; [value] is resized cyclically to the number of keys.
    [as_array] (outside the sources) gives a number as a one-element
    array, as the loops of the sources over [as_array(wavelength)] need.
    The distribution after the assignment is returned. *)
Definition SpectralPowerDistribution__setitem__
    (self : SpectralPowerDistribution) (wavelength : index) (value : list float)
  : result SpectralPowerDistribution :=
  keys ← match wavelength with
         | Numeric w => Ok [w]
         | Iterable ws => Ok ws
         | Slice start stop step => getitem_slice (wavelengths self) start stop step
         | Unsupported type_name =>
             Raise (NotImplementedError (msg_index_type type_name))
         end;
  let vals := np_resize 0%float value (length keys) in
  Ok {| name := name self; spd_data := dict_setitems (spd_data self) keys vals |}.

(** [SpectralPowerDistribution_get(self, wavelength, default=None)]:
    [dict.get] for each wavelength; [None] in the result is Python's
    [None]. *)
Definition SpectralPowerDistribution_get
    (self : SpectralPowerDistribution) (wavelength : list Qc) (default : option float)
  : ndarray (option float) :=
  as_numeric
    (array1 (map (fun x => match spd_data self !! x with
                           | Some v => Some v
                           | None => default
                           end) wavelength)).

(** [SpectralPowerDistribution__contains__]: every queried wavelength is
    one of [self.wavelengths]. *)
Definition SpectralPowerDistribution__contains__
    (self : SpectralPowerDistribution) (wavelength : list Qc) : bool :=
  forallb (fun w => bool_decide (w ∈ wavelengths self)) wavelength.

(** [TriSpectralPowerDistribution__getitem__].  Modelled from the spec:
    the class, outside the sources, owns three distributions, here the
    arguments [x], [y] and [z] for [self.x], [self.y] and [self.z].
    [np.array((.., .., ..))] of three numbers is 1-d, and [np.swapaxes(., 0, 1)]
    raises on it; of three arrays of one length [n] it has shape [(3, n)]
    and the swap gives the [n] rows. *)
Definition TriSpectralPowerDistribution__getitem__
    (x y z : SpectralPowerDistribution) (wavelength : index)
  : result (list (vec3 float)) :=
  a ← SpectralPowerDistribution__getitem__ x wavelength;
  b ← SpectralPowerDistribution__getitem__ y wavelength;
  c ← SpectralPowerDistribution__getitem__ z wavelength;
  match a, b, c with
  | Array a, Array b, Array c =>
      if bool_decide (length a = length b /\ length b = length c)
      then Ok (dstack3 a b c)
      else Raise (ValueError (msg_numpy "bad axis2 argument to swapaxes"))
  | _, _, _ => Raise (ValueError (msg_numpy "bad axis2 argument to swapaxes"))
  end.

(** [TriSpectralPowerDistribution__setitem__]: [self.wavelengths], read
    by the slice branch, is an attribute of the class, which is outside the
    sources: it is the argument [self_wavelengths].  The value is resized
    to [(len(wavelengths), 3)] and its columns are assigned to the three
    distributions through their own [__setitem__]; the three distributions
    after the assignment are returned. *)
Definition TriSpectralPowerDistribution__setitem__
    (self_wavelengths : list Qc) (x y z : SpectralPowerDistribution)
    (wavelength : index) (value : list float)
  : result (SpectralPowerDistribution * SpectralPowerDistribution
            * SpectralPowerDistribution) :=
  keys ← match wavelength with
         | Numeric w => Ok [w]
         | Iterable ws => Ok ws
         | Slice start stop step => getitem_slice self_wavelengths start stop step
         | Unsupported type_name =>
             Raise (NotImplementedError (msg_index_type type_name))
         end;
  let value := rows3 (np_resize 0%float value (3 * length keys)) in
  x' ← SpectralPowerDistribution__setitem__ x (Iterable keys) (col0 value);
  y' ← SpectralPowerDistribution__setitem__ y (Iterable keys) (col1 value);
  z' ← SpectralPowerDistribution__setitem__ z (Iterable keys) (col2 value);
  Ok (x', y', z').

(* ===================================================================== *)
(** ** colour.colorimetry.spectrum: TriSpectralPowerDistribution.get *)
(* ===================================================================== *)

(** The Python number a binary64 value is as a key of [self.data]: a
    finite value hashes and compares as the rational it denotes, either
    zero as 0; nan and the infinities equal no wavelength. *)
Definition number_of_float (x : float) : option Qc :=
  match Prim2SF x with
  | S754_zero _ => Some (Q2Qc 0)
  | S754_finite s m e =>
      let n := if s then Z.neg m else Z.pos m in
      Some (Q2Qc (if (0 <=? e)%Z then inject_Z (n * 2 ^ e)
                  else n # (2 ^ Z.to_pos (- e))))
  | _ => None
  end.

(** [self.x.get(x, default)] for one element [x] of a binary64 array, [get]
    being [SpectralPowerDistribution_get]; for an [x] that is no number
    [dict.get] finds no key and answers [default]. *)
Definition get_at (s : SpectralPowerDistribution) (x : float)
    (default : option float) : ndarray (option float) :=
  match number_of_float x with
  | Some w => SpectralPowerDistribution_get s [w] default
  | None => as_numeric (array1 [default])
  end.

(** The shape after [np.squeeze]: the axes of length one are dropped. *)
Definition squeeze_shape (s : list nat) : list nat :=
  List.filter (fun d => negb (d =? 1)%nat) s.

(** [TriSpectralPowerDistribution_get(self, wavelength, default=None)]:
    [np.squeeze] of the array of the rows
    [(self.x.get(x, default), self.y.get(x, default), self.z.get(x, default))],
    one per queried wavelength.  [self.x], [self.y] and [self.z] are the
    arguments [x], [y] and [z]; [np.array([])] has the shape [(0,)]. *)
Definition TriSpectralPowerDistribution_get
    (x y z : SpectralPowerDistribution) (wavelength : list float)
    (default : option float) : ndarray (option float) :=
  let rows := map (fun w => (get_at x w default, get_at y w default,
                             get_at z w default)) wavelength in
  NDArray (match rows with
           | [] => [0%nat]
           | _ => squeeze_shape [length rows; 3%nat]
           end)
          (concat (map (fun r => data r.1.1 ++ data r.1.2 ++ data r.2) rows)).

(* ===================================================================== *)
(** ** colour.colorimetry.tristimulus: wavelength_to_XYZ *)
(* ===================================================================== *)

(** An interpolator class: built from the sample abscissas and ordinates,
    then called on the queried wavelengths. *)
Definition interpolator : Type := list float -> list float -> list float -> list float.

(** The colour matching functions, a [TriSpectralPowerDistribution]; the
    class is outside the sources.  Modelled from the spec: the attributes
    [wavelength_to_XYZ_vectorise] reads, which are its shape (start and end
    of the tabulated wavelengths), its three distributions, exact-key
    membership, its samples and whether their step is uniform;
    interpolation is defined for every wavelength and never raises. *)
Record TriSpectralPowerDistribution : Type := {
  shape_start : float;                        (* cmfs.shape.start *)
  shape_end : float;                          (* cmfs.shape.end *)
  cmfs_x : SpectralPowerDistribution;         (* cmfs.x *)
  cmfs_y : SpectralPowerDistribution;         (* cmfs.y *)
  cmfs_z : SpectralPowerDistribution;         (* cmfs.z *)
  cmfs_contains : list float -> bool;         (* wavelength in cmfs *)
  cmfs_wavelengths : list float;              (* cmfs.wavelengths *)
  cmfs_values : list (vec3 float);            (* cmfs.values *)
  is_uniform : bool                           (* cmfs.is_uniform() *)
}.

(** [np.minimum.reduce] / [np.maximum.reduce]: the reductions behind
    [np.min] and [np.max]; a nan wins, an empty array raises. *)
Definition npy_min (a b : float) : float := if (a <? b)%float || is_nan a then a else b.
Definition npy_max (a b : float) : float := if (b <? a)%float || is_nan a then a else b.

Definition np_min (a : list float) : result float :=
  match a with
  | [] => Raise (ValueError (msg_numpy
            "zero-size array to reduction operation minimum which has no identity"))
  | x :: a' => Ok (fold_left npy_min a' x)
  end.

Definition np_max (a : list float) : result float :=
  match a with
  | [] => Raise (ValueError (msg_numpy
            "zero-size array to reduction operation maximum which has no identity"))
  | x :: a' => Ok (fold_left npy_max a' x)
  end.

Section Tristimulus.
(** The two interpolator classes of [colour], outside the sources. *)
Variables SpragueInterpolator SplineInterpolator : interpolator.

(** [wavelength_to_XYZ_vectorise], on a 1-d query.  The guard is
    [np.min(wavelength) < shape.start or np.max(wavelength) > shape.end],
    with Python's short-circuit [or].  The result is [np.squeeze] of the
    three interpolated channels with the axes swapped, one row per queried
    wavelength, or [cmfs.get(wavelength)], which is
    [TriSpectralPowerDistribution_get] with its default [None]. *)
Definition wavelength_to_XYZ_vectorise (wavelength : ndarray float)
    (cmfs : TriSpectralPowerDistribution) : result (ndarray (option float)) :=
  let wavelength := data wavelength in
  lo ← np_min wavelength;
  if (lo <? shape_start cmfs)%float then
    Raise (ValueError (msg_wavelength_domain
                         wavelength (shape_start cmfs) (shape_end cmfs)))
  else
    hi ← np_max wavelength;
    if (shape_end cmfs <? hi)%float then
      Raise (ValueError (msg_wavelength_domain
                           wavelength (shape_start cmfs) (shape_end cmfs)))
    else if negb (cmfs_contains cmfs wavelength) then
      let wavelengths := cmfs_wavelengths cmfs in
      let values := cmfs_values cmfs in
      let interpolator :=
        if is_uniform cmfs then SpragueInterpolator else SplineInterpolator in
      let interpolators :=
        (interpolator wavelengths (col0 values),
         interpolator wavelengths (col1 values),
         interpolator wavelengths (col2 values)) in
      let rows := dstack3 (interpolators.1.1 wavelength)
                          (interpolators.1.2 wavelength)
                          (interpolators.2 wavelength) in
      Ok (NDArray (squeeze_shape [length rows; 3%nat]) (map Some (ravel3 rows)))
    else
      Ok (TriSpectralPowerDistribution_get
            (cmfs_x cmfs) (cmfs_y cmfs) (cmfs_z cmfs) wavelength None).
End Tristimulus.

(** A wavelength within the tabulated shape of the colour matching
    functions, bounds included. *)
Definition in_domain (cmfs : TriSpectralPowerDistribution) (w : float) : Prop :=
  float_le (shape_start cmfs) w /\ float_le w (shape_end cmfs).

(** The error of the domain check: a [ValueError] with the message
    '"{0} nm" wavelength is not in "[{1}, {2}]" domain!'. *)
Definition is_domain_error {T} (r : result T) : Prop :=
  exists ws a b, r = Raise (ValueError (msg_wavelength_domain ws a b)).

(** A three-sample table and an interpolator that answers 0 everywhere, to
    run the domain check. *)
Definition cmf_sample : SpectralPowerDistribution :=
  {| name := "cmf";
     spd_data := list_to_map [(Q2Qc 360, 0%float); (Q2Qc 595, 1%float);
                              (Q2Qc 830, 0%float)] |}.

Definition cmfs_sample : TriSpectralPowerDistribution :=
  {| shape_start := 360; shape_end := 830;
     cmfs_x := cmf_sample; cmfs_y := cmf_sample; cmfs_z := cmf_sample;
     cmfs_contains := fun ws =>
       forallb (fun w => existsb (PrimFloat.eqb w) [360; 595; 830]%float) ws;
     cmfs_wavelengths := [360; 595; 830]%float;
     cmfs_values := [(0, 0, 0); (1, 1, 1); (0, 0, 0)]%float;
     is_uniform := true |}.

Definition zero_interpolator : interpolator := fun _ _ q => map (fun _ => 0%float) q.

(* ===================================================================== *)
(** ** colour.adaptation and colour.models: chromatic_adaptation_VonKries,
       RGB_to_RGB, XYZ_to_xy *)
(* ===================================================================== *)

Section Adaptation.
Context {A : Arith}.
Variable CHROMATIC_ADAPTATION_TRANSFORMS : CaseInsensitiveMapping (mat3 A).

(** [chromatic_adaptation_VonKries_vectorise]: the array is read first,
    then the matrix is built and applied to every row. *)
Definition chromatic_adaptation_VonKries_vectorise
    (XYZ XYZ_w XYZ_wr : ndarray A) (transform : string) : result (ndarray A) :=
  let shape := as_shape XYZ in
  XYZ ← as_array3 XYZ;
  cat ← chromatic_adaptation_matrix_VonKries_vectorise
          CHROMATIC_ADAPTATION_TRANSFORMS XYZ_w XYZ_wr transform;
  XYZ_a ← einsum_vM XYZ cat;
  np_reshape (ravel3 XYZ_a) (map Z.of_nat shape).

(** [np.einsum('...ij,...jk->...ik', P, Q)]: the matrix product [P Q], the
    ellipsis axes broadcast. *)
Definition einsum_MM (P Q : squeezed A) : result (squeezed A) :=
  match P, Q with
  | Matrix p, Matrix q => Ok (Matrix (mat_mul p q))
  | Matrix p, Matrices qs => Ok (Matrices (map (mat_mul p) qs))
  | Matrices ps, Matrix q => Ok (Matrices (map (fun p => mat_mul p q) ps))
  | Matrices ps, Matrices qs => ms ← broadcast_rows mat_mul ps qs; Ok (Matrices ms)
  end.

(** Modelled from the spec: the class [RGB_Colourspace] is not in the
    sources; the spec describes the descriptor as a whitepoint with the
    pair of 3 x 3 matrices between RGB and XYZ (and transfer functions,
    which [RGB_to_RGB] does not read). *)
Record RGB_Colourspace : Type := {
  whitepoint : ndarray A;
  RGB_to_XYZ_matrix : mat3 A;
  XYZ_to_RGB_matrix : mat3 A
}.

(** [RGB_to_RGB_vectorise]: the three matrices are multiplied in the order
    the source writes them, input [RGB_to_XYZ_matrix], adaptation, output
    [XYZ_to_RGB_matrix]. *)
Definition RGB_to_RGB_vectorise
    (RGB : ndarray A) (input_colourspace output_colourspace : RGB_Colourspace)
    (chromatic_adaptation_transform : string) : result (ndarray A) :=
  let shape := as_shape RGB in
  RGB ← as_array3 RGB;
  w ← xy_to_XYZ_vectorise (whitepoint input_colourspace);
  wr ← xy_to_XYZ_vectorise (whitepoint output_colourspace);
  cat ← chromatic_adaptation_matrix_VonKries_vectorise
          CHROMATIC_ADAPTATION_TRANSFORMS w wr chromatic_adaptation_transform;
  M ← einsum_MM (Matrix (RGB_to_XYZ_matrix input_colourspace)) cat;
  M ← einsum_MM M (Matrix (XYZ_to_RGB_matrix output_colourspace));
  RGB ← einsum_vM RGB M;
  np_reshape (ravel3 RGB) (map Z.of_nat shape).

(** [XYZ_to_xy_vectorise]: the first two columns of [XYZ_to_xyY]. *)
Definition XYZ_to_xy_vectorise (XYZ illuminant : ndarray A) : result (ndarray A) :=
  let shape := as_shape XYZ in
  xyY ← XYZ_to_xyY_vectorise XYZ illuminant;
  xyY ← as_array3 xyY;
  let xy := map (fun r => (r.1.1, r.1.2)) xyY in
  np_reshape (ravel2 xy) (auto_axis shape).
End Adaptation.

(** The sRGB colourspace of the analysis functions, over the rationals. *)
Definition sRGB_exact : RGB_Colourspace (A:=exact) :=
  {| whitepoint := array1 [W_D65_exact.1; W_D65_exact.2];
     RGB_to_XYZ_matrix := M_RGB_to_XYZ_exact;
     XYZ_to_RGB_matrix := M_XYZ_to_RGB_exact |}.

(** The inverse of the Bradford matrix over the rationals. *)
Definition BRADFORD_CAT_exact_inverse : mat3 Qc :=
  match np_linalg_inv (A:=exact) BRADFORD_CAT_exact with
  | Ok m => m
  | Raise _ => identity3
  end.

(* ===================================================================== *)
(** ** colour.models: CIE UCS, CMY and CMYK *)
(* ===================================================================== *)

(** Unary minus and [<], which these formulas use beside the operations of
    [Arith]. *)
Record Signed : Type := MkSigned {
  arith :> Arith;
  opp : arith -> arith;
  ltb : arith -> arith -> bool
}.
Arguments opp {_} _.
Arguments ltb {_} _ _.

Definition binary64_signed : Signed :=
  MkSigned binary64 PrimFloat.opp PrimFloat.ltb.
Definition exact_signed : Signed :=
  MkSigned exact Qcopp (fun a b => bool_decide (a < b)%Qc).

(** The Python integers of the formulas.  On binary64 these sums of ones
    are exact, so they are the floats numpy converts the integers to. *)
Section Numerals.
Context {A : Arith}.
Local Open Scope num_scope.
Definition two : A := one + one.
Definition three : A := two + one.
Definition four : A := two + two.
Definition eight : A := four + four.
End Numerals.

(** Two stacked columns, and [as_stack] of them. *)
Definition dstack2 {T} (a b : list T) : list (T * T) := zip a b.
Definition as_stack2 {T} (x : list (T * T)) (s : list Z) : result (ndarray T) :=
  np_reshape (ravel2 x) s.

(** The rows of a [(-1, 4)] array, four stacked columns and their data. *)
Fixpoint rows4 {T} (l : list T) : list (T * T * T * T) :=
  match l with
  | a :: b :: c :: d :: l' => (a, b, c, d) :: rows4 l'
  | _ => []
  end.
Definition as_array4 {T} (x : ndarray T) : result (list (T * T * T * T)) :=
  a ← np_reshape (data x) [(-1)%Z; 4%Z]; Ok (rows4 (data a)).
Fixpoint dstack4 {T} (a b c d : list T) : list (T * T * T * T) :=
  match a, b, c, d with
  | x :: a', y :: b', z :: c', w :: d' => (x, y, z, w) :: dstack4 a' b' c' d'
  | _, _, _, _ => []
  end.
Definition ravel4 {T} (a : list (T * T * T * T)) : list T :=
  concat (map (fun r => [r.1.1.1; r.1.1.2; r.1.2; r.2]) a).
Definition as_stack4 {T} (x : list (T * T * T * T)) (s : list Z)
  : result (ndarray T) :=
  np_reshape (ravel4 x) s.

(** [a[mask] = v] with a number [v]. *)
Definition setitem_mask {T} (a : list T) (mask : list bool) (v : T) : list T :=
  zip_with (fun x (m : bool) => if m then v else x) a mask.

Section CIE_UCS.
Context {S : Signed}.
Local Open Scope np_scope.

Definition np_negative (a : list S) : list S := map opp a.
Definition np_lt (a b : list S) : list bool := zip_with ltb a b.

Definition XYZ_to_UCS_vectorise (XYZ : ndarray S) : result (ndarray S) :=
  let shape := as_shape XYZ in
  XYZ ← as_array3 XYZ;
  let X := col0 XYZ in
  let Y := col1 XYZ in
  let Z := col2 XYZ in
  as_stack (dstack3 ((two / three)%num $* X)
                    Y
                    ((one / two)%num $* (np_negative X + three $* Y + Z)))
           (map Z.of_nat shape).

Definition UCS_to_XYZ_vectorise (UVW : ndarray S) : result (ndarray S) :=
  let shape := as_shape UVW in
  UVW ← as_array3 UVW;
  let U := col0 UVW in
  let V := col1 UVW in
  let W := col2 UVW in
  as_stack (dstack3 ((three / two)%num $* U)
                    V
                    ((three / two)%num $* U - three $* V + two $* W))
           (map Z.of_nat shape).

Definition UCS_to_uv_vectorise (UVW : ndarray S) : result (ndarray S) :=
  let shape := as_shape UVW in
  UVW ← as_array3 UVW;
  let U := col0 UVW in
  let V := col1 UVW in
  let W := col2 UVW in
  as_stack2 (dstack2 (U / (U + V + W)) (V / (U + V + W)))
            (auto_axis shape).

Definition UCS_uv_to_xy_vectorise (uv : ndarray S) : result (ndarray S) :=
  let shape := as_shape uv in
  uv ← as_array2 uv;
  let u := map fst uv in
  let v := map snd uv in
  as_stack2 (dstack2 (three $* u / (two $* u - eight $* v +$ four))
                     (two $* v / (two $* u - eight $* v +$ four)))
            (map Z.of_nat shape).

(** [1 - RGB] on the whole [(N, 3)] array. *)
Definition one_minus (a : list (vec3 S)) : list (vec3 S) :=
  map (fun '(r, g, b) => (one - r, one - g, one - b)%num) a.

Definition RGB_to_CMY_vectorise (RGB : ndarray S) : result (ndarray S) :=
  let shape := as_shape RGB in
  RGB ← as_array3 RGB;
  as_stack (one_minus RGB) (map Z.of_nat shape).

Definition CMY_to_RGB_vectorise (CMY : ndarray S) : result (ndarray S) :=
  let shape := as_shape CMY in
  CMY ← as_array3 CMY;
  as_stack (one_minus CMY) (map Z.of_nat shape).

(** [CMY_to_CMYK_vectorise]: [K] is the least of 1, [C], [M] and [Y]; where
    [K == 1] the three quotients by [1 - K] are overwritten with 0. *)
Definition CMY_to_CMYK_vectorise (CMY : ndarray S) : result (ndarray S) :=
  let shape := as_shape CMY in
  CMY ← as_array3 CMY;
  let C := col0 CMY in
  let M := col1 CMY in
  let Y := col2 CMY in
  let K := np_ones (length C) in
  let K := np_where (np_lt C K) C K in
  let K := np_where (np_lt M K) M K in
  let K := np_where (np_lt Y K) Y K in
  let C := (C - K) / (one $- K) in
  let M := (M - K) / (one $- K) in
  let Y := (Y - K) / (one $- K) in
  let C := setitem_mask C (np_eq_scalar K one) zero in
  let M := setitem_mask M (np_eq_scalar K one) zero in
  let Y := setitem_mask Y (np_eq_scalar K one) zero in
  as_stack4 (dstack4 C M Y K) (auto_axis shape).

Definition CMYK_to_CMY_vectorise (CMYK : ndarray S) : result (ndarray S) :=
  let shape := as_shape CMYK in
  CMYK ← as_array4 CMYK;
  let C := map (fun r => r.1.1.1) CMYK in
  let M := map (fun r => r.1.1.2) CMYK in
  let Y := map (fun r => r.1.2) CMYK in
  let K := map (fun r => r.2) CMYK in
  as_stack (dstack3 (C * (one $- K) + K)
                    (M * (one $- K) + K)
                    (Y * (one $- K) + K))
           (auto_axis shape).

(** The formulas of one row. *)
Definition XYZ_to_UCS_row (r : vec3 S) : vec3 S :=
  let '(X, Y, Z) := r in
  (two / three * X, Y, one / two * (opp X + three * Y + Z))%num.

Definition UCS_to_XYZ_row (r : vec3 S) : vec3 S :=
  let '(U, V, W) := r in
  (three / two * U, V, three / two * U - three * V + two * W)%num.
End CIE_UCS.

(** The black component of one colour: the least of 1, [C], [M], [Y],
    computed as the three [np.where] do. *)
Definition least {S : Signed} (a k : S) : S := if ltb a k then a else k.
Definition CMY_to_CMYK_row {S : Signed} (r : vec3 S) : list S :=
  let '(C, M, Y) := r in
  let K := least Y (least M (least C one)) in
  [if (K == one)%num then zero else ((C - K) / (one - K))%num;
   if (K == one)%num then zero else ((M - K) / (one - K))%num;
   if (K == one)%num then zero else ((Y - K) / (one - K))%num;
   K].

(* ===================================================================== *)
(** ** colour.models.derivation and colour.models.ipt: scalar outputs *)
(* ===================================================================== *)

Section Derivation.
Context {A : Arith}.
Local Open Scope np_scope.
(** [colour.models.derivation.normalised_primary_matrix], outside the
    sources: the 3 x 3 matrix of the primaries and the whitepoint. *)
Variable normalised_primary_matrix : ndarray A -> A * A -> mat3 A.

(** [RGB_luminance_vectorise]: [np.ravel(M)[3:6]] is the second row of the
    matrix; the result is [np.squeeze] of the 1-d array of the rows'
    luminances, and the shape of [RGB] is not read. *)
Definition RGB_luminance_vectorise (RGB primaries : ndarray A)
    (whitepoint : A * A) : result (ndarray A) :=
  RGB ← as_array3 RGB;
  let '(X, Y, Z) := (normalised_primary_matrix primaries whitepoint).1.2 in
  let R := col0 RGB in
  let G := col1 RGB in
  let B := col2 RGB in
  let luminance := (X $* R) + (Y $* G) + (Z $* B) in
  Ok (NDArray (squeeze_shape [length luminance]) luminance).
End Derivation.

Section IPT.
(** [np.arctan2], C's [atan2]. *)
Variable npy_arctan2 : float -> float -> float.

(** [IPT_hue_angle_vectorise]: the 1-d array of the rows' hue angles; the
    shape of [IPT] is not read. *)
Definition IPT_hue_angle_vectorise (IPT : ndarray float) : result (ndarray float) :=
  IPT ← as_array3 IPT;
  let hue := zip_with npy_arctan2 (col2 IPT) (col1 IPT) in
  Ok (array1 hue).
End IPT.

(** Stand-ins to run the two functions: a matrix whose second row holds
    the luminance weights of [M_RGB_to_XYZ], and the quotient for the
    angle. *)
Definition primary_matrix_sample : ndarray float -> float * float -> mat3 float :=
  fun _ _ => M_RGB_to_XYZ.
Definition quotient_for_arctan2 (y x : float) : float := (y / x)%float.

(* ===================================================================== *)
(** * Properties *)
(* ===================================================================== *)

(** ** Shapes and reshaping *)

Lemma length_rows3 {T} (n : nat) : forall l : list T,
  length l = 3 * n -> length (rows3 l) = n.
Proof.
  induction n as [|n IH]; intros l Hl.
  - destruct l; [reflexivity | discriminate].
  - destruct l as [|a [|b [|c l]]]; simpl in Hl; try lia.
    simpl. f_equal. apply IH. lia.
Qed.

Lemma length_ravel3 {T} (a : list (vec3 T)) : length (ravel3 a) = 3 * length a.
Proof.
  unfold ravel3. induction a as [|r a IH]; simpl in *; [reflexivity | lia].
Qed.

Lemma ravel3_rows3 {T} (n : nat) : forall l : list T,
  length l = 3 * n -> ravel3 (rows3 l) = l.
Proof.
  induction n as [|n IH]; intros l Hl.
  - destruct l; [reflexivity | discriminate].
  - destruct l as [|a [|b [|c l]]]; simpl in Hl; try lia.
    unfold ravel3 in *. simpl. do 3 f_equal. apply IH. lia.
Qed.

Lemma rows3_ravel3 {T} (a : list (vec3 T)) : rows3 (ravel3 a) = a.
Proof.
  unfold ravel3. induction a as [|[[x y] z] a IH]; simpl; [reflexivity|].
  f_equal. exact IH.
Qed.

Lemma known_size_of_nat (s : list nat) :
  known_size (map Z.of_nat s) = Z.of_nat (size_of s).
Proof.
  induction s as [|d s IH]; simpl; [reflexivity|].
  destruct (Z.eqb_spec (Z.of_nat d) (-1)); [lia|].
  rewrite IH. lia.
Qed.

Lemma no_negative_of_nat (s : list nat) :
  existsb (fun d => (d <? -1)%Z) (map Z.of_nat s) = false.
Proof.
  induction s as [|d s IH]; simpl; [reflexivity|].
  rewrite IH. destruct (Z.ltb_spec (Z.of_nat d) (-1)); [lia | reflexivity].
Qed.

Lemma no_unknown_of_nat (s : list nat) :
  List.filter (fun d => (d =? -1)%Z) (map Z.of_nat s) = [].
Proof.
  induction s as [|d s IH]; simpl; [reflexivity|].
  destruct (Z.eqb_spec (Z.of_nat d) (-1)); [lia | exact IH].
Qed.

(** Reshaping to an explicit shape of the right size succeeds. *)
Lemma resolve_shape_explicit (s : list nat) :
  resolve_shape (size_of s) (map Z.of_nat s) = Some s.
Proof.
  unfold resolve_shape.
  rewrite no_negative_of_nat, no_unknown_of_nat, known_size_of_nat. simpl.
  rewrite Z.eqb_refl. f_equal.
  rewrite map_map. rewrite <- (map_id s) at 2. apply map_ext. intros; lia.
Qed.

Lemma np_reshape_explicit {T} (l : list T) (s : list nat) :
  length l = size_of s ->
  np_reshape l (map Z.of_nat s) = Ok (NDArray s l).
Proof.
  intros Hl. unfold np_reshape. rewrite Hl, resolve_shape_explicit. reflexivity.
Qed.

Lemma np_reshape_explicit_inv {T} (l : list T) (s : list nat) (a : ndarray T) :
  np_reshape l (map Z.of_nat s) = Ok a -> a = NDArray s l /\ length l = size_of s.
Proof.
  unfold np_reshape, resolve_shape.
  rewrite no_negative_of_nat, no_unknown_of_nat, known_size_of_nat. simpl.
  destruct (Z.eqb_spec (Z.of_nat (size_of s)) (Z.of_nat (length l))) as [E|E];
    [|discriminate].
  intros [= <-]. split; [|lia]. f_equal.
  rewrite map_map. rewrite <- (map_id s) at 2. apply map_ext. intros; lia.
Qed.

(** [reshape(-1, 3)] succeeds exactly on sizes that are multiples of 3. *)
Lemma resolve_shape_rows3 (n : nat) :
  resolve_shape (3 * n) [(-1)%Z; 3%Z] = Some [n; 3].
Proof.
  unfold resolve_shape. cbn [existsb List.filter length known_size foldr].
  change (-1 <? -1)%Z with false. change (3 <? -1)%Z with false.
  change (-1 =? -1)%Z with true. change (3 =? -1)%Z with false.
  cbn [orb length map].
  replace (Z.of_nat (3 * n)) with (Z.of_nat n * (3 * 1))%Z by lia.
  rewrite Z.mod_mul by lia. rewrite Z.div_mul by lia. simpl.
  rewrite Nat2Z.id. reflexivity.
Qed.

Lemma as_array3_ok {T} (x : ndarray T) (n : nat) :
  length (data x) = 3 * n -> as_array3 x = Ok (rows3 (data x)).
Proof.
  intros Hl. unfold as_array3, np_reshape. rewrite Hl, resolve_shape_rows3.
  reflexivity.
Qed.

Lemma as_array3_raises {T} (x : ndarray T) :
  length (data x) mod 3 <> 0 -> raises (as_array3 x).
Proof.
  intros Hl. unfold as_array3, np_reshape, resolve_shape.
  cbn [existsb List.filter length known_size foldr].
  change (-1 <? -1)%Z with false. change (3 <? -1)%Z with false.
  change (-1 =? -1)%Z with true. change (3 =? -1)%Z with false.
  cbn [orb length].
  destruct (Z.eqb_spec (Z.of_nat (length (data x)) mod (3 * 1)) 0) as [E|E].
  - exfalso. apply Hl. change (3 * 1)%Z with (Z.of_nat 3) in E.
    rewrite <- Nat2Z.inj_mod in E. lia.
  - rewrite andb_false_r. exact I.
Qed.

(** A shape whose last axis is 3 has a size that is a multiple of 3. *)
Lemma size_of_app (s t : list nat) : size_of (s ++ t) = size_of s * size_of t.
Proof.
  unfold size_of. induction s as [|d s IH]; simpl; [lia|]. rewrite IH. lia.
Qed.

Lemma size_of_last3 (s : list nat) :
  last s = Some 3 -> size_of s = 3 * size_of (removelast s).
Proof.
  intros Hl. apply last_Some in Hl as [s' ->].
  rewrite removelast_last, size_of_app. simpl. lia.
Qed.

(* ===================================================================== *)
(** ** SpectralPowerDistribution.__getitem__ *)
(* ===================================================================== *)

(** The wavelengths are the keys of the mapping, in ascending order. *)
Lemma wavelengths_sorted (self : SpectralPowerDistribution) :
  Sorted Qcle (wavelengths self).
Proof. apply Sorted_merge_sort; apply _. Qed.

Lemma elem_of_wavelengths (self : SpectralPowerDistribution) (w : Qc) :
  w ∈ wavelengths self <-> is_Some (spd_data self !! w).
Proof.
  unfold wavelengths. rewrite merge_sort_Permutation.
  rewrite list_elem_of_fmap. split.
  - intros [[k v] [-> Hkv]]. apply elem_of_map_to_list in Hkv. simpl. eauto.
  - intros [v Hv]. exists (w, v). split; [reflexivity|].
    apply elem_of_map_to_list. exact Hv.
Qed.

(** [values] is parallel to [wavelengths]. *)
Lemma values_parallel (self : SpectralPowerDistribution) :
  Forall2 (fun w v => spd_data self !! w = Some v) (wavelengths self) (values self).
Proof.
  unfold values.
  assert (H : Forall (fun w => is_Some (spd_data self !! w)) (wavelengths self)).
  { apply Forall_forall. intros w Hw. apply elem_of_wavelengths, Hw. }
  induction H as [|w ws [v Hv] _ IH]; simpl; [constructor|].
  rewrite Hv. simpl. constructor; [exact Hv | exact IH].
Qed.

(** An iterable of keys gives the parallel array of stored values. *)
Lemma mapM_dict_getitem (d : gmap Qc float) (ws : list Qc) (vs : list float) :
  Forall2 (fun w v => d !! w = Some v) ws vs ->
  mapM (dict_getitem d) ws = Ok vs.
Proof.
  induction 1 as [|w v ws vs Hw _ IH]; simpl; [reflexivity|].
  rewrite IH. unfold dict_getitem. rewrite Hw. reflexivity.
Qed.

(** Positions [i, i+1, ..] index a list as [drop] and [take] do. *)
Lemma omap_lookup_positions {T} (l : list T) (i : nat) : forall n k : nat,
  i + k + n <= length l ->
  omap (M:=list) (fun p : Z => l !! Z.to_nat p)
       (map (fun q => (Z.of_nat i + Z.of_nat q * 1)%Z) (seq k n))
  = take n (drop (i + k) l).
Proof.
  induction n as [|n IH]; intros k Hk; simpl; [reflexivity|].
  replace (Z.to_nat (Z.of_nat i + Z.of_nat k * 1)) with (i + k) by lia.
  destruct (lookup_lt_is_Some_2 l (i + k)) as [x Hx]; [lia|].
  rewrite Hx. simpl.
  rewrite (drop_S _ _ _ Hx). simpl. f_equal.
  rewrite IH by lia. f_equal. f_equal. lia.
Qed.

(** A slice [i:j] with [0 <= i <= j <= len] selects by position. *)
Lemma slice_clamp_in_range (len v : Z) :
  (0 <= v <= len)%Z -> slice_clamp len 0 len v = v.
Proof.
  intros Hv. unfold slice_clamp. cbv zeta.
  rewrite (proj2 (Z.ltb_ge v 0)) by lia.
  rewrite (proj2 (Z.ltb_ge v 0)) by lia.
  rewrite (proj2 (Z.ltb_ge len v)) by lia. reflexivity.
Qed.

Lemma getitem_slice_positional {T} (l : list T) (i j : nat) :
  i <= j <= length l ->
  getitem_slice l (Some (Z.of_nat i)) (Some (Z.of_nat j)) None
  = Ok (take (j - i) (drop i l)).
Proof.
  intros Hij. unfold getitem_slice, slice_positions.
  cbn [default from_option Z.eqb Z.ltb Z.compare].
  rewrite !slice_clamp_in_range by lia.
  destruct (Z.ltb_spec (Z.of_nat i) (Z.of_nat j)) as [Hlt|Hge].
  - rewrite Z.div_1_r.
    replace (Z.to_nat (Z.of_nat j - Z.of_nat i - 1 + 1)) with (j - i) by lia.
    cbn [mbind result_bind].
    rewrite (omap_lookup_positions l i (j - i) 0) by lia.
    rewrite Nat.add_0_r. reflexivity.
  - replace (j - i) with 0 by lia. reflexivity.
Qed.

(** A numeric index is [dict.__getitem__] on the mapping. *)
Lemma getitem_numeric_key (self : SpectralPowerDistribution) (w : Qc) (v : float) :
  spd_data self !! w = Some v ->
  SpectralPowerDistribution__getitem__ self (Numeric w) = Ok (Number v).
Proof.
  intros Hw. unfold SpectralPowerDistribution__getitem__, dict_getitem.
  rewrite Hw. reflexivity.
Qed.

Lemma getitem_numeric_missing (self : SpectralPowerDistribution) (w : Qc) :
  spd_data self !! w = None ->
  SpectralPowerDistribution__getitem__ self (Numeric w)
  = Raise (KeyError (msg_missing_key w)).
Proof.
  intros Hw. unfold SpectralPowerDistribution__getitem__, dict_getitem.
  rewrite Hw. reflexivity.
Qed.

(** C2.  Indexing a distribution at a wavelength that is a key of its
    mapping returns the stored value itself: no arithmetic is applied to it. *)
Theorem getitem_exact_sample (self : SpectralPowerDistribution) (w : Qc) (v : float) :
  spd_data self !! w = Some v ->
  SpectralPowerDistribution__getitem__ self (Numeric w) = Ok (Number v).
Proof. apply getitem_numeric_key. Qed.

(** The distribution {510: 49.67, 520: 69.59, 530: 81.73, 540: 88.19} at 520. *)
Lemma getitem_exact_sample_520 :
  SpectralPowerDistribution__getitem__ spd_sample (Numeric (Q2Qc 520))
  = Ok (Number 69.59%float).
Proof. apply getitem_exact_sample. vm_compute. reflexivity. Defined.

(** The same for a distribution built from any literal mapping with unique
    keys. *)
Lemma getitem_of_mapping (nm : string) (mapping : list (Qc * float)) (w : Qc) (v : float) :
  NoDup mapping.*1 -> (w, v) ∈ mapping ->
  SpectralPowerDistribution__getitem__
    {| name := nm; spd_data := list_to_map mapping |} (Numeric w)
  = Ok (Number v).
Proof.
  intros Hnd Hin. apply getitem_numeric_key. simpl.
  apply elem_of_list_to_map; assumption.
Qed.

(** C6.  Scalar and iterable indices address the mapping by wavelength; a
    slice indexes the ascending [values] sequence by position. *)
Theorem getitem_asymmetry (self : SpectralPowerDistribution) :
  (forall w v, spd_data self !! w = Some v ->
     SpectralPowerDistribution__getitem__ self (Numeric w) = Ok (Number v)) /\
  (forall ws vs, Forall2 (fun w v => spd_data self !! w = Some v) ws vs ->
     SpectralPowerDistribution__getitem__ self (Iterable ws) = Ok (Array vs)) /\
  (forall start stop step,
     SpectralPowerDistribution__getitem__ self (Slice start stop step)
     = Array <$> getitem_slice (values self) start stop step) /\
  (forall i j : nat, i <= j <= length (values self) ->
     SpectralPowerDistribution__getitem__ self
       (Slice (Some (Z.of_nat i)) (Some (Z.of_nat j)) None)
     = Ok (Array (take (j - i) (drop i (values self))))).
Proof.
  split; [|split; [|split]].
  - apply getitem_numeric_key.
  - intros ws vs H. unfold SpectralPowerDistribution__getitem__.
    rewrite (mapM_dict_getitem _ _ _ H). reflexivity.
  - intros start stop step. unfold SpectralPowerDistribution__getitem__.
    destruct (getitem_slice (values self) start stop step); reflexivity.
  - intros i j Hij. unfold SpectralPowerDistribution__getitem__.
    rewrite getitem_slice_positional by exact Hij. reflexivity.
Qed.

(** On the sample distribution: [spd[(510, 520)]] and [spd[0:-1]] of the
    analysis function, and the slice [spd[510:530]], which is empty because
    510 and 530 are read as positions. *)
Lemma getitem_asymmetry_sample :
  SpectralPowerDistribution__getitem__ spd_sample (Iterable [Q2Qc 510; Q2Qc 520])
    = Ok (Array [49.67; 69.59]%float) /\
  SpectralPowerDistribution__getitem__ spd_sample (Slice (Some 0%Z) (Some 2%Z) None)
    = Ok (Array [49.67; 69.59]%float) /\
  SpectralPowerDistribution__getitem__ spd_sample (Slice (Some 0%Z) (Some (-1)%Z) None)
    = Ok (Array [49.67; 69.59; 81.73]%float) /\
  SpectralPowerDistribution__getitem__ spd_sample (Slice (Some 510%Z) (Some 530%Z) None)
    = Ok (Array []).
Proof.
  destruct (getitem_asymmetry spd_sample) as (_ & Hiter & Hslice & Hpos).
  split; [|split; [|split]].
  - apply Hiter. repeat constructor.
  - apply (Hpos 0 2). vm_compute. split; [lia|]. do 2 apply le_S; apply le_n.
  - rewrite Hslice. vm_compute. reflexivity.
  - rewrite Hslice. vm_compute. reflexivity.
Defined.

(* ===================================================================== *)
(** ** xyY to XYZ *)
(* ===================================================================== *)

Section CIE_xyY_facts.
Context {A : Arith}.

(** The stacked columns of [xyY_to_XYZ_vectorise] are its row formula
    applied to every row. *)
Lemma xyY_to_XYZ_columns (a : list (vec3 A)) :
  np_where (np_eq_scalar (col1 a) zero)
           (dstack3 (col1 a) (col1 a) (col1 a))
           (dstack3 (col0 a * col2 a / col1 a) (col2 a)
                    ((one $- col0 a - col1 a) * col2 a / col1 a))%np
  = map xyY_to_XYZ_row a.
Proof.
  induction a as [|[[x y] Y] a IH]; [reflexivity|].
  cbn -[eqb add sub mul div zero one]. f_equal. exact IH.
Qed.

Lemma xyY_to_XYZ_vectorise_rows (xyY : ndarray A) (n : nat) :
  length (data xyY) = 3 * n ->
  xyY_to_XYZ_vectorise xyY
  = np_reshape (ravel3 (map xyY_to_XYZ_row (rows3 (data xyY))))
               (auto_axis (shape xyY)).
Proof.
  intros Hl. unfold xyY_to_XYZ_vectorise. rewrite (as_array3_ok _ n Hl).
  cbn [mbind result_bind]. unfold as_stack, as_shape.
  rewrite xyY_to_XYZ_columns. reflexivity.
Qed.

(** A single colour. *)
Lemma xyY_to_XYZ_vectorise_single (x y Y : A) :
  xyY_to_XYZ_vectorise (array1 [x; y; Y])
  = Ok (array_of_vec3 (xyY_to_XYZ_row (x, y, Y))).
Proof.
  rewrite (xyY_to_XYZ_vectorise_rows _ 1) by reflexivity.
  cbn -[eqb add sub mul div zero one].
  destruct (eqb y zero); reflexivity.
Qed.

Lemma xy_to_XYZ_vectorise_single (x y : A) :
  xy_to_XYZ_vectorise (array1 [x; y])
  = Ok (array_of_vec3 (xyY_to_XYZ_row (x, y, one))).
Proof.
  unfold xy_to_XYZ_vectorise.
  change (as_array2 (array1 [x; y])) with (Ok [(x, y)] : result (list (A * A))).
  cbn [mbind result_bind].
  change (as_stack _ _) with (Ok (array1 [x; y; one]) : result (ndarray A)).
  cbn [mbind result_bind]. apply xyY_to_XYZ_vectorise_single.
Qed.

(** In a batch, every row whose [y] tests equal to zero comes out as
    [(y, y, y)]. *)
Lemma xyY_to_XYZ_row_degenerate (x y Y : A) :
  eqb y zero = true -> xyY_to_XYZ_row (x, y, Y) = (y, y, y).
Proof. intros Hy. unfold xyY_to_XYZ_row. rewrite Hy. reflexivity. Qed.
End CIE_xyY_facts.

(** C3.  [xyY_to_XYZ] of [[x, 0, Y]] is [[0, 0, 0]] for every binary64 [x]
    and [Y] (infinities and nan included), and the call returns: the
    quotients by [y = 0] are computed, as inf or nan, and dropped by
    [np.where]. *)
Theorem xyY_to_XYZ_degenerate (x Y : float) :
  xyY_to_XYZ_vectorise (A:=binary64) (array1 [x; 0%float; Y])
  = Ok (array1 [0%float; 0%float; 0%float]).
Proof. rewrite xyY_to_XYZ_vectorise_single. reflexivity. Qed.

(** The same with the negative zero, which also tests [== 0]: the result is
    the vector of negative zeros, equal to zero under [==]. *)
Lemma xyY_to_XYZ_degenerate_negative_zero (x Y : float) :
  xyY_to_XYZ_vectorise (A:=binary64) (array1 [x; (-0)%float; Y])
  = Ok (array1 [(-0)%float; (-0)%float; (-0)%float]).
Proof. rewrite xyY_to_XYZ_vectorise_single. reflexivity. Qed.

(* ===================================================================== *)
(** ** XYZ to xyY *)
(* ===================================================================== *)

Section CIE_XYZ_to_xyY_facts.
Context {A : Arith}.
Local Open Scope num_scope.

Lemma XYZ_to_xyY_columns (a : list (vec3 A)) : forall ill : list (vec3 A),
  length ill = length a ->
  np_where3 (eq_zero3 a)
            (dstack3 (col0 ill) (col1 ill) (col1 a))
            (dstack3 (col0 a / (col0 a + col1 a + col2 a))
                     (col1 a / (col0 a + col1 a + col2 a)) (col1 a))%np
  = zip_with XYZ_to_xyY_row ill a.
Proof.
  induction a as [|[[X Y] Z] a IH]; intros [|[[i0 i1] i2] ill] Hl;
    try discriminate; [reflexivity|].
  cbn -[eqb add sub mul div zero one].
  rewrite <- (IH ill) by (simpl in Hl; lia).
  destruct (eqb Z zero); reflexivity.
Qed.

(** A single colour with a single illuminant. *)
Lemma XYZ_to_xyY_vectorise_single (X Y Z ix iy : A) :
  XYZ_to_xyY_vectorise (array1 [X; Y; Z]) (array1 [ix; iy])
  = Ok (array_of_vec3 (XYZ_to_xyY_row (ix, iy, ix) (X, Y, Z))).
Proof.
  unfold XYZ_to_xyY_vectorise.
  change (as_array3 (array1 [X; Y; Z])) with (Ok [(X, Y, Z)] : result (list (vec3 A))).
  change (as_array2 (array1 [ix; iy])) with (Ok [(ix, iy)] : result (list (A * A))).
  cbn [mbind result_bind].
  change (rows3 (np_resize zero (ravel2 [(ix, iy)]) (3 * length [(X, Y, Z)])))
    with [(ix, iy, ix)].
  rewrite XYZ_to_xyY_columns by reflexivity. reflexivity.
Qed.
End CIE_XYZ_to_xyY_facts.

(** C9.  The zero test of [XYZ_to_xyY] is elementwise: each output
    component is chosen by the test of its own input component.  With
    [X == 0] alone, [x] is the illuminant's and [y] is still the quotient
    [Y / (X + Y + Z)]; with [Y == 0] alone, [y] is the illuminant's; the
    third component is [Y] on both sides of its test. *)
Theorem XYZ_to_xyY_zero_test_elementwise (X Y Z ix iy : float) :
  XYZ_to_xyY_vectorise (A:=binary64) (array1 [X; Y; Z]) (array1 [ix; iy])
  = Ok (array1 [if (X =? 0)%float then ix else (X / (X + Y + Z))%float;
                if (Y =? 0)%float then iy else (Y / (X + Y + Z))%float;
                Y]).
Proof. rewrite XYZ_to_xyY_vectorise_single. reflexivity. Qed.

(** [X = 0] with [Y = Z = 1] under D50: [x] is the illuminant's 0.34567
    while [y = 1 / 2] is computed. *)
Lemma XYZ_to_xyY_single_zero_component :
  XYZ_to_xyY_vectorise (A:=binary64) (array1 [0; 1; 1]%float) W_D50
  = Ok (array1 [0.34567; 0.5; 1]%float).
Proof. unfold W_D50. rewrite XYZ_to_xyY_zero_test_elementwise. reflexivity. Defined.

(** In a batch the illuminant is resized to the shape [(N, 3)] of [XYZ], so
    row [n] faces the elements [3n, 3n+1, 3n+2] of the repeated pair: odd
    rows see the illuminant's [y] in column 0 and its [x] in column 1. *)
Lemma XYZ_to_xyY_batch_rows :
  XYZ_to_xyY_vectorise (A:=binary64) (NDArray [2; 3] [0; 1; 1; 0; 1; 1]%float) W_D50
  = Ok (NDArray [2; 3] [0.34567; 0.5; 1; 0.35850; 0.5; 1]%float).
Proof. vm_compute. reflexivity. Qed.

(* ===================================================================== *)
(** ** CIE 1994 colour difference: vectorised against reference *)
(* ===================================================================== *)

Section DeltaE_facts.
Variable npy_pow : float -> float -> float.
Local Open Scope float_scope.

(** On one pair of Lab triples the vectorised function returns the number
    the reference computes, whatever the flag, when [pow] returns the
    rounded product at the ten numbers squared. *)
Lemma delta_E_CIE1994_vectorise_single (t : bool) (Lab1 Lab2 : vec3 float) :
  Forall (fun x => npy_pow x 2 = x * x) (squares_of_CIE1994 Lab1 Lab2 t) ->
  delta_E_CIE1994_vectorise (array_of_vec3 Lab1) (array_of_vec3 Lab2) (Some t)
  = Ok (NDArray [] [delta_E_CIE1994 npy_pow Lab1 Lab2 (Some t)]).
Proof.
  destruct Lab1 as [[L1 a1] b1], Lab2 as [[L2 a2] b2].
  unfold squares_of_CIE1994. intros H.
  repeat match type of H with
  | Forall _ (_ :: _) =>
      let E := fresh "E" in apply Forall_cons in H as [E H]
  end.
  unfold delta_E_CIE1994. cbn [default from_option id].
  rewrite E, E0, E1, E2, E3, E4, E5.
  destruct t; rewrite E6, E7, E8; reflexivity.
Qed.

(** C10.  Called without [textiles], the vectorised function takes
    [textiles=True] and the reference [textiles=False]; on the pair
    [(100, 0, 0)], [(50, 0, 0)] they return 25 and 50, for every [pow]
    with [pow(0, 2) = 0] and [pow(50, 2) = 2500], and on the pair of the
    reference's docstring 88.3355... and 83.7792..., for every [pow] that
    returns the rounded product for the ten numbers squared there.  Called
    with the same explicit flag they return the same number on every pair
    of Lab triples at which [pow], with which the reference squares,
    returns the rounded product for the ten numbers squared. *)
Theorem delta_E_CIE1994_default_mismatch :
  (forall Lab1 Lab2 : vec3 float,
     delta_E_CIE1994_vectorise (array_of_vec3 Lab1) (array_of_vec3 Lab2) None
     = delta_E_CIE1994_vectorise (array_of_vec3 Lab1) (array_of_vec3 Lab2)
         (Some true)) /\
  (forall Lab1 Lab2 : vec3 float,
     delta_E_CIE1994 npy_pow Lab1 Lab2 None
     = delta_E_CIE1994 npy_pow Lab1 Lab2 (Some false)) /\
  (npy_pow 0 2 = 0 -> npy_pow 50 2 = 2500 ->
   delta_E_CIE1994_vectorise
     (array_of_vec3 (100, 0, 0)) (array_of_vec3 (50, 0, 0)) None
   = Ok (NDArray [] [25]) /\
   delta_E_CIE1994 npy_pow (100, 0, 0) (50, 0, 0) None = 50 /\
   25 <> 50) /\
  (Forall (fun x => npy_pow x 2 = x * x)
          (squares_of_CIE1994 Lab_sample_1 Lab_sample_2 false) ->
   delta_E_CIE1994_vectorise
     (array_of_vec3 Lab_sample_1) (array_of_vec3 Lab_sample_2) None
   = Ok (NDArray [] [88.335553057506502]) /\
   delta_E_CIE1994 npy_pow Lab_sample_1 Lab_sample_2 None = 83.779225500887094 /\
   88.335553057506502 <> 83.779225500887094) /\
  (forall (textiles : bool) (Lab1 Lab2 : vec3 float),
     Forall (fun x => npy_pow x 2 = x * x)
            (squares_of_CIE1994 Lab1 Lab2 textiles) ->
     delta_E_CIE1994_vectorise (array_of_vec3 Lab1) (array_of_vec3 Lab2)
                               (Some textiles)
     = Ok (NDArray [] [delta_E_CIE1994 npy_pow Lab1 Lab2 (Some textiles)])).
Proof.
  split; [|split; [|split; [|split]]].
  - reflexivity.
  - reflexivity.
  - intros H0 H50. split; [vm_compute; reflexivity|]. split.
    + unfold delta_E_CIE1994. cbn [default from_option id].
      change (0 - 0) with 0. rewrite H0.
      change (sqrt (0 + 0)) with 0. change (0 - 0) with 0. rewrite H0.
      change (sqrt (0 + 0 - 0)) with 0.
      change ((100 - 50) / (1 * 1)) with 50.
      change (0 / (1 * (1 + 0.045 * 0))) with 0.
      change (0 / (1 * (1 + 0.015 * 0))) with 0.
      rewrite H0, H50. vm_compute. reflexivity.
    + intros H. apply (f_equal (fun v => (25 <? v))) in H.
      vm_compute in H. discriminate.
  - intros Hpow. split; [vm_compute; reflexivity|]. split.
    + pose proof (delta_E_CIE1994_vectorise_single false _ _ Hpow) as E.
      change (delta_E_CIE1994 npy_pow Lab_sample_1 Lab_sample_2 None)
        with (delta_E_CIE1994 npy_pow Lab_sample_1 Lab_sample_2 (Some false)).
      assert (Ev : delta_E_CIE1994_vectorise (array_of_vec3 Lab_sample_1)
                     (array_of_vec3 Lab_sample_2) (Some false)
                   = Ok (NDArray [] [83.779225500887094]))
        by (vm_compute; reflexivity).
      rewrite Ev in E. injection E as E. symmetry. exact E.
    + intros H. apply (f_equal (fun v => (83.779225500887094 <? v))) in H.
      vm_compute in H. discriminate.
  - apply delta_E_CIE1994_vectorise_single.
Qed.
End DeltaE_facts.

Lemma delta_E_CIE1994_default_mismatch_sample :
  (delta_E_CIE1994_vectorise
     (array_of_vec3 (100, 0, 0)%float) (array_of_vec3 (50, 0, 0)%float) None
   = Ok (NDArray [] [25%float]) /\
   delta_E_CIE1994 pow_rounded_square (100, 0, 0)%float (50, 0, 0)%float None
   = 50%float /\
   25%float <> 50%float) /\
  (delta_E_CIE1994_vectorise
     (array_of_vec3 Lab_sample_1) (array_of_vec3 Lab_sample_2) None
   = Ok (NDArray [] [88.335553057506502%float]) /\
   delta_E_CIE1994 pow_rounded_square Lab_sample_1 Lab_sample_2 None
   = 83.779225500887094%float /\
   88.335553057506502%float <> 83.779225500887094%float) /\
  delta_E_CIE1994_vectorise
    (array_of_vec3 Lab_sample_1) (array_of_vec3 Lab_sample_2) (Some true)
  = Ok (NDArray [] [delta_E_CIE1994 pow_rounded_square Lab_sample_1 Lab_sample_2
                      (Some true)]).
Proof.
  pose proof (delta_E_CIE1994_default_mismatch pow_rounded_square)
    as (_ & _ & H1 & H2 & H3).
  split; [apply H1; reflexivity|].
  split; [apply H2; repeat constructor|].
  apply H3. repeat constructor.
Defined.

(** With the [pow] of glibc the reference and the vectorised function,
    both with [textiles=True], differ in the last digits on this pair. *)
Lemma delta_E_CIE1994_pow_disagreement :
  delta_E_CIE1994_vectorise
    (array_of_vec3 (18, -45.4, -86.5)%float)
    (array_of_vec3 (29.3, -93.4, -80.9)%float) (Some true)
  = Ok (NDArray [] [18.70217794958105%float]) /\
  delta_E_CIE1994 pow_glibc_sample
    (18, -45.4, -86.5)%float (29.3, -93.4, -80.9)%float (Some true)
  = 18.702177949581046%float /\
  18.70217794958105%float <> 18.702177949581046%float.
Proof.
  split; [vm_compute; reflexivity|]. split; [vm_compute; reflexivity|].
  intros H. apply (f_equal (fun v => (18.702177949581046 <? v)%float)) in H.
  vm_compute in H. discriminate.
Qed.

(* ===================================================================== *)
(** ** Order on binary64 *)
(* ===================================================================== *)

Lemma SFcompare_antisym (x y : spec_float) :
  SFcompare y x = option_map CompOpp (SFcompare x y).
Proof.
  destruct x as [sx|sx| |sx mx ex], y as [sy|sy| |sy my ey]; simpl;
    try reflexivity; try (destruct sx; reflexivity); try (destruct sy; reflexivity);
    try (destruct sx, sy; reflexivity).
  f_equal.
  destruct sx, sy; try reflexivity;
    rewrite (Z.compare_antisym ex ey);
    destruct (ex ?= ey)%Z; simpl; try reflexivity;
    fold (Pos.compare my mx); fold (Pos.compare mx my);
    rewrite (Pos.compare_antisym mx my);
    rewrite ?CompOpp_involutive; reflexivity.
Qed.

Lemma float_ltb_leb (a b : float) :
  (a <? b)%float = true -> (b <=? a)%float = false.
Proof.
  rewrite ltb_spec, leb_spec. unfold SFltb, SFleb.
  rewrite (SFcompare_antisym (Prim2SF a) (Prim2SF b)).
  destruct (SFcompare (Prim2SF a) (Prim2SF b)) as [[]|]; simpl; congruence.
Qed.

Lemma float_leb_ltb (a b : float) :
  (a <=? b)%float = true -> (b <? a)%float = false.
Proof.
  rewrite ltb_spec, leb_spec. unfold SFltb, SFleb.
  rewrite (SFcompare_antisym (Prim2SF a) (Prim2SF b)).
  destruct (SFcompare (Prim2SF a) (Prim2SF b)) as [[]|]; simpl; congruence.
Qed.

(** The comparison of two finite numbers of one sign is lexicographic, on
    the exponent and then the mantissa. *)
Lemma lex_compare_trans (e1 e2 e3 : Z) (m1 m2 m3 : positive) (r : comparison) :
  match (e1 ?= e2)%Z with Eq => Pos.compare m1 m2 | Lt => Lt | Gt => Gt end = r ->
  match (e2 ?= e3)%Z with Eq => Pos.compare m2 m3 | Lt => Lt | Gt => Gt end = r ->
  match (e1 ?= e3)%Z with Eq => Pos.compare m1 m3 | Lt => Lt | Gt => Gt end = r.
Proof.
  destruct (Z.compare_spec e1 e2), (Z.compare_spec e2 e3), (Z.compare_spec e1 e3);
    try lia; try congruence; subst;
    destruct (Pos.compare_spec m1 m2), (Pos.compare_spec m2 m3),
      (Pos.compare_spec m1 m3); try lia; congruence.
Qed.

Lemma lex_compare_opp_trans (e1 e2 e3 : Z) (m1 m2 m3 : positive) (r : comparison) :
  match (e1 ?= e2)%Z with Eq => CompOpp (Pos.compare m1 m2) | Lt => Gt | Gt => Lt end = r ->
  match (e2 ?= e3)%Z with Eq => CompOpp (Pos.compare m2 m3) | Lt => Gt | Gt => Lt end = r ->
  match (e1 ?= e3)%Z with Eq => CompOpp (Pos.compare m1 m3) | Lt => Gt | Gt => Lt end = r.
Proof.
  destruct (Z.compare_spec e1 e2), (Z.compare_spec e2 e3), (Z.compare_spec e1 e3);
    try lia; try congruence; subst;
    destruct (Pos.compare_spec m1 m2), (Pos.compare_spec m2 m3),
      (Pos.compare_spec m1 m3); simpl; try lia; congruence.
Qed.

Lemma lex_compare_eq (e1 e2 : Z) (m1 m2 : positive) :
  match (e1 ?= e2)%Z with Eq => Pos.compare m1 m2 | Lt => Lt | Gt => Gt end = Eq ->
  e1 = e2 /\ m1 = m2.
Proof.
  destruct (Z.compare_spec e1 e2); try discriminate.
  destruct (Pos.compare_spec m1 m2); try discriminate. auto.
Qed.

Lemma lex_compare_opp_eq (e1 e2 : Z) (m1 m2 : positive) :
  match (e1 ?= e2)%Z with Eq => CompOpp (Pos.compare m1 m2) | Lt => Gt | Gt => Lt end = Eq ->
  e1 = e2 /\ m1 = m2.
Proof.
  destruct (Z.compare_spec e1 e2); try discriminate.
  destruct (Pos.compare_spec m1 m2); try discriminate. auto.
Qed.

(** [SFcompare] is transitive. *)
Lemma SFcompare_trans (a b c : spec_float) (r : comparison) :
  SFcompare a b = Some r -> SFcompare b c = Some r -> SFcompare a c = Some r.
Proof.
  destruct a as [[]|[]| |[] m1 e1], b as [[]|[]| |[] m2 e2], c as [[]|[]| |[] m3 e3];
    simpl; try congruence;
    change (PosDef.Pos.compare_cont Eq) with Pos.compare;
    intros H1 H2; injection H1 as H1; injection H2 as H2; f_equal.
  - exact (lex_compare_opp_trans _ _ _ _ _ _ _ H1 H2).
  - exact (lex_compare_trans _ _ _ _ _ _ _ H1 H2).
Qed.

(** Equal numbers compare alike with a third. *)
Lemma SFcompare_eq_l (a b c : spec_float) (r : comparison) :
  SFcompare a b = Some Eq -> SFcompare b c = Some r -> SFcompare a c = Some r.
Proof.
  destruct a as [[]|[]| |[] m1 e1], b as [[]|[]| |[] m2 e2]; simpl; try congruence;
    change (PosDef.Pos.compare_cont Eq) with Pos.compare;
    intros H1;
    try (apply (f_equal (from_option id Eq)) in H1; cbn [from_option id] in H1;
         first [apply lex_compare_opp_eq in H1 as [-> ->]
               |apply lex_compare_eq in H1 as [-> ->]]);
    destruct c as [[]|[]| |[] m3 e3]; simpl; congruence.
Qed.

Lemma SFcompare_eq_r (a b c : spec_float) (r : comparison) :
  SFcompare a b = Some r -> SFcompare b c = Some Eq -> SFcompare a c = Some r.
Proof.
  intros H1 H2.
  destruct b as [[]|[]| |[] m2 e2], c as [[]|[]| |[] m3 e3]; simpl in H2; try congruence;
    change (PosDef.Pos.compare_cont Eq) with Pos.compare in H2;
    try (apply (f_equal (from_option id Eq)) in H2; cbn [from_option id] in H2;
         first [apply lex_compare_opp_eq in H2 as [-> ->]
               |apply lex_compare_eq in H2 as [-> ->]]);
    destruct a as [[]|[]| |[] m1 e1]; simpl in *; congruence.
Qed.

(** Two numbers that are not nan compare. *)
Lemma is_nan_false (v : float) : is_nan v = false <-> Prim2SF v <> S754_nan.
Proof.
  unfold is_nan. rewrite FloatAxioms.eqb_spec. unfold SFeqb.
  destruct (Prim2SF v) as [[]|[]| |[] m e]; simpl;
    change (PosDef.Pos.compare_cont Eq) with Pos.compare;
    rewrite ?Z.compare_refl, ?Pos.compare_refl; simpl; split; congruence.
Qed.

Lemma SFcompare_total (a b : spec_float) :
  a <> S754_nan -> b <> S754_nan -> exists r, SFcompare a b = Some r.
Proof.
  destruct a as [[]|[]| |[] m1 e1], b as [[]|[]| |[] m2 e2]; simpl; intros; try congruence; eauto.
Qed.

Lemma SFcompare_refl (a : spec_float) : a <> S754_nan -> SFcompare a a = Some Eq.
Proof.
  destruct a as [[]|[]| |[] m e]; simpl; intros; try congruence;
    change (PosDef.Pos.compare_cont Eq) with Pos.compare;
    rewrite ?Z.compare_refl, ?Pos.compare_refl; reflexivity.
Qed.

Lemma float_leb_refl (a : float) : is_nan a = false -> (a <=? a)%float = true.
Proof.
  intros H. rewrite FloatAxioms.leb_spec. unfold SFleb.
  rewrite SFcompare_refl by (apply is_nan_false; exact H). reflexivity.
Qed.

Lemma float_leb_trans (a b c : float) :
  (a <=? b)%float = true -> (b <=? c)%float = true -> (a <=? c)%float = true.
Proof.
  rewrite !FloatAxioms.leb_spec. unfold SFleb. intros H1 H2.
  destruct (SFcompare (Prim2SF a) (Prim2SF b)) as [[]|] eqn:E1; try discriminate;
    destruct (SFcompare (Prim2SF b) (Prim2SF c)) as [[]|] eqn:E2; try discriminate.
  - rewrite (SFcompare_eq_l _ _ _ _ E1 E2). reflexivity.
  - rewrite (SFcompare_eq_l _ _ _ _ E1 E2). reflexivity.
  - rewrite (SFcompare_eq_r _ _ _ _ E1 E2). reflexivity.
  - rewrite (SFcompare_trans _ _ _ _ E1 E2). reflexivity.
Qed.

Lemma float_leb_ltb_trans (a b c : float) :
  (a <=? b)%float = true -> (b <? c)%float = true -> (a <? c)%float = true.
Proof.
  rewrite FloatAxioms.leb_spec, !FloatAxioms.ltb_spec. unfold SFleb, SFltb. intros H1 H2.
  destruct (SFcompare (Prim2SF a) (Prim2SF b)) as [[]|] eqn:E1; try discriminate;
    destruct (SFcompare (Prim2SF b) (Prim2SF c)) as [[]|] eqn:E2; try discriminate.
  - rewrite (SFcompare_eq_l _ _ _ _ E1 E2). reflexivity.
  - rewrite (SFcompare_trans _ _ _ _ E1 E2). reflexivity.
Qed.

Lemma float_ltb_leb_trans (a b c : float) :
  (a <? b)%float = true -> (b <=? c)%float = true -> (a <? c)%float = true.
Proof.
  rewrite FloatAxioms.leb_spec, !FloatAxioms.ltb_spec. unfold SFleb, SFltb. intros H1 H2.
  destruct (SFcompare (Prim2SF a) (Prim2SF b)) as [[]|] eqn:E1; try discriminate;
    destruct (SFcompare (Prim2SF b) (Prim2SF c)) as [[]|] eqn:E2; try discriminate.
  - rewrite (SFcompare_eq_r _ _ _ _ E1 E2). reflexivity.
  - rewrite (SFcompare_trans _ _ _ _ E1 E2). reflexivity.
Qed.

(** Of two numbers that are not nan, one is below the other or the other
    is at most the one. *)
Lemma float_ltb_false_leb (a b : float) :
  is_nan a = false -> is_nan b = false ->
  (a <? b)%float = false -> (b <=? a)%float = true.
Proof.
  intros Ha Hb. rewrite FloatAxioms.ltb_spec, FloatAxioms.leb_spec. unfold SFltb, SFleb.
  rewrite (SFcompare_antisym (Prim2SF a) (Prim2SF b)).
  destruct (SFcompare_total (Prim2SF a) (Prim2SF b)) as [r ->];
    [apply is_nan_false; exact Ha | apply is_nan_false; exact Hb |].
  destruct r; simpl; congruence.
Qed.

Lemma float_ltb_leb_weak (a b : float) :
  (a <? b)%float = true -> (a <=? b)%float = true.
Proof.
  rewrite FloatAxioms.ltb_spec, FloatAxioms.leb_spec. unfold SFltb, SFleb.
  destruct (SFcompare (Prim2SF a) (Prim2SF b)) as [[]|]; congruence.
Qed.

(* ===================================================================== *)
(** ** CCT to xy: the branch of the CIE D series formula *)
(* ===================================================================== *)

Section CCT_facts.
Variable npy_pow : float -> float -> float.
Local Open Scope float_scope.

Lemma x_low_temperature_map (CCT : list float) :
  x_low_temperature npy_pow CCT = map (x_low npy_pow) CCT.
Proof.
  induction CCT as [|c CCT IH]; [reflexivity|].
  cbn -[PrimFloat.add PrimFloat.mul PrimFloat.div]. f_equal. exact IH.
Qed.

Lemma x_high_temperature_map (CCT : list float) :
  x_high_temperature npy_pow CCT = map (x_high npy_pow) CCT.
Proof.
  induction CCT as [|c CCT IH]; [reflexivity|].
  cbn -[PrimFloat.add PrimFloat.mul PrimFloat.div]. f_equal. exact IH.
Qed.

Lemma np_where_map {X T} (c : X -> bool) (f g : X -> T) (l : list X) :
  np_where (map c l) (map f l) (map g l)
  = map (fun v => if c v then f v else g v) l.
Proof. induction l as [|v l IH]; simpl; [reflexivity|]. f_equal. exact IH. Qed.

(** C5.  For every array of temperatures, the [x] of each temperature
    [c] is the cubic polynomial in [1 / c] of its own range: with
    [c <= 7000] (so from 4000 K to 7000 K, bounds included) the
    low-temperature polynomial
    [-4.607e9 / c^3 + 2.9678e6 / c^2 + 0.09911e3 / c + 0.244063],
    with [c > 7000] the high-temperature polynomial
    [-2.0064e9 / c^3 + 1.9018e6 / c^2 + 0.24748e3 / c + 0.23704];
    7000 K itself takes the low-temperature polynomial.  The choice is
    made temperature by temperature, also in an array that mixes the two
    ranges. *)
Theorem CCT_to_xy_CIE_D_branch (CCT : ndarray float) :
  CCT_x npy_pow CCT
  = map (fun c =>
           if c <=? 7000
           then -4.607 * 1e9 / npy_pow c 3 + 2.9678 * 1e6 / (c * c)
                + 0.09911 * 1e3 / c + 0.244063
           else -2.0064 * 1e9 / npy_pow c 3 + 1.9018 * 1e6 / (c * c)
                + 0.24748 * 1e3 / c + 0.23704)
        (data CCT) /\
  (forall i c, data CCT !! i = Some c ->
     (float_le 4000 c -> float_le c 7000 ->
        CCT_x npy_pow CCT !! i = Some (x_low npy_pow c)) /\
     (float_lt 7000 c ->
        CCT_x npy_pow CCT !! i = Some (x_high npy_pow c))) /\
  CCT_x npy_pow (NDArray [] [7000]) = [x_low npy_pow 7000].
Proof.
  assert (E : CCT_x npy_pow CCT
              = map (fun c => if c <=? 7000 then x_low npy_pow c else x_high npy_pow c)
                    (data CCT)).
  { unfold CCT_x, CCT_to_xy_CIE_D_vectorise. cbn [snd].
    rewrite x_low_temperature_map, x_high_temperature_map.
    unfold np_le_scalar. rewrite np_where_map.
    apply fst_zip.
    unfold np_square, scalar_l, scalar_r, np_add.
    rewrite !List.length_map, length_zip_with, !List.length_map. lia. }
  split; [exact E|]. split.
  - intros i c Hc. rewrite E, list_lookup_fmap, Hc. cbn [fmap option_fmap option_map].
    split.
    + intros _ Hle. unfold float_le in Hle. rewrite Hle. reflexivity.
    + intros Hlt. rewrite (float_ltb_leb _ _ Hlt). reflexivity.
  - reflexivity.
Qed.
End CCT_facts.

Lemma CCT_to_xy_CIE_D_branch_sample :
  CCT_x pow_by_products (array1 [4000; 25000; 7000; 7000.5]%float) !! 0%nat
    = Some (x_low pow_by_products 4000%float) /\
  CCT_x pow_by_products (array1 [4000; 25000; 7000; 7000.5]%float) !! 1%nat
    = Some (x_high pow_by_products 25000%float) /\
  CCT_x pow_by_products (array1 [4000; 25000; 7000; 7000.5]%float) !! 2%nat
    = Some (x_low pow_by_products 7000%float) /\
  CCT_x pow_by_products (array1 [4000; 25000; 7000; 7000.5]%float) !! 3%nat
    = Some (x_high pow_by_products 7000.5%float).
Proof.
  pose proof (proj1 (proj2 (CCT_to_xy_CIE_D_branch pow_by_products
                              (array1 [4000; 25000; 7000; 7000.5]%float)))) as H.
  split; [|split; [|split]].
  - apply (H 0%nat 4000%float); reflexivity.
  - apply (H 1%nat 25000%float); reflexivity.
  - apply (H 2%nat 7000%float); reflexivity.
  - apply (H 3%nat 7000.5%float); reflexivity.
Defined.

(* ===================================================================== *)
(** ** The von Kries adaptation matrix *)
(* ===================================================================== *)

Lemma elem_of_cim_keys {V} (m : gmap string V) (k : string) :
  k ∈ cim_keys m <-> is_Some (m !! k).
Proof.
  unfold cim_keys. rewrite list_elem_of_fmap. split.
  - intros [[k' v] [-> Hkv]]. apply elem_of_map_to_list in Hkv. simpl. eauto.
  - intros [v Hv]. exists (k, v). split; [reflexivity|].
    apply elem_of_map_to_list. exact Hv.
Qed.

Lemma broadcast_rows_returns {X Y Z} (f : X -> Y -> Z) (a : list X) (b : list Y) :
  length a = length b \/ length a = 1 \/ length b = 1 ->
  exists c, broadcast_rows f a b = Ok c.
Proof.
  intros H. unfold broadcast_rows. case_bool_decide as E; [eauto|].
  destruct H as [H|[H|H]]; [contradiction| |].
  - destruct a as [|x [|? ?]]; try discriminate. eauto.
  - destruct b as [|y [|? ?]]; try discriminate.
    destruct a as [|x [|x' a]]; eauto.
Qed.

Section VonKries_facts.
Context {A : Arith}.
Variable reg : gmap string (mat3 A).

Lemma np_dot_transpose (a : list (vec3 A)) (M : mat3 A) :
  np_dot a (np_transpose M) = map (mat_vec M) a.
Proof. destruct M as [[[[a0 a1] a2] [[b0 b1] b2]] [[c0 c1] c2]]. reflexivity. Qed.

Lemma chromatic_adaptation_matrix_single
    (transform : string) (M M_inv : mat3 A) (w wr : vec3 A) :
  cim_get reg transform = Some M ->
  np_linalg_inv M = Ok M_inv ->
  chromatic_adaptation_matrix_VonKries_vectorise
    reg (array_of_vec3 w) (array_of_vec3 wr) transform
  = Ok (Matrix (von_kries M M_inv w wr)).
Proof.
  intros Hreg Hinv. unfold chromatic_adaptation_matrix_VonKries_vectorise.
  rewrite Hreg.
  destruct w as [[w0 w1] w2], wr as [[r0 r1] r2].
  change (as_array3 (array_of_vec3 (w0, w1, w2)))
    with (Ok [(w0, w1, w2)] : result (list (vec3 A))).
  change (as_array3 (array_of_vec3 (r0, r1, r2)))
    with (Ok [(r0, r1, r2)] : result (list (vec3 A))).
  cbn [mbind result_bind]. rewrite !np_dot_transpose.
  cbn [map broadcast_rows length bool_decide decide_rel]. 
  change (broadcast_rows vec_div [mat_vec M (r0, r1, r2)] [mat_vec M (w0, w1, w2)])
    with (Ok [vec_div (mat_vec M (r0, r1, r2)) (mat_vec M (w0, w1, w2))]
          : result (list (vec3 A))).
  cbn [mbind result_bind]. rewrite Hinv. reflexivity.
Qed.

(** C7.  A name that is not registered raises the [KeyError] whose text
    carries the name and the registered keys, whatever the two arrays are
    (malformed ones included: the lookup comes first).  A registered name
    never raises that error, and with whites of shape [(.., 3)] that
    broadcast and a cone matrix that [np.linalg.inv] accepts the call
    returns. *)
Theorem chromatic_adaptation_unknown_transform
    (transform : string) (XYZ_w XYZ_wr : ndarray A) :
  (cim_get reg transform = None ->
     chromatic_adaptation_matrix_VonKries_vectorise reg XYZ_w XYZ_wr transform
     = Raise (KeyError (msg_transform_undefined transform (cim_keys reg)))) /\
  (forall k, k ∈ cim_keys reg <-> is_Some (reg !! k)) /\
  (forall M, cim_get reg transform = Some M ->
     (forall m, chromatic_adaptation_matrix_VonKries_vectorise
                  reg XYZ_w XYZ_wr transform <> Raise (KeyError m)) /\
     (forall n k M_inv,
        length (data XYZ_w) = 3 * n -> length (data XYZ_wr) = 3 * k ->
        n = k \/ n = 1 \/ k = 1 ->
        np_linalg_inv M = Ok M_inv ->
        returns (chromatic_adaptation_matrix_VonKries_vectorise
                   reg XYZ_w XYZ_wr transform))).
Proof.
  split; [|split].
  - intros Hreg. unfold chromatic_adaptation_matrix_VonKries_vectorise.
    rewrite Hreg. reflexivity.
  - apply elem_of_cim_keys.
  - intros M Hreg. unfold chromatic_adaptation_matrix_VonKries_vectorise.
    rewrite Hreg. split.
    + intros m.
      unfold as_array3, np_reshape.
      destruct (resolve_shape (length (data XYZ_w)) _); [|discriminate].
      destruct (resolve_shape (length (data XYZ_wr)) _); [|discriminate].
      cbn [mbind result_bind data].
      unfold broadcast_rows. case_bool_decide.
      * cbn [mbind result_bind].
        destruct (np_linalg_inv M) eqn:E; [discriminate|].
        cbn [mbind result_bind].
        destruct M as [[[[a0 a1] a2] [[b0 b1] b2]] [[c0 c1] c2]].
        unfold np_linalg_inv in E. destruct (eqb _ _) in E; [|discriminate].
        injection E as <-. discriminate.
      * destruct (np_dot (rows3 (data XYZ_wr)) _) as [|? [|? ?]],
          (np_dot (rows3 (data XYZ_w)) _) as [|? [|? ?]];
          cbn [mbind result_bind]; try discriminate;
          (destruct (np_linalg_inv M) eqn:E; [discriminate|];
           cbn [mbind result_bind];
           destruct M as [[[[a0 a1] a2] [[b0 b1] b2]] [[c0 c1] c2]];
           unfold np_linalg_inv in E; destruct (eqb _ _) in E; [|discriminate];
           injection E as <-; discriminate).
    + intros n k M_inv Hn Hk Hnk Hinv.
      rewrite (as_array3_ok _ n Hn), (as_array3_ok _ k Hk).
      cbn [mbind result_bind]. rewrite !np_dot_transpose.
      destruct (broadcast_rows_returns vec_div
                  (map (mat_vec M) (rows3 (data XYZ_wr)))
                  (map (mat_vec M) (rows3 (data XYZ_w)))) as (D & ->).
      { rewrite !List.length_map.
        pose proof (length_rows3 k _ Hk). pose proof (length_rows3 n _ Hn).
        lia. }
      cbn [mbind result_bind]. rewrite Hinv. exact I.
Qed.
End VonKries_facts.

(** On the example table: "Sharp" is not registered, "bradford" is (names
    are case-insensitive), and an unregistered name is reported before the
    malformed white array is looked at. *)
Lemma chromatic_adaptation_unknown_transform_sample :
  chromatic_adaptation_matrix_VonKries_vectorise
    transforms_example (array1 [1; 2]%float) (array1 [1; 1; 1]%float) "Sharp"
    = Raise (KeyError (msg_transform_undefined "Sharp" (cim_keys transforms_example))) /\
  returns (chromatic_adaptation_matrix_VonKries_vectorise
             transforms_example (array1 [1.09846607; 1; 0.3558228]%float)
             (array1 [0.95042855; 1; 1.08890037]%float) "bradford") /\
  raises (chromatic_adaptation_matrix_VonKries_vectorise
            transforms_example (array1 [1; 2]%float) (array1 [1; 1; 1]%float)
            "Bradford").
Proof.
  split; [|split].
  - apply (chromatic_adaptation_unknown_transform (A:=binary64)). reflexivity.
  - destruct (chromatic_adaptation_unknown_transform (A:=binary64)
                transforms_example "bradford"
                (array1 [1.09846607; 1; 0.3558228]%float)
                (array1 [0.95042855; 1; 1.08890037]%float)) as (_ & _ & H).
    destruct (H BRADFORD_CAT eq_refl) as [_ Hret].
    destruct (np_linalg_inv (A:=binary64) BRADFORD_CAT) as [M_inv|e] eqn:E;
      [|vm_compute in E; discriminate].
    apply (Hret 1 1 M_inv); [reflexivity | reflexivity | left; reflexivity | reflexivity].
  - vm_compute. exact I.
Defined.

(* ===================================================================== *)
(** ** XYZ <-> RGB: rows and shapes *)
(* ===================================================================== *)

Section RGB_facts.
Context {A : Arith}.
Variable reg : gmap string (mat3 A).

Lemma XYZ_to_RGB_vectorise_rows
    (XYZ : ndarray A) (n : nat) (W1 W2 : A * A) (M_RGB : mat3 A)
    (transform : string) (f : option (A -> A)) (M M_inv : mat3 A) :
  length (data XYZ) = 3 * n ->
  cim_get reg transform = Some M ->
  np_linalg_inv M = Ok M_inv ->
  XYZ_to_RGB_vectorise reg XYZ (array1 [W1.1; W1.2]) (array1 [W2.1; W2.2])
                       M_RGB transform f
  = np_reshape
      (ravel3 (apply_transfer f
         (map (mat_vec M_RGB)
            (map (mat_vec (von_kries M M_inv (white W1) (white W2)))
                 (rows3 (data XYZ))))))
      (map Z.of_nat (shape XYZ)).
Proof.
  intros Hn Hreg Hinv. unfold XYZ_to_RGB_vectorise.
  rewrite (as_array3_ok _ n Hn). cbn [mbind result_bind].
  rewrite !xy_to_XYZ_vectorise_single. cbn [mbind result_bind].
  rewrite (chromatic_adaptation_matrix_single reg transform M M_inv) by assumption.
  reflexivity.
Qed.

Lemma RGB_to_XYZ_vectorise_rows
    (RGB : ndarray A) (n : nat) (W1 W2 : A * A) (M_XYZ : mat3 A)
    (transform : string) (f : option (A -> A)) (M M_inv : mat3 A) :
  length (data RGB) = 3 * n ->
  cim_get reg transform = Some M ->
  np_linalg_inv M = Ok M_inv ->
  RGB_to_XYZ_vectorise reg RGB (array1 [W1.1; W1.2]) (array1 [W2.1; W2.2])
                       M_XYZ transform f
  = np_reshape
      (ravel3 (map (mat_vec (von_kries M M_inv (white W1) (white W2)))
                 (map (mat_vec M_XYZ)
                    (apply_transfer f (rows3 (data RGB))))))
      (map Z.of_nat (shape RGB)).
Proof.
  intros Hn Hreg Hinv. unfold RGB_to_XYZ_vectorise.
  rewrite (as_array3_ok _ n Hn). cbn [mbind result_bind einsum_vM].
  rewrite !xy_to_XYZ_vectorise_single. cbn [mbind result_bind].
  rewrite (chromatic_adaptation_matrix_single reg transform M M_inv) by assumption.
  reflexivity.
Qed.

Lemma length_apply_transfer (f : option (A -> A)) (a : list (vec3 A)) :
  length (apply_transfer f a) = length a.
Proof. destruct f; simpl; [apply List.length_map | reflexivity]. Qed.

(** Reshaping [n] rows of three back to a shape of size [3 n]. *)
Lemma np_reshape_rows (s : list nat) (rows : list (vec3 A)) :
  size_of s = 3 * length rows ->
  exists y, np_reshape (ravel3 rows) (map Z.of_nat s) = Ok y /\
            shape y = s /\ wf y.
Proof.
  intros Hs. exists (NDArray s (ravel3 rows)).
  assert (Hl : length (ravel3 rows) = size_of s)
    by (rewrite length_ravel3; symmetry; exact Hs).
  split; [apply np_reshape_explicit, Hl | split; [reflexivity | exact Hl]].
Qed.

Lemma XYZ_to_RGB_vectorise_shape
    (XYZ : ndarray A) (W1 W2 : A * A) (M_RGB : mat3 A)
    (transform : string) (f : option (A -> A)) (M M_inv : mat3 A) :
  wf XYZ -> last (shape XYZ) = Some 3 ->
  cim_get reg transform = Some M ->
  np_linalg_inv M = Ok M_inv ->
  exists RGB,
    XYZ_to_RGB_vectorise reg XYZ (array1 [W1.1; W1.2]) (array1 [W2.1; W2.2])
                         M_RGB transform f = Ok RGB /\
    shape RGB = shape XYZ /\ wf RGB.
Proof.
  intros Hwf Hlast Hreg Hinv. unfold wf in Hwf.
  pose proof (size_of_last3 _ Hlast) as Hsz. rewrite Hsz in Hwf.
  set (n := size_of (removelast (shape XYZ))) in *.
  rewrite (XYZ_to_RGB_vectorise_rows XYZ n W1 W2 M_RGB transform f M M_inv)
    by assumption.
  apply np_reshape_rows.
  rewrite length_apply_transfer, !List.length_map, (length_rows3 n _ Hwf).
  exact Hsz.
Qed.

Lemma RGB_to_XYZ_vectorise_shape
    (RGB : ndarray A) (W1 W2 : A * A) (M_XYZ : mat3 A)
    (transform : string) (f : option (A -> A)) (M M_inv : mat3 A) :
  wf RGB -> last (shape RGB) = Some 3 ->
  cim_get reg transform = Some M ->
  np_linalg_inv M = Ok M_inv ->
  exists XYZ,
    RGB_to_XYZ_vectorise reg RGB (array1 [W1.1; W1.2]) (array1 [W2.1; W2.2])
                         M_XYZ transform f = Ok XYZ /\
    shape XYZ = shape RGB /\ wf XYZ.
Proof.
  intros Hwf Hlast Hreg Hinv. unfold wf in Hwf.
  pose proof (size_of_last3 _ Hlast) as Hsz. rewrite Hsz in Hwf.
  set (n := size_of (removelast (shape RGB))) in *.
  rewrite (RGB_to_XYZ_vectorise_rows RGB n W1 W2 M_XYZ transform f M M_inv)
    by assumption.
  apply np_reshape_rows.
  rewrite !List.length_map, length_apply_transfer, (length_rows3 n _ Hwf).
  exact Hsz.
Qed.
End RGB_facts.

Lemma length_np_where {T} (c : list bool) : forall a b : list T,
  length (np_where c a b)
  = Nat.min (length c) (Nat.min (length a) (length b)).
Proof.
  induction c as [|t c IH]; intros [|x a] [|y b]; simpl; try reflexivity.
  rewrite IH. reflexivity.
Qed.

Lemma length_dstack3 {T} (a : list T) : forall b c : list T,
  length (dstack3 a b c)
  = Nat.min (length a) (Nat.min (length b) (length c)).
Proof.
  induction a as [|x a IH]; intros [|y b] [|z c]; simpl; try reflexivity.
  rewrite IH. reflexivity.
Qed.

Lemma length_np_resize {T} (fill : T) (a : list T) (n : nat) :
  length (np_resize fill a n) = n.
Proof. unfold np_resize. rewrite List.length_map, length_seq. reflexivity. Qed.

Lemma Lab_to_XYZ_vectorise_shape
    (npy_pow : float -> float -> float) (CIE_E CIE_K : float)
    (Lab : ndarray float) (ix iy : float) :
  wf Lab -> last (shape Lab) = Some 3 ->
  exists XYZ,
    Lab_to_XYZ_vectorise npy_pow CIE_E CIE_K Lab (array1 [ix; iy]) = Ok XYZ /\
    shape XYZ = shape Lab /\ wf XYZ.
Proof.
  intros Hwf Hlast. unfold wf in Hwf.
  pose proof (size_of_last3 _ Hlast) as Hsz. rewrite Hsz in Hwf.
  set (n := size_of (removelast (shape Lab))) in *.
  unfold Lab_to_XYZ_vectorise.
  rewrite (as_array3_ok _ n Hwf). cbn [mbind result_bind].
  rewrite (xy_to_XYZ_vectorise_single (A:=binary64)). cbn [mbind result_bind].
  pose proof (length_rows3 n _ Hwf) as Hrows.
  change (num binary64) with float in *. rewrite Hrows.
  match goal with |- context [rows3 (np_resize ?z ?a ?k)] =>
    pose proof (length_rows3 n (np_resize z a k) (length_np_resize z a k)) as Hres
  end.
  assert (Hlen : forall l : list (vec3 float),
            length l = n -> length (ravel3 l) = size_of (shape Lab)).
  { intros l Hl. rewrite length_ravel3, Hl, Hsz. reflexivity. }
  eexists. split; [apply np_reshape_explicit | split; [reflexivity|]].
  - apply Hlen.
    rewrite length_zip_with, length_dstack3, !length_np_where, Hres.
    unfold np_gt_scalar, np_power, scalar_l, scalar_r, np_add, np_sub, col0, col1, col2.
    rewrite ?List.length_map, ?length_zip_with, ?List.length_map, Hrows. lia.
  - unfold wf. cbn [data shape]. apply Hlen.
    rewrite length_zip_with, length_dstack3, !length_np_where, Hres.
    unfold np_gt_scalar, np_power, scalar_l, scalar_r, np_add, np_sub, col0, col1, col2.
    rewrite ?List.length_map, ?length_zip_with, ?List.length_map, Hrows. lia.
Qed.

(** The transforms between XYZ, RGB and Lab reshape their result to the
    shape of the input: applied to an array whose last axis is the channel
    axis (3) they return an array of the same shape, rank 1
    [(3,)], rank 2 [(N, 3)], rank 3 [(H, W, 3)] and every higher rank.  The
    whites are [xy] pairs, the transform is registered with a cone matrix
    that [np.linalg.inv] accepts, and a transfer function, if any, acts on
    each element. *)
Theorem shape_preservation
    (reg : gmap string (mat3 float)) (transform : string) (M M_inv M_RGB : mat3 float)
    (f : option (float -> float)) (W1 W2 : float * float)
    (npy_pow : float -> float -> float) (CIE_E CIE_K : float)
    (x : ndarray float) :
  wf x -> last (shape x) = Some 3 ->
  cim_get reg transform = Some M ->
  np_linalg_inv (A:=binary64) M = Ok M_inv ->
  (exists y, XYZ_to_RGB_vectorise (A:=binary64) reg x (array1 [W1.1; W1.2])
               (array1 [W2.1; W2.2]) M_RGB transform f = Ok y /\
             shape y = shape x /\ wf y) /\
  (exists y, RGB_to_XYZ_vectorise (A:=binary64) reg x (array1 [W1.1; W1.2])
               (array1 [W2.1; W2.2]) M_RGB transform f = Ok y /\
             shape y = shape x /\ wf y) /\
  (exists y, Lab_to_XYZ_vectorise npy_pow CIE_E CIE_K x (array1 [W1.1; W1.2]) = Ok y /\
             shape y = shape x /\ wf y).
Proof.
  intros Hwf Hlast Hreg Hinv. split; [|split].
  - apply (XYZ_to_RGB_vectorise_shape (A:=binary64) reg x W1 W2 M_RGB transform f
             M M_inv); assumption.
  - apply (RGB_to_XYZ_vectorise_shape (A:=binary64) reg x W1 W2 M_RGB transform f
             M M_inv); assumption.
  - apply Lab_to_XYZ_vectorise_shape; assumption.
Qed.

(* ===================================================================== *)
(** ** XYZ -> RGB -> XYZ round trip *)
(* ===================================================================== *)

Section Exact_roundtrip.
Local Open Scope Qc_scope.
Implicit Types (P Q R : mat3 Qc) (u v w : vec3 Qc).

Ltac exact_arith := cbn [num zero one add sub mul div eqb exact] in *.
Ltac pair_eq :=
  repeat match goal with |- (_, _) = (_, _) => apply (f_equal2 pair) end.
Ltac mat_destruct :=
  repeat match goal with M : (_ * _)%type |- _ => destruct M end.
Ltac mat_unfold :=
  unfold mat_vec, mat_mul, dot3, np_transpose, identity3, diagonal, vec_div,
         det3 in *; exact_arith.

Lemma mat_vec_mat_mul P Q v :
  mat_vec (A:=exact) P (mat_vec (A:=exact) Q v)
  = mat_vec (A:=exact) (mat_mul (A:=exact) P Q) v.
Proof. mat_destruct. mat_unfold. pair_eq; ring. Qed.

Lemma mat_mul_assoc P Q R :
  mat_mul (A:=exact) (mat_mul (A:=exact) P Q) R
  = mat_mul (A:=exact) P (mat_mul (A:=exact) Q R).
Proof. mat_destruct. mat_unfold. pair_eq; ring. Qed.

Lemma mat_mul_identity_l P : mat_mul (A:=exact) identity3 P = P.
Proof. mat_destruct. mat_unfold. pair_eq; ring. Qed.

Lemma mat_vec_identity v : mat_vec (A:=exact) identity3 v = v.
Proof. mat_destruct. mat_unfold. pair_eq; ring. Qed.

(** Over the rationals the model of [np.linalg.inv] returns the inverse. *)
Lemma np_linalg_inv_exact P Pi :
  np_linalg_inv (A:=exact) P = Ok Pi ->
  mat_mul (A:=exact) Pi P = identity3 /\ mat_mul (A:=exact) P Pi = identity3.
Proof.
  mat_destruct. unfold np_linalg_inv.
  set (dt := det3 (A:=exact) _). intros H.
  destruct (@eqb exact dt zero) eqn:E; [discriminate|].
  injection H as <- <- <- <- <- <- <- <- <-.
  exact_arith. apply bool_decide_eq_false in E.
  subst dt. mat_unfold.
  split; pair_eq; field; exact E.
Qed.

Lemma np_linalg_inv_returns P :
  det3 (A:=exact) P <> 0 -> exists Pi, np_linalg_inv (A:=exact) P = Ok Pi.
Proof.
  intros Hd. mat_destruct. unfold np_linalg_inv.
  set (dt := det3 (A:=exact) _) in *.
  destruct (@eqb exact dt zero) eqn:E; [|eauto].
  exact_arith. apply bool_decide_eq_true in E. contradiction.
Qed.

(** The two diagonal ratio matrices of opposite directions cancel. *)
Lemma diagonal_ratio_cancel u v :
  nonzero3 u -> nonzero3 v ->
  mat_mul (A:=exact) (diagonal (vec_div u v)) (diagonal (vec_div v u)) = identity3.
Proof.
  destruct u as [[u0 u1] u2], v as [[v0 v1] v2].
  intros (Hu0 & Hu1 & Hu2) (Hv0 & Hv1 & Hv2). simpl in *.
  mat_unfold. pair_eq; field; auto.
Qed.

(** Adapting from [w] to [wr] and back is the identity. *)
Lemma von_kries_cancel P Pi w wr :
  mat_mul (A:=exact) Pi P = identity3 ->
  mat_mul (A:=exact) P Pi = identity3 ->
  nonzero3 (mat_vec (A:=exact) P w) -> nonzero3 (mat_vec (A:=exact) P wr) ->
  mat_mul (A:=exact) (von_kries P Pi wr w) (von_kries P Pi w wr) = identity3.
Proof.
  intros Hl Hr Hw Hwr. unfold von_kries.
  rewrite !mat_mul_assoc.
  rewrite <- (mat_mul_assoc P Pi), Hr, mat_mul_identity_l.
  rewrite <- (mat_mul_assoc (diagonal _) (diagonal _)).
  rewrite diagonal_ratio_cancel by assumption.
  rewrite mat_mul_identity_l. exact Hl.
Qed.

Variable reg : gmap string (mat3 Qc).

End Exact_roundtrip.





Lemma shape_preservation_sample :
  (exists y, XYZ_to_RGB_vectorise (A:=binary64) transforms_example image_sample
               W_D50 W_D65 M_XYZ_to_RGB "Bradford" None = Ok y /\
             shape y = [2; 2; 3] /\ wf y) /\
  (exists y, RGB_to_XYZ_vectorise (A:=binary64) transforms_example image_sample
               W_D50 W_D65 M_XYZ_to_RGB "Bradford" None = Ok y /\
             shape y = [2; 2; 3] /\ wf y) /\
  (exists y, Lab_to_XYZ_vectorise pow_by_products CIE_E_value CIE_K_value
               image_sample W_D50 = Ok y /\
             shape y = [2; 2; 3] /\ wf y).
Proof.
  apply (shape_preservation transforms_example "Bradford" BRADFORD_CAT
           BRADFORD_CAT_inverse M_XYZ_to_RGB None
           (0.34567, 0.35850)%float (0.31271, 0.32902)%float
           pow_by_products CIE_E_value CIE_K_value image_sample).
  - reflexivity.
  - reflexivity.
  - reflexivity.
  - vm_compute. reflexivity.
Defined.

Lemma length_np_add {A : Arith} (a b : list A) :
  length (np_add a b) = min (length a) (length b).
Proof. unfold np_add. apply length_zip_with. Qed.

(** [RGB_luminance_vectorise] returns one number per row of the
    [(-1, 3)] array, in a row. *)
Lemma RGB_luminance_vectorise_shape {A : Arith}
    (normalised_primary_matrix : ndarray A -> A * A -> mat3 A)
    (x primaries : ndarray A) (whitepoint : A * A) (n : nat) :
  length (data x) = 3 * n ->
  exists y, RGB_luminance_vectorise normalised_primary_matrix
              x primaries whitepoint = Ok y /\
            shape y = squeeze_shape [n] /\ length (data y) = n.
Proof.
  intros Hl. pose proof (length_rows3 _ _ Hl) as Hr.
  unfold RGB_luminance_vectorise. rewrite (as_array3_ok x _ Hl).
  cbn [mbind result_bind].
  destruct (normalised_primary_matrix primaries whitepoint)
    as [[r0 [[X Y] Z]] r2].
  cbn [fst snd]. eexists. split; [reflexivity|]. cbn [shape data].
  rewrite !length_np_add. unfold scalar_l, col0, col1, col2.
  rewrite !length_map, Hr, !Nat.min_id. split; reflexivity.
Qed.

(** C8, where the code departs from it.  On an image of shape [(H, W, 3)]
    of more than one pixel, [RGB_luminance_vectorise] and
    [IPT_hue_angle_vectorise] return an array of shape [(H * W,)]: the
    rows of [as_array(x, (-1, 3))] are never reshaped to the leading shape
    [(H, W)], as [XYZ_to_RGB_vectorise] and its siblings do. *)
Theorem scalar_transforms_flatten_image
    (normalised_primary_matrix : ndarray float -> float * float -> mat3 float)
    (npy_arctan2 : float -> float -> float)
    (primaries : ndarray float) (whitepoint : float * float)
    (x : ndarray float) (H W : nat) :
  wf x -> shape x = [H; W; 3] -> H * W <> 1 ->
  (exists y, RGB_luminance_vectorise (A:=binary64) normalised_primary_matrix
               x primaries whitepoint = Ok y /\
             shape y = [H * W] /\ wf y) /\
  (exists y, IPT_hue_angle_vectorise npy_arctan2 x = Ok y /\
             shape y = [H * W] /\ wf y) /\
  [H * W] <> removelast (shape x).
Proof.
  intros Hwf Hs Hn. unfold wf in Hwf. rewrite Hs in Hwf |- *.
  assert (Hl : length (data x) = 3 * (H * W)) by (simpl in Hwf; lia).
  pose proof (length_rows3 _ _ Hl) as Hr.
  split; [|split; [|discriminate]].
  - destruct (RGB_luminance_vectorise_shape (A:=binary64)
                normalised_primary_matrix x primaries whitepoint _ Hl)
      as (y & Ey & Hsy & Hly).
    exists y. split; [exact Ey|]. unfold wf. rewrite Hsy, Hly.
    unfold squeeze_shape. cbn [List.filter].
    destruct (H * W =? 1) eqn:E; [apply Nat.eqb_eq in E; contradiction|].
    cbn [negb size_of foldr]. split; [reflexivity | lia].
  - unfold IPT_hue_angle_vectorise. rewrite (as_array3_ok x _ Hl).
    cbn [mbind result_bind]. eexists. split; [reflexivity|].
    unfold array1, wf. cbn [shape data size_of foldr].
    rewrite length_zip_with. unfold col1, col2. rewrite !length_map, Hr.
    split; [f_equal; lia | lia].
Qed.

(** On the 2 x 2 image both functions return four numbers in a row. *)
Lemma scalar_transforms_flatten_image_sample :
  (exists y, RGB_luminance_vectorise (A:=binary64) primary_matrix_sample
               image_sample (array1 []) (0.32168, 0.33767)%float = Ok y /\
             shape y = [4] /\ wf y) /\
  (exists y, IPT_hue_angle_vectorise quotient_for_arctan2 image_sample = Ok y /\
             shape y = [4] /\ wf y) /\
  [4] <> removelast (shape image_sample).
Proof.
  apply (scalar_transforms_flatten_image primary_matrix_sample
           quotient_for_arctan2 (array1 []) (0.32168, 0.33767)%float
           image_sample 2 2).
  - reflexivity.
  - reflexivity.
  - discriminate.
Defined.

(* ===================================================================== *)
(** ** wavelength_to_XYZ: the domain check *)
(* ===================================================================== *)

Lemma fold_npy_min_elem (l : list float) : forall x,
  fold_left npy_min l x ∈ x :: l.
Proof.
  induction l as [|y l IH]; intros x; simpl; [apply list_elem_of_here|].
  specialize (IH (npy_min x y)). unfold npy_min in *.
  destruct ((x <? y)%float || is_nan x).
  - apply elem_of_cons in IH as [->|IH]; [apply list_elem_of_here|].
    do 2 apply list_elem_of_further. exact IH.
  - apply list_elem_of_further. exact IH.
Qed.

Lemma fold_npy_max_elem (l : list float) : forall x,
  fold_left npy_max l x ∈ x :: l.
Proof.
  induction l as [|y l IH]; intros x; simpl; [apply list_elem_of_here|].
  specialize (IH (npy_max x y)). unfold npy_max in *.
  destruct ((y <? x)%float || is_nan x).
  - apply elem_of_cons in IH as [->|IH]; [apply list_elem_of_here|].
    do 2 apply list_elem_of_further. exact IH.
  - apply list_elem_of_further. exact IH.
Qed.

(** On numbers, [np.min] and [np.max] take the smaller and the larger. *)
Lemma npy_min_spec (x y : float) :
  is_nan x = false -> is_nan y = false ->
  is_nan (npy_min x y) = false /\
  (npy_min x y <=? x)%float = true /\ (npy_min x y <=? y)%float = true.
Proof.
  intros Hx Hy. unfold npy_min. rewrite Hx, orb_false_r.
  destruct (x <? y)%float eqn:E.
  - split; [exact Hx|]. split; [apply float_leb_refl; exact Hx|].
    apply float_ltb_leb_weak; exact E.
  - split; [exact Hy|]. split; [|apply float_leb_refl; exact Hy].
    apply float_ltb_false_leb; assumption.
Qed.

Lemma npy_max_spec (x y : float) :
  is_nan x = false -> is_nan y = false ->
  is_nan (npy_max x y) = false /\
  (x <=? npy_max x y)%float = true /\ (y <=? npy_max x y)%float = true.
Proof.
  intros Hx Hy. unfold npy_max. rewrite Hx, orb_false_r.
  destruct (y <? x)%float eqn:E.
  - split; [exact Hx|]. split; [apply float_leb_refl; exact Hx|].
    apply float_ltb_leb_weak; exact E.
  - split; [exact Hy|]. split; [|apply float_leb_refl; exact Hy].
    apply float_ltb_false_leb; assumption.
Qed.

(** On numbers the reduction of [np.min] is a lower bound of the array,
    that of [np.max] an upper bound. *)
Lemma fold_npy_min_le (l : list float) : forall x,
  is_nan x = false -> Forall (fun w => is_nan w = false) l ->
  forall w, w ∈ x :: l -> (fold_left npy_min l x <=? w)%float = true.
Proof.
  induction l as [|y l IH]; intros x Hx Hl w Hw.
  - apply list_elem_of_singleton in Hw as ->. apply float_leb_refl; exact Hx.
  - apply Forall_cons in Hl as [Hy Hl].
    destruct (npy_min_spec x y Hx Hy) as (Hn & Hmx & Hmy).
    cbn [fold_left].
    assert (Hhd : (fold_left npy_min l (npy_min x y) <=? npy_min x y)%float = true).
    { apply IH; [exact Hn | exact Hl | left]. }
    apply elem_of_cons in Hw as [->|Hw].
    + exact (float_leb_trans _ _ _ Hhd Hmx).
    + apply elem_of_cons in Hw as [->|Hw].
      * exact (float_leb_trans _ _ _ Hhd Hmy).
      * apply IH; [exact Hn | exact Hl | right; exact Hw].
Qed.

Lemma fold_npy_max_le (l : list float) : forall x,
  is_nan x = false -> Forall (fun w => is_nan w = false) l ->
  forall w, w ∈ x :: l -> (w <=? fold_left npy_max l x)%float = true.
Proof.
  induction l as [|y l IH]; intros x Hx Hl w Hw.
  - apply list_elem_of_singleton in Hw as ->. apply float_leb_refl; exact Hx.
  - apply Forall_cons in Hl as [Hy Hl].
    destruct (npy_max_spec x y Hx Hy) as (Hn & Hmx & Hmy).
    cbn [fold_left].
    assert (Hhd : (npy_max x y <=? fold_left npy_max l (npy_max x y))%float = true).
    { apply IH; [exact Hn | exact Hl | left]. }
    apply elem_of_cons in Hw as [->|Hw].
    + exact (float_leb_trans _ _ _ Hmx Hhd).
    + apply elem_of_cons in Hw as [->|Hw].
      * exact (float_leb_trans _ _ _ Hmy Hhd).
      * apply IH; [exact Hn | exact Hl | right; exact Hw].
Qed.

Section Tristimulus_facts.
Variables SpragueInterpolator SplineInterpolator : interpolator.
Variable cmfs : TriSpectralPowerDistribution.

(** C4, as the code has it.  For a query of at least one wavelength:
    when no queried wavelength is nan and one of them is below the start
    of the shape or above its end, the call raises the [ValueError] of the
    domain check; when every queried wavelength lies within the bounds,
    the call returns. *)
Theorem wavelength_to_XYZ_domain (wavelength : ndarray float) :
  data wavelength <> [] ->
  (Forall (fun w => is_nan w = false) (data wavelength) ->
   Exists (fun w => float_lt w (shape_start cmfs) \/ float_lt (shape_end cmfs) w)
          (data wavelength) ->
   is_domain_error
     (wavelength_to_XYZ_vectorise SpragueInterpolator SplineInterpolator
                                  wavelength cmfs)) /\
  (Forall (in_domain cmfs) (data wavelength) ->
   returns (wavelength_to_XYZ_vectorise SpragueInterpolator SplineInterpolator
                                        wavelength cmfs)).
Proof.
  intros Hne. unfold wavelength_to_XYZ_vectorise.
  destruct (data wavelength) as [|x l] eqn:Ed; [contradiction|]. split.
  - intros Hnan Hout. cbn [np_min np_max mbind result_bind].
    apply Forall_cons in Hnan as [Hx Hl].
    apply Exists_exists in Hout as (w & Hw & Hout).
    destruct (fold_left npy_min l x <? shape_start cmfs)%float eqn:E1;
      [do 3 eexists; reflexivity|].
    destruct (shape_end cmfs <? fold_left npy_max l x)%float eqn:E2;
      [do 3 eexists; reflexivity|].
    exfalso. destruct Hout as [H|H]; unfold float_lt in H.
    + pose proof (float_leb_ltb_trans _ _ _ (fold_npy_min_le l x Hx Hl w Hw) H).
      congruence.
    + pose proof (float_ltb_leb_trans _ _ _ H (fold_npy_max_le l x Hx Hl w Hw)).
      congruence.
  - intros Hin. cbn [np_min np_max mbind result_bind].
    assert (Hlo : in_domain cmfs (fold_left npy_min l x)).
    { exact (proj1 (list.Forall_forall _ _) Hin _ (fold_npy_min_elem l x)). }
    assert (Hhi : in_domain cmfs (fold_left npy_max l x)).
    { exact (proj1 (list.Forall_forall _ _) Hin _ (fold_npy_max_elem l x)). }
    rewrite (float_leb_ltb _ _ (proj1 Hlo)), (float_leb_ltb _ _ (proj2 Hhi)).
    destruct (negb _); exact I.
Qed.
End Tristimulus_facts.

Lemma wavelength_to_XYZ_domain_sample :
  is_domain_error
    (wavelength_to_XYZ_vectorise zero_interpolator zero_interpolator
       (array1 [480; 900]%float) cmfs_sample) /\
  returns (wavelength_to_XYZ_vectorise zero_interpolator zero_interpolator
             (array1 [360; 480; 830]%float) cmfs_sample).
Proof.
  split.
  - apply (wavelength_to_XYZ_domain zero_interpolator zero_interpolator cmfs_sample
             (array1 [480; 900]%float)).
    + discriminate.
    + repeat constructor.
    + apply Exists_cons_tl, Exists_cons_hd. right. reflexivity.
  - apply (wavelength_to_XYZ_domain zero_interpolator zero_interpolator cmfs_sample
             (array1 [360; 480; 830]%float)).
    + discriminate.
    + repeat constructor.
Defined.

(** What each branch returns on the sample table: the three tabulated
    values of every wavelength when all are tabulated, the interpolated
    rows otherwise; a single wavelength gives the shape [(3,)]. *)
Lemma wavelength_to_XYZ_sample_values :
  wavelength_to_XYZ_vectorise zero_interpolator zero_interpolator
    (array1 [360; 595]%float) cmfs_sample
  = Ok (NDArray [2; 3] (map Some [0; 0; 0; 1; 1; 1]%float)) /\
  wavelength_to_XYZ_vectorise zero_interpolator zero_interpolator
    (array1 [595]%float) cmfs_sample
  = Ok (NDArray [3] (map Some [1; 1; 1]%float)) /\
  wavelength_to_XYZ_vectorise zero_interpolator zero_interpolator
    (array1 [360; 480; 830]%float) cmfs_sample
  = Ok (NDArray [3; 3] (map Some [0; 0; 0; 0; 0; 0; 0; 0; 0]%float)).
Proof. repeat split; vm_compute; reflexivity. Qed.

(** Where the claim as worded fails.  On the query [(480, 900)] the
    message carries both queried wavelengths, 480 among them, which lies
    in the domain.  The query [(nan, 100, 2000)] has a wavelength below
    the start and one above the end and passes the check: [np.min] and
    [np.max] answer nan, and no comparison with nan holds.  The empty
    query lies within every domain, yet the call raises: [np.min] has no
    value on a zero-size array. *)
Lemma wavelength_to_XYZ_domain_exceptions :
  (wavelength_to_XYZ_vectorise zero_interpolator zero_interpolator
     (array1 [480; 900]%float) cmfs_sample
   = Raise (ValueError (msg_wavelength_domain [480; 900]%float 360 830)) /\
   in_domain cmfs_sample 480%float) /\
  (float_lt 100 (shape_start cmfs_sample) /\
   float_lt (shape_end cmfs_sample) 2000 /\
   np_min [nan; 100; 2000]%float = Ok nan /\
   np_max [nan; 100; 2000]%float = Ok nan /\
   ~ is_domain_error
       (wavelength_to_XYZ_vectorise zero_interpolator zero_interpolator
          (array1 [nan; 100; 2000]%float) cmfs_sample)) /\
  (Forall (in_domain cmfs_sample) (data (array1 (@nil float))) /\
   wavelength_to_XYZ_vectorise zero_interpolator zero_interpolator
     (array1 []) cmfs_sample
   = Raise (ValueError (msg_numpy
       "zero-size array to reduction operation minimum which has no identity"))).
Proof.
  split; [split; [vm_compute; reflexivity | split; reflexivity]|].
  split; [|split; [constructor | reflexivity]].
  split; [reflexivity|]. split; [reflexivity|].
  split; [reflexivity|]. split; [reflexivity|].
  intros (ws & a & b & H). vm_compute in H. discriminate.
Qed.

(* ===================================================================== *)
(** ** SpectralPowerDistribution: assignment, get and membership *)
(* ===================================================================== *)

Lemma lookup_dict_setitems_notin (keys : list Qc) : forall vals d w,
  w ∉ keys -> dict_setitems d keys vals !! w = d !! w.
Proof.
  unfold dict_setitems.
  induction keys as [|k keys IH]; intros [|v vals] d w Hw; simpl; try reflexivity.
  apply not_elem_of_cons in Hw as [Hk Hw].
  rewrite IH by exact Hw. simpl. apply lookup_insert_ne. congruence.
Qed.

Lemma lookup_dict_setitems (keys : list Qc) : forall vals d i w v,
  NoDup keys -> keys !! i = Some w -> vals !! i = Some v ->
  dict_setitems d keys vals !! w = Some v.
Proof.
  unfold dict_setitems.
  induction keys as [|k keys IH]; intros [|v0 vals] d i w v Hnd Hk Hv;
    try discriminate.
  apply NoDup_cons in Hnd as [Hnotin Hnd]. destruct i as [|i]; simpl in *.
  - injection Hk as ->. injection Hv as ->.
    pose proof (lookup_dict_setitems_notin keys vals (<[w:=v]> d) w Hnotin) as E.
    unfold dict_setitems in E. rewrite E. apply lookup_insert_eq.
  - eapply IH; eassumption.
Qed.

Lemma dom_dict_setitems (keys : list Qc) : forall vals d,
  length keys = length vals ->
  dom (dict_setitems d keys vals) = dom d ∪ list_to_set keys.
Proof.
  unfold dict_setitems.
  induction keys as [|k keys IH]; intros [|v vals] d Hl; try discriminate; simpl.
  - apply set_eq. intros w. rewrite elem_of_union, elem_of_empty. tauto.
  - rewrite IH by (simpl in Hl; lia). rewrite dom_insert_L.
    apply set_eq. intros w.
    rewrite !elem_of_union, elem_of_singleton. tauto.
Qed.

Lemma wavelengths_NoDup (self : SpectralPowerDistribution) : NoDup (wavelengths self).
Proof.
  unfold wavelengths. rewrite merge_sort_Permutation.
  apply NoDup_fst_map_to_list.
Qed.

(** The wavelengths are determined by the set of keys. *)
Lemma wavelengths_dom (s1 s2 : SpectralPowerDistribution) :
  dom (spd_data s1) = dom (spd_data s2) -> wavelengths s1 = wavelengths s2.
Proof.
  intros Hd.
  apply (Sorted_unique Qcle); try apply wavelengths_sorted.
  apply NoDup_Permutation; try apply wavelengths_NoDup.
  intros w. rewrite !elem_of_wavelengths, <- !elem_of_dom, Hd. reflexivity.
Qed.

Lemma np_resize_one {T} (fill v : T) (rest : list T) :
  np_resize fill (v :: rest) 1 = [v].
Proof.
  unfold np_resize. cbn [seq map]. rewrite Nat.Div0.mod_0_l. reflexivity.
Qed.

Lemma lookup_np_resize {T} (fill : T) (a : list T) (n i : nat) :
  i < n -> a <> [] -> np_resize fill a n !! i = a !! (i mod length a).
Proof.
  intros Hi Ha. unfold np_resize.
  rewrite list_lookup_fmap, lookup_seq_lt by exact Hi. cbn [fmap option_fmap option_map].
  assert (i mod length a < length a) as Hlt
    by (apply Nat.mod_upper_bound; destruct a; [congruence | simpl; lia]).
  destruct (lookup_lt_is_Some_2 a _ Hlt) as [v Hv]. rewrite Hv.
  f_equal. apply nth_lookup_Some with (d := fill) in Hv. exact Hv.
Qed.

Lemma np_resize_scalar {T} (fill v : T) (n : nat) :
  np_resize fill [v] n = replicate n v.
Proof.
  apply list_eq; intros i. destruct (decide (i < n)) as [Hi|Hi].
  - rewrite lookup_np_resize by (auto; discriminate). cbn [length].
    rewrite Nat.mod_1_r, lookup_replicate_2 by exact Hi. reflexivity.
  - rewrite !lookup_ge_None_2; [reflexivity| |].
    + rewrite length_replicate. lia.
    + rewrite length_np_resize. lia.
Qed.

(** X1.  After [spd[w] = value] the distribution returns the first element
    of [value] at [w], and what it returns at every other wavelength
    (a value or a KeyError) is what it returned before. *)
Theorem setitem_getitem_numeric
    (self : SpectralPowerDistribution) (w : Qc) (v : float) (rest : list float) :
  exists self',
    SpectralPowerDistribution__setitem__ self (Numeric w) (v :: rest) = Ok self' /\
    SpectralPowerDistribution__getitem__ self' (Numeric w) = Ok (Number v) /\
    (forall w', w' <> w ->
       SpectralPowerDistribution__getitem__ self' (Numeric w')
       = SpectralPowerDistribution__getitem__ self (Numeric w')).
Proof.
  exists {| name := name self; spd_data := <[w := v]> (spd_data self) |}.
  split; [|split].
  - unfold SpectralPowerDistribution__setitem__.
    cbn [mbind result_bind length]. rewrite np_resize_one. reflexivity.
  - apply getitem_numeric_key. cbn [spd_data]. apply lookup_insert_eq.
  - intros w' Hw'. unfold SpectralPowerDistribution__getitem__, dict_getitem.
    cbn [spd_data]. rewrite lookup_insert_ne by congruence. reflexivity.
Qed.

(** What [spd[ws] = value] followed by [spd[ws]] gives. *)
Lemma setitem_iterable_getitem
    (self : SpectralPowerDistribution) (ws : list Qc) (value : list float) :
  NoDup ws ->
  let self' := {| name := name self;
                  spd_data := dict_setitems (spd_data self) ws
                                (np_resize 0%float value (length ws)) |} in
  SpectralPowerDistribution__setitem__ self (Iterable ws) value = Ok self' /\
  SpectralPowerDistribution__getitem__ self' (Iterable ws)
  = Ok (Array (np_resize 0%float value (length ws))).
Proof.
  intros Hnd self'. split; [reflexivity|].
  unfold SpectralPowerDistribution__getitem__, self'. cbn [spd_data].
  rewrite (mapM_dict_getitem _ ws (np_resize 0%float value (length ws)));
    [reflexivity|].
  apply Forall2_same_length_lookup_2.
  - rewrite length_np_resize. reflexivity.
  - intros i w v Hw Hv. eapply lookup_dict_setitems; eassumption.
Qed.

(** X2.  After [spd[ws] = value] with pairwise distinct wavelengths [ws],
    indexing with [ws] returns [value] resized cyclically to the length of
    [ws], and every wavelength outside [ws] is untouched. *)
Theorem setitem_getitem_iterable
    (self : SpectralPowerDistribution) (ws : list Qc) (value : list float) :
  NoDup ws ->
  exists self',
    SpectralPowerDistribution__setitem__ self (Iterable ws) value = Ok self' /\
    SpectralPowerDistribution__getitem__ self' (Iterable ws)
    = Ok (Array (np_resize 0%float value (length ws))) /\
    (forall w', w' ∉ ws ->
       SpectralPowerDistribution__getitem__ self' (Numeric w')
       = SpectralPowerDistribution__getitem__ self (Numeric w')).
Proof.
  intros Hnd.
  destruct (setitem_iterable_getitem self ws value Hnd) as [Hset Hget].
  eexists. split; [exact Hset|]. split; [exact Hget|].
  intros w' Hw'. unfold SpectralPowerDistribution__getitem__, dict_getitem.
  cbn [spd_data]. rewrite lookup_dict_setitems_notin by exact Hw'. reflexivity.
Qed.

Lemma setitem_getitem_iterable_sample :
  NoDup [Q2Qc 520; Q2Qc 555; Q2Qc 530] /\
  exists self',
    SpectralPowerDistribution__setitem__ spd_sample
      (Iterable [Q2Qc 520; Q2Qc 555; Q2Qc 530]) [1%float; 2%float] = Ok self' /\
    SpectralPowerDistribution__getitem__ self'
      (Iterable [Q2Qc 520; Q2Qc 555; Q2Qc 530])
    = Ok (Array (np_resize 0%float [1%float; 2%float] 3)) /\
    (forall w', w' ∉ [Q2Qc 520; Q2Qc 555; Q2Qc 530] ->
       SpectralPowerDistribution__getitem__ self' (Numeric w')
       = SpectralPowerDistribution__getitem__ spd_sample (Numeric w')).
Proof.
  assert (Hnd : NoDup [Q2Qc 520; Q2Qc 555; Q2Qc 530])
    by (apply (bool_decide_unpack _); vm_compute; reflexivity).
  split; [exact Hnd|].
  exact (setitem_getitem_iterable spd_sample
           [Q2Qc 520; Q2Qc 555; Q2Qc 530] [1%float; 2%float] Hnd).
Defined.

Lemma elem_of_getitem_slice {T} (l ks : list T) (start stop step : option Z) :
  getitem_slice l start stop step = Ok ks -> forall k, k ∈ ks -> k ∈ l.
Proof.
  unfold getitem_slice. destruct (slice_positions _ start stop step) as [ps|e];
    cbn [mbind result_bind]; [|discriminate].
  intros [= <-] k Hk. apply list_elem_of_omap in Hk as (p & _ & Hp).
  eapply list_elem_of_lookup_2, Hp.
Qed.

(** X3.  Assigning through a slice never changes the set of wavelengths:
    the keys written are existing wavelengths, whatever the bounds and the
    step of the slice and whatever the length of the value. *)
Theorem setitem_slice_keeps_wavelengths
    (self self' : SpectralPowerDistribution) (start stop step : option Z)
    (value : list float) :
  SpectralPowerDistribution__setitem__ self (Slice start stop step) value = Ok self' ->
  wavelengths self' = wavelengths self.
Proof.
  unfold SpectralPowerDistribution__setitem__.
  destruct (getitem_slice (wavelengths self) start stop step) as [ks|e] eqn:Hks;
    cbn [mbind result_bind]; [|discriminate].
  intros [= <-]. apply wavelengths_dom. cbn [spd_data].
  rewrite dom_dict_setitems by (rewrite length_np_resize; reflexivity).
  assert (Hsub : forall k, k ∈ ks -> k ∈ dom (spd_data self)).
  { intros k Hk. apply elem_of_dom, elem_of_wavelengths.
    eapply elem_of_getitem_slice; eassumption. }
  apply set_eq. intros k. rewrite elem_of_union, elem_of_list_to_set.
  split; [intros [H|H]; auto | auto].
Qed.

Lemma setitem_slice_keeps_wavelengths_sample :
  exists self',
    SpectralPowerDistribution__setitem__ spd_sample
      (Slice (Some 1%Z) None (Some 2%Z)) [0%float] = Ok self' /\
    wavelengths self' = wavelengths spd_sample.
Proof.
  eexists. split; [reflexivity|].
  apply (setitem_slice_keeps_wavelengths spd_sample _ (Some 1%Z) None (Some 2%Z)
           [0%float]).
  reflexivity.
Defined.

Lemma omap_lookup_all {T} (l : list T) (ps : list Z) (xs : list T) :
  Forall2 (fun p x => l !! Z.to_nat p = Some x) ps xs ->
  omap (M:=list) (fun p : Z => l !! Z.to_nat p) ps = xs.
Proof.
  induction 1 as [|p x ps xs Hp _ IH]; [reflexivity|].
  rewrite <- IH. simpl. rewrite Hp. reflexivity.
Qed.

Lemma getitem_slice_full {T} (l : list T) :
  getitem_slice l None None None = Ok l.
Proof.
  unfold getitem_slice, slice_positions.
  cbn [default from_option Z.eqb Z.ltb Z.compare].
  cbn [mbind result_bind]. f_equal. apply omap_lookup_all.
  apply Forall2_same_length_lookup_2.
  - rewrite length_map, length_seq.
    destruct (Z.ltb_spec 0 (Z.of_nat (length l))); [|lia].
    rewrite Z.div_1_r. lia.
  - intros i p x Hp Hx. rewrite list_lookup_fmap in Hp.
    destruct (seq _ _ !! i) as [j|] eqn:Hj; [|discriminate].
    apply lookup_seq in Hj as [-> _]. injection Hp as <-.
    rewrite <- Hx. f_equal. lia.
Qed.

Lemma getitem_slice_reversed {T} (l : list T) :
  getitem_slice l None None (Some (-1)%Z) = Ok (reverse l).
Proof.
  unfold getitem_slice, slice_positions.
  cbn [default from_option id Z.eqb Z.ltb Z.compare Z.opp].
  cbn [mbind result_bind]. f_equal. apply omap_lookup_all.
  apply Forall2_same_length_lookup_2.
  - rewrite length_map, length_seq, length_reverse.
    destruct (Z.ltb_spec (-1) (Z.of_nat (length l) - 1)); [|lia].
    rewrite Z.div_1_r. lia.
  - intros i p x Hp Hx. rewrite list_lookup_fmap in Hp.
    destruct (seq _ _ !! i) as [j|] eqn:Hj; [|discriminate].
    apply lookup_seq in Hj as [-> _]. injection Hp as <-.
    assert (i < length l) as Hi
      by (rewrite <- (length_reverse l); eapply lookup_lt_Some, Hx).
    rewrite reverse_lookup in Hx by exact Hi. rewrite <- Hx. f_equal. lia.
Qed.

Lemma omap_const {X T} (f : X -> option T) (v : T) (l : list X) :
  (forall x, x ∈ l -> f x = Some v) -> omap (M:=list) f l = replicate (length l) v.
Proof.
  induction l as [|x l IH]; intros H; [reflexivity|].
  cbn [length replicate]. rewrite <- IH by (intros y Hy; apply H; right; exact Hy).
  simpl. rewrite (H x) by left. reflexivity.
Qed.

(** X4.  [spd[:] = v] with a number [v] keeps the wavelengths and makes
    every value [v]. *)
Theorem setitem_full_slice (self : SpectralPowerDistribution) (v : float) :
  exists self',
    SpectralPowerDistribution__setitem__ self (Slice None None None) [v] = Ok self' /\
    wavelengths self' = wavelengths self /\
    values self' = replicate (length (values self)) v.
Proof.
  set (self' := {| name := name self;
                   spd_data := dict_setitems (spd_data self) (wavelengths self)
                                 (replicate (length (wavelengths self)) v) |}).
  assert (Hset : SpectralPowerDistribution__setitem__ self (Slice None None None) [v]
                 = Ok self').
  { unfold SpectralPowerDistribution__setitem__. rewrite getitem_slice_full.
    cbn [mbind result_bind]. rewrite np_resize_scalar. reflexivity. }
  assert (Hw : wavelengths self' = wavelengths self).
  { apply wavelengths_dom. unfold self'. cbn [spd_data].
    rewrite dom_dict_setitems by (rewrite length_replicate; reflexivity).
    apply set_eq. intros k. rewrite elem_of_union, elem_of_list_to_set.
    rewrite elem_of_dom, <- elem_of_wavelengths. tauto. }
  exists self'. split; [exact Hset|]. split; [exact Hw|].
  unfold values at 1. rewrite Hw.
  rewrite (omap_const _ v).
  - f_equal. eapply Forall2_length, values_parallel.
  - intros w Hin. apply list_elem_of_lookup in Hin as [i Hi].
    unfold self'. cbn [spd_data].
    eapply lookup_dict_setitems; [apply wavelengths_NoDup | exact Hi |].
    apply lookup_replicate_2. eapply lookup_lt_Some, Hi.
Qed.

Lemma mapM_dict_getitem_inv (d : gmap Qc float) (ws : list Qc) : forall vs,
  mapM (dict_getitem d) ws = Ok vs ->
  Forall2 (fun w v => d !! w = Some v) ws vs.
Proof.
  induction ws as [|w ws IH]; intros vs; cbn [mapM].
  - intros H. cbv in H. injection H as <-. constructor.
  - assert (Hd : forall v, dict_getitem d w = Ok v -> d !! w = Some v).
    { unfold dict_getitem. destruct (d !! w); [intros ? [= <-]; reflexivity|discriminate]. }
    destruct (dict_getitem d w) as [v|e]; cbn [mbind result_bind]; [|discriminate].
    specialize (Hd v eq_refl) as Hw.
    destruct (mapM (dict_getitem d) ws) as [vs'|e]; cbn [mbind result_bind mret result_ret];
      [|discriminate].
    intros [= <-]. constructor; [exact Hw | apply IH; reflexivity].
Qed.

(** X5.  [spd.get(ws, default)] never raises.  Where indexing with [ws]
    returns an array, [get] returns the same values for every default; at
    a wavelength that is no key, where indexing raises KeyError, its
    result holds the default. *)
Theorem get_agrees_with_getitem
    (self : SpectralPowerDistribution) (default : option float) :
  (forall ws vs,
     SpectralPowerDistribution__getitem__ self (Iterable ws) = Ok (Array vs) ->
     SpectralPowerDistribution_get self ws default = as_numeric (array1 (map Some vs))) /\
  (forall w,
     SpectralPowerDistribution__getitem__ self (Numeric w)
     = Raise (KeyError (msg_missing_key w)) ->
     data (SpectralPowerDistribution_get self [w] default) = [default]).
Proof.
  split.
  - intros ws vs. unfold SpectralPowerDistribution__getitem__.
    destruct (mapM (dict_getitem (spd_data self)) ws) as [vs'|e] eqn:Hm;
      cbn [mbind result_bind]; [|discriminate].
    intros [= <-]. apply mapM_dict_getitem_inv in Hm.
    unfold SpectralPowerDistribution_get. f_equal. f_equal.
    induction Hm as [|w v ws vs' Hw _ IH]; simpl; [reflexivity|].
    rewrite Hw, IH. reflexivity.
  - intros w. unfold SpectralPowerDistribution__getitem__, dict_getitem,
      SpectralPowerDistribution_get.
    destruct (spd_data self !! w) as [v|] eqn:Hw; cbn [mbind result_bind];
      [discriminate|].
    intros _. cbn [map]. rewrite Hw. reflexivity.
Qed.

Lemma get_agrees_with_getitem_sample :
  SpectralPowerDistribution_get spd_sample [Q2Qc 510; Q2Qc 520] (Some 0%float)
  = as_numeric (array1 (map Some [49.67%float; 69.59%float])) /\
  data (SpectralPowerDistribution_get spd_sample [Q2Qc 511] None) = [None].
Proof.
  split.
  - apply (proj1 (get_agrees_with_getitem spd_sample (Some 0%float))). reflexivity.
  - apply (proj2 (get_agrees_with_getitem spd_sample None)). reflexivity.
Defined.

Lemma dict_getitem_Some (d : gmap Qc float) (w : Qc) (v : float) :
  d !! w = Some v -> dict_getitem d w = Ok v.
Proof. intros H. unfold dict_getitem. rewrite H. reflexivity. Qed.

Lemma dict_getitem_None (d : gmap Qc float) (w : Qc) :
  d !! w = None -> dict_getitem d w = Raise (KeyError (msg_missing_key w)).
Proof. intros H. unfold dict_getitem. rewrite H. reflexivity. Qed.

(** Looking up a list of keys either finds them all or stops with the
    KeyError of a missing one. *)
Lemma mapM_dict_getitem_cases (d : gmap Qc float) (ws : list Qc) :
  (exists vs, mapM (dict_getitem d) ws = Ok vs /\
              Forall (fun w => is_Some (d !! w)) ws) \/
  (exists w, w ∈ ws /\ d !! w = None /\
             mapM (dict_getitem d) ws = Raise (KeyError (msg_missing_key w))).
Proof.
  induction ws as [|w ws IH].
  - left. exists []. split; [reflexivity | constructor].
  - cbn [mapM]. destruct (d !! w) as [v|] eqn:Hw.
    + rewrite (dict_getitem_Some _ _ _ Hw). cbn [mbind result_bind].
      destruct IH as [(vs & -> & Hall) | (w' & Hin & Hnone & ->)].
      * left. exists (v :: vs). split; [reflexivity|].
        constructor; [rewrite Hw; eauto | exact Hall].
      * right. exists w'. split; [right; exact Hin|]. split; [exact Hnone | reflexivity].
    + rewrite (dict_getitem_None _ _ Hw). cbn [mbind result_bind].
      right. exists w. split; [left|]. split; [exact Hw | reflexivity].
Qed.

(** X6.  [ws in spd] is true exactly when indexing with [ws] returns an
    array; when it is false indexing raises the KeyError of one of the
    wavelengths of [ws]. *)
Theorem contains_iff_getitem (self : SpectralPowerDistribution) (ws : list Qc) :
  (SpectralPowerDistribution__contains__ self ws = true <->
   exists vs, SpectralPowerDistribution__getitem__ self (Iterable ws) = Ok (Array vs)) /\
  (SpectralPowerDistribution__contains__ self ws = false <->
   exists w, w ∈ ws /\
     SpectralPowerDistribution__getitem__ self (Iterable ws)
     = Raise (KeyError (msg_missing_key w))).
Proof.
  unfold SpectralPowerDistribution__getitem__.
  destruct (mapM_dict_getitem_cases (spd_data self) ws)
    as [(vs & -> & Hall) | (w & Hin & Hnone & ->)]; cbn [mbind result_bind].
  - assert (Hc : SpectralPowerDistribution__contains__ self ws = true).
    { unfold SpectralPowerDistribution__contains__.
      induction Hall as [|w ws Hw _ IH]; [reflexivity|]. cbn [forallb].
      rewrite bool_decide_eq_true_2 by (apply elem_of_wavelengths; exact Hw).
      exact IH. }
    rewrite Hc. split; split.
    + intros _. exists vs. reflexivity.
    + reflexivity.
    + discriminate.
    + intros (w & _ & H). discriminate.
  - assert (Hc : SpectralPowerDistribution__contains__ self ws = false).
    { unfold SpectralPowerDistribution__contains__.
      induction Hin as [w ws | w w' ws _ IH]; cbn [forallb].
      - rewrite bool_decide_eq_false_2; [reflexivity|].
        rewrite elem_of_wavelengths, Hnone. intros [v Hv]. discriminate.
      - rewrite IH by exact Hnone. apply andb_false_r. }
    rewrite Hc. split; split.
    + discriminate.
    + intros [vs H]. discriminate.
    + intros _. exists w. split; [exact Hin | reflexivity].
    + reflexivity.
Qed.

(** X7.  Slicing a distribution: [spd[:]] is all the values by ascending
    wavelength, [spd[::-1]] the same values in descending order, and a
    slice raises exactly when its step is zero, whatever its bounds. *)
Theorem getitem_slice_behaviour (self : SpectralPowerDistribution) :
  SpectralPowerDistribution__getitem__ self (Slice None None None)
  = Ok (Array (values self)) /\
  SpectralPowerDistribution__getitem__ self (Slice None None (Some (-1)%Z))
  = Ok (Array (reverse (values self))) /\
  (forall start stop step,
     raises (SpectralPowerDistribution__getitem__ self (Slice start stop step))
     <-> step = Some 0%Z).
Proof.
  unfold SpectralPowerDistribution__getitem__. split; [|split].
  - rewrite getitem_slice_full. reflexivity.
  - rewrite getitem_slice_reversed. reflexivity.
  - intros start stop step. unfold getitem_slice, slice_positions.
    destruct step as [step|]; cbn [default from_option id].
    + destruct (Z.eqb_spec step 0) as [->|Hne].
      * cbn [mbind result_bind raises]. tauto.
      * destruct (0 <? step)%Z; cbn [mbind result_bind raises];
          (split; [tauto | intros [= ->]; congruence]).
    + cbn [Z.eqb Z.ltb Z.compare mbind result_bind raises].
      split; [tauto | discriminate].
Qed.

Lemma mapM_dict_getitem_length (d : gmap Qc float) (ws : list Qc) (vs : list float) :
  mapM (dict_getitem d) ws = Ok vs -> length vs = length ws.
Proof.
  intros H. apply mapM_dict_getitem_inv in H. symmetry. eapply Forall2_length, H.
Qed.

Lemma getitem_iterable_length (self : SpectralPowerDistribution) (ws : list Qc)
    (a : list float) :
  SpectralPowerDistribution__getitem__ self (Iterable ws) = Ok (Array a) ->
  length a = length ws.
Proof.
  unfold SpectralPowerDistribution__getitem__.
  destruct (mapM (dict_getitem (spd_data self)) ws) as [vs|e] eqn:Hm;
    cbn [mbind result_bind]; [|discriminate].
  intros [= <-]. eapply mapM_dict_getitem_length, Hm.
Qed.

(** X8.  Indexing a tri-spectral distribution with one number always
    raises: a KeyError when the wavelength is missing from a component,
    otherwise the error of swapping the axes of a 1-d array.  Indexing it
    with an iterable of wavelengths that the three components hold returns
    one row of three values per wavelength. *)
Theorem tri_getitem_scalar_raises (x y z : SpectralPowerDistribution) :
  (forall w, raises (TriSpectralPowerDistribution__getitem__ x y z (Numeric w))) /\
  (forall ws a b c,
     SpectralPowerDistribution__getitem__ x (Iterable ws) = Ok (Array a) ->
     SpectralPowerDistribution__getitem__ y (Iterable ws) = Ok (Array b) ->
     SpectralPowerDistribution__getitem__ z (Iterable ws) = Ok (Array c) ->
     TriSpectralPowerDistribution__getitem__ x y z (Iterable ws)
     = Ok (dstack3 a b c) /\
     length (dstack3 a b c) = length ws).
Proof.
  split.
  - intros w. unfold TriSpectralPowerDistribution__getitem__,
      SpectralPowerDistribution__getitem__.
    destruct (dict_getitem (spd_data x) w); cbn [mbind result_bind raises]; [|exact I].
    destruct (dict_getitem (spd_data y) w); cbn [mbind result_bind raises]; [|exact I].
    destruct (dict_getitem (spd_data z) w); cbn [mbind result_bind raises]; exact I.
  - intros ws a b c Ha Hb Hc.
    pose proof (getitem_iterable_length _ _ _ Ha) as La.
    pose proof (getitem_iterable_length _ _ _ Hb) as Lb.
    pose proof (getitem_iterable_length _ _ _ Hc) as Lc.
    unfold TriSpectralPowerDistribution__getitem__.
    rewrite Ha, Hb, Hc. cbn [mbind result_bind].
    rewrite bool_decide_eq_true_2 by (split; congruence).
    split; [reflexivity|]. rewrite length_dstack3; lia.
Qed.

Lemma tri_getitem_scalar_raises_sample :
  raises (TriSpectralPowerDistribution__getitem__ spd_sample spd_sample spd_sample
            (Numeric (Q2Qc 510))) /\
  TriSpectralPowerDistribution__getitem__ spd_sample spd_sample spd_sample
    (Iterable [Q2Qc 510])
  = Ok [(49.67, 49.67, 49.67)%float].
Proof.
  split.
  - apply (proj1 (tri_getitem_scalar_raises spd_sample spd_sample spd_sample)).
  - apply (proj2 (tri_getitem_scalar_raises spd_sample spd_sample spd_sample)
             [Q2Qc 510] [49.67%float] [49.67%float] [49.67%float]); reflexivity.
Defined.

Lemma np_resize_same {T} (fill : T) (a : list T) :
  np_resize fill a (length a) = a.
Proof.
  apply list_eq; intros i. destruct (decide (i < length a)) as [Hi|Hi].
  - rewrite lookup_np_resize by (auto; intros ->; simpl in Hi; lia).
    rewrite Nat.mod_small by exact Hi. reflexivity.
  - rewrite !lookup_ge_None_2; [reflexivity | lia |].
    rewrite length_np_resize. lia.
Qed.

Lemma dstack3_columns {T} (a : list (vec3 T)) :
  dstack3 (col0 a) (col1 a) (col2 a) = a.
Proof.
  induction a as [|[[x y] z] a IH]; [reflexivity|].
  change (dstack3 (col0 ((x, y, z) :: a)) (col1 ((x, y, z) :: a)) (col2 ((x, y, z) :: a)))
    with ((x, y, z) :: dstack3 (col0 a) (col1 a) (col2 a)).
  rewrite IH. reflexivity.
Qed.

(** X21.  After [tri[ws] = value] with pairwise distinct wavelengths [ws],
    indexing the tri-spectral distribution with [ws] returns the rows of
    [value] resized cyclically to shape [(len(ws), 3)]. *)
Theorem tri_setitem_getitem
    (self_wavelengths : list Qc) (x y z : SpectralPowerDistribution)
    (ws : list Qc) (value : list float) :
  NoDup ws ->
  exists x' y' z',
    TriSpectralPowerDistribution__setitem__ self_wavelengths x y z
      (Iterable ws) value = Ok (x', y', z') /\
    TriSpectralPowerDistribution__getitem__ x' y' z' (Iterable ws)
    = Ok (rows3 (np_resize 0%float value (3 * length ws))).
Proof.
  intros Hnd. unfold TriSpectralPowerDistribution__setitem__.
  cbn [mbind result_bind].
  set (rows := rows3 (np_resize 0%float value (3 * length ws))).
  assert (Hrows : length rows = length ws)
    by (apply length_rows3, length_np_resize).
  assert (Hcol : forall c : list float, length c = length ws ->
            np_resize 0%float c (length ws) = c)
    by (intros c <-; apply np_resize_same).
  destruct (setitem_iterable_getitem x ws (col0 rows) Hnd) as [Sx Gx].
  destruct (setitem_iterable_getitem y ws (col1 rows) Hnd) as [Sy Gy].
  destruct (setitem_iterable_getitem z ws (col2 rows) Hnd) as [Sz Gz].
  rewrite Hcol in Sx, Gx by (unfold col0; rewrite List.length_map; exact Hrows).
  rewrite Hcol in Sy, Gy by (unfold col1; rewrite List.length_map; exact Hrows).
  rewrite Hcol in Sz, Gz by (unfold col2; rewrite List.length_map; exact Hrows).
  do 3 eexists. rewrite Sx, Sy, Sz. cbn [mbind result_bind].
  split; [reflexivity|].
  unfold TriSpectralPowerDistribution__getitem__.
  rewrite Gx, Gy, Gz. cbn [mbind result_bind].
  rewrite bool_decide_eq_true_2
    by (unfold col0, col1, col2; rewrite !List.length_map; split; reflexivity).
  rewrite dstack3_columns. reflexivity.
Qed.

Lemma tri_setitem_getitem_sample :
  exists x' y' z',
    TriSpectralPowerDistribution__setitem__ (wavelengths spd_sample)
      spd_sample spd_sample spd_sample (Iterable [Q2Qc 510; Q2Qc 515]) [1%float; 2%float]
    = Ok (x', y', z') /\
    TriSpectralPowerDistribution__getitem__ x' y' z' (Iterable [Q2Qc 510; Q2Qc 515])
    = Ok (rows3 (np_resize 0%float [1%float; 2%float] (3 * 2))).
Proof.
  apply (tri_setitem_getitem (wavelengths spd_sample) spd_sample spd_sample spd_sample
           [Q2Qc 510; Q2Qc 515] [1%float; 2%float]).
  apply (bool_decide_unpack _). vm_compute. reflexivity.
Defined.

(* ===================================================================== *)
(** ** Von Kries adaptation of colours, RGB to RGB *)
(* ===================================================================== *)

Section Adaptation_rows.
Context {A : Arith}.
Variable reg : gmap string (mat3 A).

Lemma chromatic_adaptation_VonKries_vectorise_rows
    (XYZ : ndarray A) (n : nat) (w wr : vec3 A) (transform : string)
    (M M_inv : mat3 A) :
  length (data XYZ) = 3 * n ->
  cim_get reg transform = Some M ->
  np_linalg_inv M = Ok M_inv ->
  chromatic_adaptation_VonKries_vectorise reg XYZ
    (array_of_vec3 w) (array_of_vec3 wr) transform
  = np_reshape
      (ravel3 (map (mat_vec (von_kries M M_inv w wr)) (rows3 (data XYZ))))
      (map Z.of_nat (shape XYZ)).
Proof.
  intros Hn Hreg Hinv. unfold chromatic_adaptation_VonKries_vectorise.
  rewrite (as_array3_ok _ n Hn). cbn [mbind result_bind].
  rewrite (chromatic_adaptation_matrix_single reg transform M M_inv) by assumption.
  reflexivity.
Qed.

Lemma RGB_to_RGB_vectorise_rows
    (RGB : ndarray A) (n : nat) (W1 W2 : A * A) (R1 X1 R2 X2 : mat3 A)
    (transform : string) (M M_inv : mat3 A) :
  length (data RGB) = 3 * n ->
  cim_get reg transform = Some M ->
  np_linalg_inv M = Ok M_inv ->
  RGB_to_RGB_vectorise reg RGB
    {| whitepoint := array1 [W1.1; W1.2];
       RGB_to_XYZ_matrix := R1; XYZ_to_RGB_matrix := X1 |}
    {| whitepoint := array1 [W2.1; W2.2];
       RGB_to_XYZ_matrix := R2; XYZ_to_RGB_matrix := X2 |}
    transform
  = np_reshape
      (ravel3 (map (mat_vec
                      (mat_mul (mat_mul R1 (von_kries M M_inv (white W1) (white W2)))
                               X2))
                   (rows3 (data RGB))))
      (map Z.of_nat (shape RGB)).
Proof.
  intros Hn Hreg Hinv. unfold RGB_to_RGB_vectorise.
  rewrite (as_array3_ok _ n Hn).
  cbn [mbind result_bind whitepoint RGB_to_XYZ_matrix XYZ_to_RGB_matrix].
  rewrite !xy_to_XYZ_vectorise_single. cbn [mbind result_bind].
  rewrite (chromatic_adaptation_matrix_single reg transform M M_inv) by assumption.
  reflexivity.
Qed.

Lemma np_reshape_rows3 (x : ndarray A) (n : nat) :
  wf x -> length (data x) = 3 * n ->
  np_reshape (ravel3 (rows3 (data x))) (map Z.of_nat (shape x)) = Ok x.
Proof.
  intros Hwf Hn. rewrite (ravel3_rows3 n _ Hn).
  destruct x as [s d]. apply np_reshape_explicit. exact Hwf.
Qed.
End Adaptation_rows.

Section Exact_adaptation.
Local Open Scope Qc_scope.
Implicit Types (P Q R : mat3 Qc) (u v w : vec3 Qc).

Ltac exact_arith := cbn [num zero one add sub mul div eqb exact] in *.
Ltac pair_eq :=
  repeat match goal with |- (_, _) = (_, _) => apply (f_equal2 pair) end.
Ltac mat_destruct :=
  repeat match goal with M : (_ * _)%type |- _ => destruct M end.
Ltac mat_unfold :=
  unfold mat_vec, mat_mul, dot3, np_transpose, identity3, diagonal, vec_div,
         det3 in *; exact_arith.

Lemma mat_mul_identity_r P : mat_mul (A:=exact) P identity3 = P.
Proof. mat_destruct. mat_unfold. pair_eq; ring. Qed.

Lemma diagonal_ratio_apply u v :
  nonzero3 v -> mat_vec (A:=exact) (diagonal (vec_div u v)) v = u.
Proof.
  destruct u as [[u0 u1] u2], v as [[v0 v1] v2].
  intros (Hv0 & Hv1 & Hv2). simpl in *.
  mat_unfold. pair_eq; field; auto.
Qed.

Lemma diagonal_ratio_same v :
  nonzero3 v -> diagonal (A:=exact) (vec_div v v) = identity3.
Proof.
  destruct v as [[v0 v1] v2].
  intros (Hv0 & Hv1 & Hv2). simpl in *.
  mat_unfold. pair_eq; try reflexivity; field; auto.
Qed.

(** The adaptation matrix takes the source white to the target white. *)
Lemma von_kries_white P Pi w wr :
  mat_mul (A:=exact) Pi P = identity3 ->
  nonzero3 (mat_vec (A:=exact) P w) ->
  mat_vec (A:=exact) (von_kries P Pi w wr) w = wr.
Proof.
  intros Hl Hw. unfold von_kries.
  rewrite <- !mat_vec_mat_mul, diagonal_ratio_apply by exact Hw.
  rewrite mat_vec_mat_mul, Hl. apply mat_vec_identity.
Qed.

(** Between equal whites it is the identity matrix. *)
Lemma von_kries_same P Pi w :
  mat_mul (A:=exact) Pi P = identity3 ->
  nonzero3 (mat_vec (A:=exact) P w) ->
  von_kries (A:=exact) P Pi w w = identity3.
Proof.
  intros Hl Hw. unfold von_kries.
  rewrite diagonal_ratio_same by exact Hw.
  rewrite mat_mul_identity_r. exact Hl.
Qed.

Variable reg : gmap string (mat3 Qc).

(** X9.  Over the rationals, von Kries adaptation maps the source white to
    the target white, for every registered cone matrix that is invertible
    and gives the source white non-zero cone responses. *)
Theorem chromatic_adaptation_VonKries_white
    (transform : string) (Mc : mat3 Qc) (w wr : vec3 Qc) :
  cim_get reg transform = Some Mc ->
  det3 (A:=exact) Mc <> 0 ->
  nonzero3 (mat_vec (A:=exact) Mc w) ->
  chromatic_adaptation_VonKries_vectorise (A:=exact) reg
    (array_of_vec3 w) (array_of_vec3 w) (array_of_vec3 wr) transform
  = Ok (array_of_vec3 wr).
Proof.
  intros Hreg Hdet Hw.
  destruct (np_linalg_inv_returns Mc Hdet) as [Mci Hinv].
  destruct (np_linalg_inv_exact Mc Mci Hinv) as [Hl Hr].
  etransitivity.
  - apply (chromatic_adaptation_VonKries_vectorise_rows (A:=exact) reg
             (array_of_vec3 w) 1 w wr transform Mc Mci); [reflexivity | assumption..].
  - destruct w as [[w0 w1] w2]. cbn [array_of_vec3 array1 data shape rows3 map fst snd].
    change (num exact) with Qc in *.
    rewrite (von_kries_white Mc Mci (w0, w1, w2) wr Hl Hw).
    destruct wr as [[r0 r1] r2]. reflexivity.
Qed.

(** X10.  Over the rationals, adapting with one white, an XYZ triple, as
    both the source and the target white returns the array unchanged, for
    every well-formed array whose last axis is 3, when the transform is
    registered with an invertible cone matrix that gives the white
    non-zero cone responses. *)
Theorem chromatic_adaptation_VonKries_same_white
    (XYZ : ndarray Qc) (transform : string) (Mc : mat3 Qc) (w : vec3 Qc) :
  wf XYZ -> last (shape XYZ) = Some 3%nat ->
  cim_get reg transform = Some Mc ->
  det3 (A:=exact) Mc <> 0 ->
  nonzero3 (mat_vec (A:=exact) Mc w) ->
  chromatic_adaptation_VonKries_vectorise (A:=exact) reg XYZ
    (array_of_vec3 w) (array_of_vec3 w) transform
  = Ok XYZ.
Proof.
  intros Hwf Hlast Hreg Hdet Hw.
  destruct (np_linalg_inv_returns Mc Hdet) as [Mci Hinv].
  destruct (np_linalg_inv_exact Mc Mci Hinv) as [Hl Hr].
  pose proof Hwf as Hlen. unfold wf in Hlen.
  rewrite (size_of_last3 _ Hlast) in Hlen.
  set (n := size_of (removelast (shape XYZ))) in *.
  etransitivity.
  - apply (chromatic_adaptation_VonKries_vectorise_rows (A:=exact) reg
             XYZ n w w transform Mc Mci); assumption.
  - change (num exact) with Qc in *.
    rewrite (von_kries_same Mc Mci w Hl Hw).
    rewrite (map_ext _ (fun v => v)) by (intros v; apply mat_vec_identity).
    rewrite map_id. apply (np_reshape_rows3 (A:=exact) XYZ n Hwf Hlen).
Qed.

(** X11.  Over the rationals, adapting an array from white [w] to white
    [wr] and the result back from [wr] to [w] returns the array. *)
Theorem chromatic_adaptation_VonKries_roundtrip
    (XYZ : ndarray Qc) (transform : string) (Mc : mat3 Qc) (w wr : vec3 Qc) :
  wf XYZ -> last (shape XYZ) = Some 3%nat ->
  cim_get reg transform = Some Mc ->
  det3 (A:=exact) Mc <> 0 ->
  nonzero3 (mat_vec (A:=exact) Mc w) ->
  nonzero3 (mat_vec (A:=exact) Mc wr) ->
  exists XYZ_a,
    chromatic_adaptation_VonKries_vectorise (A:=exact) reg XYZ
      (array_of_vec3 w) (array_of_vec3 wr) transform = Ok XYZ_a /\
    chromatic_adaptation_VonKries_vectorise (A:=exact) reg XYZ_a
      (array_of_vec3 wr) (array_of_vec3 w) transform = Ok XYZ.
Proof.
  intros Hwf Hlast Hreg Hdet Hw Hwr.
  destruct (np_linalg_inv_returns Mc Hdet) as [Mci Hinv].
  destruct (np_linalg_inv_exact Mc Mci Hinv) as [Hl Hr].
  pose proof Hwf as Hlen. unfold wf in Hlen.
  pose proof (size_of_last3 _ Hlast) as Hsz. rewrite Hsz in Hlen.
  set (n := size_of (removelast (shape XYZ))) in *.
  pose proof (chromatic_adaptation_VonKries_vectorise_rows (A:=exact) reg
                XYZ n w wr transform Mc Mci Hlen Hreg Hinv) as E1.
  match type of E1 with context [ravel3 ?r] => set (rows := r) in E1 end.
  assert (Hrows : length (ravel3 rows) = size_of (shape XYZ)).
  { rewrite length_ravel3. unfold rows. rewrite List.length_map.
    change (num exact) with Qc.
    rewrite (length_rows3 n _ Hlen). symmetry. exact Hsz. }
  eexists. split; [exact (eq_trans E1 (np_reshape_explicit _ _ Hrows))|].
  assert (Hn : length (data (NDArray (shape XYZ) (ravel3 rows))) = (3 * n)%nat).
  { cbn [data]. rewrite Hrows. exact Hsz. }
  pose proof (chromatic_adaptation_VonKries_vectorise_rows (A:=exact) reg
                _ n wr w transform Mc Mci Hn Hreg Hinv) as E2.
  etransitivity; [exact E2|]. clear E1 E2.
  cbn [data shape]. change (num exact) with Qc in *.
  rewrite rows3_ravel3. unfold rows. rewrite map_map.
  rewrite (map_ext _ (fun v => v)).
  - rewrite map_id. apply (np_reshape_rows3 (A:=exact) XYZ n Hwf Hlen).
  - intros v. rewrite mat_vec_mat_mul.
    rewrite (von_kries_cancel Mc Mci) by assumption.
    apply mat_vec_identity.
Qed.

(** X12.  Over the rationals, converting RGB values from a colourspace to
    the same colourspace returns them unchanged, for every well-formed
    array whose last axis is 3, when the RGB-to-XYZ matrix times the
    XYZ-to-RGB matrix of the colourspace is the identity and the transform
    is registered with an invertible cone matrix that gives the white of
    the colourspace non-zero cone responses. *)
Theorem RGB_to_RGB_same_colourspace
    (RGB : ndarray Qc) (W : Qc * Qc) (R X : mat3 Qc) (transform : string)
    (Mc : mat3 Qc) :
  wf RGB -> last (shape RGB) = Some 3%nat ->
  cim_get reg transform = Some Mc ->
  det3 (A:=exact) Mc <> 0 ->
  nonzero3 (mat_vec (A:=exact) Mc (white (A:=exact) W)) ->
  mat_mul (A:=exact) R X = identity3 ->
  let colourspace := {| whitepoint := array1 [W.1; W.2];
                        RGB_to_XYZ_matrix := R; XYZ_to_RGB_matrix := X |} in
  RGB_to_RGB_vectorise (A:=exact) reg RGB colourspace colourspace transform = Ok RGB.
Proof.
  intros Hwf Hlast Hreg Hdet Hw HRX colourspace.
  destruct (np_linalg_inv_returns Mc Hdet) as [Mci Hinv].
  destruct (np_linalg_inv_exact Mc Mci Hinv) as [Hl Hr].
  pose proof Hwf as Hlen. unfold wf in Hlen.
  rewrite (size_of_last3 _ Hlast) in Hlen.
  set (n := size_of (removelast (shape RGB))) in *.
  etransitivity.
  - apply (RGB_to_RGB_vectorise_rows (A:=exact) reg RGB n W W R X R X
             transform Mc Mci); assumption.
  - change (num exact) with Qc in *.
    rewrite (von_kries_same Mc Mci _ Hl Hw), mat_mul_identity_r, HRX.
    rewrite (map_ext _ (fun v => v)) by (intros v; apply mat_vec_identity).
    rewrite map_id. apply (np_reshape_rows3 (A:=exact) RGB n Hwf Hlen).
Qed.

(** X13.  Over the rationals, [RGB_to_RGB_vectorise] applies to every RGB
    triple first the XYZ-to-RGB matrix of the output colourspace, then the
    adaptation from the input white to the output white, then the
    RGB-to-XYZ matrix of the input colourspace. *)
Theorem RGB_to_RGB_matrix_order
    (RGB : ndarray Qc) (W1 W2 : Qc * Qc) (R1 X1 R2 X2 : mat3 Qc)
    (transform : string) (Mc Mci : mat3 Qc) :
  wf RGB -> last (shape RGB) = Some 3%nat ->
  cim_get reg transform = Some Mc ->
  np_linalg_inv (A:=exact) Mc = Ok Mci ->
  RGB_to_RGB_vectorise (A:=exact) reg RGB
    {| whitepoint := array1 [W1.1; W1.2];
       RGB_to_XYZ_matrix := R1; XYZ_to_RGB_matrix := X1 |}
    {| whitepoint := array1 [W2.1; W2.2];
       RGB_to_XYZ_matrix := R2; XYZ_to_RGB_matrix := X2 |}
    transform
  = Ok (NDArray (shape RGB)
          (ravel3 (map (fun v =>
                          mat_vec (A:=exact) R1
                            (mat_vec (A:=exact)
                               (von_kries Mc Mci (white (A:=exact) W1)
                                                 (white (A:=exact) W2))
                               (mat_vec (A:=exact) X2 v)))
                       (rows3 (data RGB))))).
Proof.
  intros Hwf Hlast Hreg Hinv.
  pose proof Hwf as Hlen. unfold wf in Hlen.
  pose proof (size_of_last3 _ Hlast) as Hsz. rewrite Hsz in Hlen.
  set (n := size_of (removelast (shape RGB))) in *.
  etransitivity.
  - apply (RGB_to_RGB_vectorise_rows (A:=exact) reg RGB n W1 W2 R1 X1 R2 X2
             transform Mc Mci); assumption.
  - change (num exact) with Qc in *.
    rewrite (map_ext _ (fun v =>
               mat_vec (A:=exact) R1
                 (mat_vec (A:=exact)
                    (von_kries Mc Mci (white (A:=exact) W1) (white (A:=exact) W2))
                    (mat_vec (A:=exact) X2 v))))
      by (intros v; rewrite !mat_vec_mat_mul; reflexivity).
    apply np_reshape_explicit.
    rewrite length_ravel3, List.length_map, (length_rows3 n _ Hlen).
    symmetry. exact Hsz.
Qed.
End Exact_adaptation.


Lemma BRADFORD_CAT_exact_det : det3 (A:=exact) BRADFORD_CAT_exact <> Q2Qc 0.
Proof. intros H. apply (f_equal this) in H. vm_compute in H. discriminate. Qed.

Ltac nonzero3_compute :=
  repeat split;
  let H := fresh in
  intros H; apply (f_equal this) in H; vm_compute in H; discriminate.

Lemma chromatic_adaptation_VonKries_white_sample :
  chromatic_adaptation_VonKries_vectorise (A:=exact) transforms_exact
    (array_of_vec3 (white (A:=exact) W_D50_exact))
    (array_of_vec3 (white (A:=exact) W_D50_exact))
    (array_of_vec3 (white (A:=exact) W_D65_exact)) "Bradford"
  = Ok (array_of_vec3 (white (A:=exact) W_D65_exact)).
Proof.
  apply (chromatic_adaptation_VonKries_white transforms_exact "Bradford"
           BRADFORD_CAT_exact).
  - reflexivity.
  - exact BRADFORD_CAT_exact_det.
  - nonzero3_compute.
Defined.

Lemma chromatic_adaptation_VonKries_same_white_sample :
  chromatic_adaptation_VonKries_vectorise (A:=exact) transforms_exact XYZ_sample_exact
    (array_of_vec3 (white (A:=exact) W_D50_exact))
    (array_of_vec3 (white (A:=exact) W_D50_exact)) "Bradford"
  = Ok XYZ_sample_exact.
Proof.
  apply (chromatic_adaptation_VonKries_same_white transforms_exact XYZ_sample_exact
           "Bradford" BRADFORD_CAT_exact).
  - reflexivity.
  - reflexivity.
  - reflexivity.
  - exact BRADFORD_CAT_exact_det.
  - nonzero3_compute.
Defined.

Lemma chromatic_adaptation_VonKries_roundtrip_sample :
  exists XYZ_a,
    chromatic_adaptation_VonKries_vectorise (A:=exact) transforms_exact XYZ_sample_exact
      (array_of_vec3 (white (A:=exact) W_D50_exact))
      (array_of_vec3 (white (A:=exact) W_D65_exact)) "Bradford" = Ok XYZ_a /\
    chromatic_adaptation_VonKries_vectorise (A:=exact) transforms_exact XYZ_a
      (array_of_vec3 (white (A:=exact) W_D65_exact))
      (array_of_vec3 (white (A:=exact) W_D50_exact)) "Bradford" = Ok XYZ_sample_exact.
Proof.
  apply (chromatic_adaptation_VonKries_roundtrip transforms_exact XYZ_sample_exact
           "Bradford" BRADFORD_CAT_exact).
  - reflexivity.
  - reflexivity.
  - reflexivity.
  - exact BRADFORD_CAT_exact_det.
  - nonzero3_compute.
  - nonzero3_compute.
Defined.

Lemma M_RGB_to_XYZ_exact_inverse :
  mat_mul (A:=exact) M_RGB_to_XYZ_exact M_XYZ_to_RGB_exact = identity3.
Proof.
  unfold M_RGB_to_XYZ_exact.
  destruct (np_linalg_inv (A:=exact) M_XYZ_to_RGB_exact) as [m|e] eqn:E.
  - apply (np_linalg_inv_exact _ _ E).
  - vm_compute in E. discriminate.
Qed.

Lemma RGB_to_RGB_same_colourspace_sample :
  RGB_to_RGB_vectorise (A:=exact) transforms_exact XYZ_sample_exact
    sRGB_exact sRGB_exact "Bradford"
  = Ok XYZ_sample_exact.
Proof.
  apply (RGB_to_RGB_same_colourspace transforms_exact XYZ_sample_exact W_D65_exact
           M_RGB_to_XYZ_exact M_XYZ_to_RGB_exact "Bradford" BRADFORD_CAT_exact).
  - reflexivity.
  - reflexivity.
  - reflexivity.
  - exact BRADFORD_CAT_exact_det.
  - nonzero3_compute.
  - exact M_RGB_to_XYZ_exact_inverse.
Defined.

Lemma RGB_to_RGB_matrix_order_sample :
  RGB_to_RGB_vectorise (A:=exact) transforms_exact XYZ_sample_exact
    sRGB_exact sRGB_exact "Bradford"
  = Ok (NDArray (shape XYZ_sample_exact)
          (ravel3 (map (fun v =>
                          mat_vec (A:=exact) M_RGB_to_XYZ_exact
                            (mat_vec (A:=exact)
                               (von_kries BRADFORD_CAT_exact BRADFORD_CAT_exact_inverse
                                  (white (A:=exact) W_D65_exact)
                                  (white (A:=exact) W_D65_exact))
                               (mat_vec (A:=exact) M_XYZ_to_RGB_exact v)))
                       (rows3 (data XYZ_sample_exact))))).
Proof.
  apply (RGB_to_RGB_matrix_order transforms_exact XYZ_sample_exact
           W_D65_exact W_D65_exact M_RGB_to_XYZ_exact M_XYZ_to_RGB_exact
           M_RGB_to_XYZ_exact M_XYZ_to_RGB_exact "Bradford"
           BRADFORD_CAT_exact BRADFORD_CAT_exact_inverse).
  - reflexivity.
  - reflexivity.
  - reflexivity.
  - vm_compute. reflexivity.
Defined.


(* ===================================================================== *)
(** ** XYZ, xyY and xy: round trips *)
(* ===================================================================== *)

Section Adaptation_xy_rows.
Context {A : Arith}.

Lemma XYZ_to_xy_vectorise_single (X Y Z ix iy : A) :
  XYZ_to_xy_vectorise (array1 [X; Y; Z]) (array1 [ix; iy])
  = Ok (array1 [(XYZ_to_xyY_row (ix, iy, ix) (X, Y, Z)).1.1;
                (XYZ_to_xyY_row (ix, iy, ix) (X, Y, Z)).1.2]).
Proof.
  unfold XYZ_to_xy_vectorise. rewrite XYZ_to_xyY_vectorise_single.
  cbn [mbind result_bind].
  destruct (XYZ_to_xyY_row (ix, iy, ix) (X, Y, Z)) as [[x y] Y']. reflexivity.
Qed.
End Adaptation_xy_rows.

Section Exact_xyY.
Local Open Scope Qc_scope.

Ltac exact_arith := cbn [num zero one add sub mul div eqb exact] in *.
Ltac decide_eqb :=
  repeat match goal with
  | H : ?a <> ?b |- context [bool_decide (?a = ?b)] =>
      rewrite (bool_decide_eq_false_2 (a = b) H)
  | |- context [bool_decide (?a = ?a)] =>
      rewrite (bool_decide_eq_true_2 (a = a) eq_refl)
  end.

Lemma array3_eq {T} (a b c a' b' c' : T) :
  a = a' -> b = b' -> c = c' ->
  Ok (array_of_vec3 (a, b, c)) = Ok (array1 [a'; b'; c']).
Proof. intros -> -> ->. reflexivity. Qed.

Lemma Qcdiv_nonzero (a b : Qc) : a <> 0 -> b <> 0 -> a / b <> 0.
Proof.
  intros Ha Hb H. apply Ha.
  replace a with (a / b * b) by (field; exact Hb). rewrite H. ring.
Qed.

(** X14.  Over the rationals, for one colour: XYZ to xyY and back returns
    XYZ when [X], [Y] and [X + Y + Z] are non-zero, and at black
    [(0, 0, 0)] whatever the illuminant; but when [X = 0] with [Y] and
    [Y + Z] non-zero the trip puts [ix * (Y + Z)] in the place of [X],
    [ix] being the [x] of the illuminant. *)
Theorem XYZ_xyY_roundtrip (X Y Z ix iy : Qc) :
  (X <> 0 -> Y <> 0 -> X + Y + Z <> 0 ->
   exists xyY,
     XYZ_to_xyY_vectorise (A:=exact) (array1 [X; Y; Z]) (array1 [ix; iy]) = Ok xyY /\
     xyY_to_XYZ_vectorise (A:=exact) xyY = Ok (array1 [X; Y; Z])) /\
  (exists xyY,
     XYZ_to_xyY_vectorise (A:=exact) (array1 [0; 0; 0]) (array1 [ix; iy]) = Ok xyY /\
     xyY_to_XYZ_vectorise (A:=exact) xyY = Ok (array1 [0; 0; 0])) /\
  (Y <> 0 -> Y + Z <> 0 ->
   exists xyY,
     XYZ_to_xyY_vectorise (A:=exact) (array1 [0; Y; Z]) (array1 [ix; iy]) = Ok xyY /\
     xyY_to_XYZ_vectorise (A:=exact) xyY
     = Ok (array1 [ix * (Y + Z); Y; (1 - ix) * (Y + Z) - Y])).
Proof.
  split; [|split].
  - intros HX HY HS. eexists. split; [apply XYZ_to_xyY_vectorise_single|].
    unfold XYZ_to_xyY_row. exact_arith. decide_eqb.
    etransitivity; [apply (xyY_to_XYZ_vectorise_single (A:=exact))|].
    unfold xyY_to_XYZ_row. exact_arith.
    pose proof (Qcdiv_nonzero Y (X + Y + Z) HY HS) as Hy. decide_eqb.
    apply array3_eq; cbn [fst snd]; field; repeat split; auto.
  - eexists. split; [apply XYZ_to_xyY_vectorise_single|].
    unfold XYZ_to_xyY_row. exact_arith. decide_eqb.
    etransitivity; [apply (xyY_to_XYZ_vectorise_single (A:=exact))|].
    unfold xyY_to_XYZ_row. exact_arith.
    destruct (decide (iy = 0)) as [->|E]; decide_eqb.
    + reflexivity.
    + apply array3_eq; cbn [fst snd]; field; repeat split; auto.
  - intros HY HS. eexists. split; [apply XYZ_to_xyY_vectorise_single|].
    unfold XYZ_to_xyY_row. exact_arith. decide_eqb.
    etransitivity; [apply (xyY_to_XYZ_vectorise_single (A:=exact))|].
    unfold xyY_to_XYZ_row. exact_arith.
    assert (HS' : 0 + Y + Z <> 0) by (intros H; apply HS; rewrite <- H; ring).
    pose proof (Qcdiv_nonzero Y (0 + Y + Z) HY HS') as Hy. decide_eqb.
    apply array3_eq; cbn [fst snd]. all: field; auto.
Qed.
(** X15.  Over the rationals, for one colour with [x], [y] and [Y]
    non-zero: xyY to XYZ and back returns xyY, whatever the illuminant. *)
Theorem xyY_XYZ_roundtrip (x y Y ix iy : Qc) :
  x <> 0 -> y <> 0 -> Y <> 0 ->
  exists XYZ,
    xyY_to_XYZ_vectorise (A:=exact) (array1 [x; y; Y]) = Ok XYZ /\
    XYZ_to_xyY_vectorise (A:=exact) XYZ (array1 [ix; iy]) = Ok (array1 [x; y; Y]).
Proof.
  intros Hx Hy HY. eexists. split; [apply xyY_to_XYZ_vectorise_single|].
  unfold xyY_to_XYZ_row. exact_arith. decide_eqb.
  etransitivity; [apply (XYZ_to_xyY_vectorise_single (A:=exact))|].
  unfold XYZ_to_xyY_row. exact_arith.
  assert (HX : x * Y / y <> 0).
  { apply Qcdiv_nonzero; [|exact Hy]. intros H.
    destruct (Qcmult_integral _ _ H); contradiction. }
  decide_eqb.
  cbn [fst snd].
  replace (x * Y / y + Y + (1 - x - y) * Y / y) with (Y / y) by (field; exact Hy).
  apply array3_eq; field; repeat split; auto.
Qed.

(** X16.  Over the rationals, for one colour with [X], [Y] and
    [X + Y + Z] non-zero: [XYZ_to_xy] returns the two chromaticity
    coordinates [X / (X + Y + Z)] and [Y / (X + Y + Z)] as an array of
    shape [(2,)], and [xy_to_XYZ] of them is XYZ scaled to luminance 1. *)
Theorem XYZ_xy_roundtrip_normalises (X Y Z ix iy : Qc) :
  X <> 0 -> Y <> 0 -> X + Y + Z <> 0 ->
  XYZ_to_xy_vectorise (A:=exact) (array1 [X; Y; Z]) (array1 [ix; iy])
  = Ok (array1 [X / (X + Y + Z); Y / (X + Y + Z)]) /\
  xy_to_XYZ_vectorise (A:=exact) (array1 [X / (X + Y + Z); Y / (X + Y + Z)])
  = Ok (array1 [X / Y; 1; Z / Y]).
Proof.
  intros HX HY HS. split.
  - etransitivity; [apply (XYZ_to_xy_vectorise_single (A:=exact))|].
    unfold XYZ_to_xyY_row. exact_arith. decide_eqb. reflexivity.
  - etransitivity; [apply (xy_to_XYZ_vectorise_single (A:=exact))|].
    unfold xyY_to_XYZ_row. exact_arith.
    pose proof (Qcdiv_nonzero Y (X + Y + Z) HY HS) as Hy. decide_eqb.
    apply array3_eq; cbn [fst snd]; field; repeat split; auto.
Qed.
End Exact_xyY.

Lemma XYZ_xyY_roundtrip_sample :
  (exists xyY,
     XYZ_to_xyY_vectorise (A:=exact) XYZ_sample_exact
       (array1 [W_D50_exact.1; W_D50_exact.2]) = Ok xyY /\
     xyY_to_XYZ_vectorise (A:=exact) xyY = Ok XYZ_sample_exact) /\
  (exists xyY,
     XYZ_to_xyY_vectorise (A:=exact) (array1 [Q2Qc 0; Q2Qc 1; Q2Qc 1])
       (array1 [W_D50_exact.1; W_D50_exact.2]) = Ok xyY /\
     xyY_to_XYZ_vectorise (A:=exact) xyY
     = Ok (array1 [W_D50_exact.1 * (Q2Qc 1 + Q2Qc 1); Q2Qc 1;
                   (Q2Qc 1 - W_D50_exact.1) * (Q2Qc 1 + Q2Qc 1) - Q2Qc 1]%Qc)).
Proof.
  split.
  - apply (proj1 (XYZ_xyY_roundtrip (decimal 7049534 100000000) (decimal 1008 10000)
                    (decimal 9558313 100000000) W_D50_exact.1 W_D50_exact.2));
      intros H; apply (f_equal this) in H; vm_compute in H; discriminate.
  - apply (proj2 (proj2 (XYZ_xyY_roundtrip (Q2Qc 0) (Q2Qc 1) (Q2Qc 1)
                           W_D50_exact.1 W_D50_exact.2)));
      intros H; apply (f_equal this) in H; vm_compute in H; discriminate.
Defined.

Lemma xyY_XYZ_roundtrip_sample :
  exists XYZ,
    xyY_to_XYZ_vectorise (A:=exact)
      (array1 [W_D50_exact.1; W_D50_exact.2; Q2Qc 1]) = Ok XYZ /\
    XYZ_to_xyY_vectorise (A:=exact) XYZ (array1 [W_D65_exact.1; W_D65_exact.2])
    = Ok (array1 [W_D50_exact.1; W_D50_exact.2; Q2Qc 1]).
Proof.
  apply (xyY_XYZ_roundtrip W_D50_exact.1 W_D50_exact.2 (Q2Qc 1)
           W_D65_exact.1 W_D65_exact.2);
    intros H; apply (f_equal this) in H; vm_compute in H; discriminate.
Defined.

Lemma XYZ_xy_roundtrip_normalises_sample :
  XYZ_to_xy_vectorise (A:=exact) (array1 [Q2Qc 1; Q2Qc 2; Q2Qc 1])
    (array1 [W_D50_exact.1; W_D50_exact.2])
  = Ok (array1 [Q2Qc 1 / (Q2Qc 1 + Q2Qc 2 + Q2Qc 1);
                Q2Qc 2 / (Q2Qc 1 + Q2Qc 2 + Q2Qc 1)]%Qc) /\
  xy_to_XYZ_vectorise (A:=exact)
    (array1 [Q2Qc 1 / (Q2Qc 1 + Q2Qc 2 + Q2Qc 1);
             Q2Qc 2 / (Q2Qc 1 + Q2Qc 2 + Q2Qc 1)]%Qc)
  = Ok (array1 [Q2Qc 1 / Q2Qc 2; Q2Qc 1; Q2Qc 1 / Q2Qc 2]%Qc).
Proof.
  apply (XYZ_xy_roundtrip_normalises (Q2Qc 1) (Q2Qc 2) (Q2Qc 1)
           W_D50_exact.1 W_D50_exact.2);
    intros H; apply (f_equal this) in H; vm_compute in H; discriminate.
Defined.


(* ===================================================================== *)
(** ** CIE UCS, CMY and CMYK: round trips *)
(* ===================================================================== *)

(** Two functions that work row by row, with row formulas inverse to each
    other, are inverse to each other on every array whose last axis is 3. *)
Lemma rowwise_roundtrip {A : Arith} (f f' : ndarray A -> result (ndarray A))
    (g g' : vec3 A -> vec3 A) :
  (forall x n, length (data x) = 3 * n ->
     f x = np_reshape (ravel3 (map g (rows3 (data x)))) (map Z.of_nat (shape x))) ->
  (forall x n, length (data x) = 3 * n ->
     f' x = np_reshape (ravel3 (map g' (rows3 (data x)))) (map Z.of_nat (shape x))) ->
  (forall v, g' (g v) = v) ->
  forall x, wf x -> last (shape x) = Some 3%nat ->
  exists y, f x = Ok y /\ f' y = Ok x.
Proof.
  intros Hf Hf' Hg x Hwf Hlast.
  pose proof Hwf as Hlen. unfold wf in Hlen.
  pose proof (size_of_last3 _ Hlast) as Hsz. rewrite Hsz in Hlen.
  set (n := size_of (removelast (shape x))) in *.
  assert (Hrows : length (ravel3 (map g (rows3 (data x)))) = size_of (shape x)).
  { rewrite length_ravel3, List.length_map, (length_rows3 n _ Hlen).
    symmetry. exact Hsz. }
  exists (NDArray (shape x) (ravel3 (map g (rows3 (data x))))). split.
  - rewrite (Hf x n Hlen). apply np_reshape_explicit, Hrows.
  - rewrite (Hf' _ n) by (cbn [data]; rewrite Hrows; exact Hsz).
    cbn [data shape]. rewrite rows3_ravel3, map_map.
    rewrite (map_ext _ (fun v => v)) by exact Hg.
    rewrite map_id. apply (np_reshape_rows3 x n Hwf Hlen).
Qed.

Section UCS_rows.
Context {S : Signed}.

Lemma XYZ_to_UCS_vectorise_rows (XYZ : ndarray S) (n : nat) :
  length (data XYZ) = 3 * n ->
  XYZ_to_UCS_vectorise XYZ
  = np_reshape (ravel3 (map XYZ_to_UCS_row (rows3 (data XYZ))))
               (map Z.of_nat (shape XYZ)).
Proof.
  intros Hn. unfold XYZ_to_UCS_vectorise. rewrite (as_array3_ok _ n Hn).
  cbn [mbind result_bind]. unfold as_stack, as_shape. do 2 f_equal.
  induction (rows3 (data XYZ)) as [|[[X Y] Z] a IH]; [reflexivity|].
  cbn -[two three add sub mul div opp zero one]. rewrite <- IH. reflexivity.
Qed.

Lemma UCS_to_XYZ_vectorise_rows (UVW : ndarray S) (n : nat) :
  length (data UVW) = 3 * n ->
  UCS_to_XYZ_vectorise UVW
  = np_reshape (ravel3 (map UCS_to_XYZ_row (rows3 (data UVW))))
               (map Z.of_nat (shape UVW)).
Proof.
  intros Hn. unfold UCS_to_XYZ_vectorise. rewrite (as_array3_ok _ n Hn).
  cbn [mbind result_bind]. unfold as_stack, as_shape. do 2 f_equal.
  induction (rows3 (data UVW)) as [|[[U V] W] a IH]; [reflexivity|].
  cbn -[two three add sub mul div opp zero one]. rewrite <- IH. reflexivity.
Qed.

Lemma RGB_to_CMY_vectorise_rows (RGB : ndarray S) (n : nat) :
  length (data RGB) = 3 * n ->
  RGB_to_CMY_vectorise RGB
  = np_reshape
      (ravel3 (map (fun '(r, g, b) => (one - r, one - g, one - b)%num)
                   (rows3 (data RGB))))
      (map Z.of_nat (shape RGB)).
Proof.
  intros Hn. unfold RGB_to_CMY_vectorise. rewrite (as_array3_ok _ n Hn).
  reflexivity.
Qed.

Lemma CMY_to_RGB_vectorise_rows (CMY : ndarray S) (n : nat) :
  length (data CMY) = 3 * n ->
  CMY_to_RGB_vectorise CMY
  = np_reshape
      (ravel3 (map (fun '(r, g, b) => (one - r, one - g, one - b)%num)
                   (rows3 (data CMY))))
      (map Z.of_nat (shape CMY)).
Proof.
  intros Hn. unfold CMY_to_RGB_vectorise. rewrite (as_array3_ok _ n Hn).
  reflexivity.
Qed.

Lemma XYZ_to_UCS_vectorise_single (X Y Z : S) :
  XYZ_to_UCS_vectorise (array1 [X; Y; Z])
  = Ok (array_of_vec3 (XYZ_to_UCS_row (X, Y, Z))).
Proof. rewrite (XYZ_to_UCS_vectorise_rows _ 1) by reflexivity. reflexivity. Qed.

Lemma UCS_to_uv_vectorise_single (U V W : S) :
  UCS_to_uv_vectorise (array1 [U; V; W])
  = Ok (array1 [U / (U + V + W); V / (U + V + W)]%num).
Proof. reflexivity. Qed.

Lemma UCS_uv_to_xy_vectorise_single (u v : S) :
  UCS_uv_to_xy_vectorise (array1 [u; v])
  = Ok (array1 [three * u / (two * u - eight * v + four);
                two * v / (two * u - eight * v + four)]%num).
Proof. reflexivity. Qed.

Lemma CMY_to_CMYK_vectorise_single (C M Y : S) :
  CMY_to_CMYK_vectorise (array1 [C; M; Y])
  = Ok (array1 (CMY_to_CMYK_row (C, M, Y))).
Proof. reflexivity. Qed.

Lemma CMYK_to_CMY_vectorise_single (C M Y K : S) :
  CMYK_to_CMY_vectorise (array1 [C; M; Y; K])
  = Ok (array1 [C * (one - K) + K; M * (one - K) + K; Y * (one - K) + K]%num).
Proof. reflexivity. Qed.
End UCS_rows.

Section Exact_UCS.
Local Open Scope Qc_scope.

Ltac signed_arith :=
  cbn [arith opp ltb exact_signed num zero one add sub mul div eqb exact] in *.

(** X17.  Over the rationals, XYZ to CIE UCS and back returns the array,
    for every array whose last axis is 3. *)
Theorem XYZ_UCS_roundtrip (XYZ : ndarray Qc) :
  wf XYZ -> last (shape XYZ) = Some 3%nat ->
  exists UVW,
    XYZ_to_UCS_vectorise (S:=exact_signed) XYZ = Ok UVW /\
    UCS_to_XYZ_vectorise (S:=exact_signed) UVW = Ok XYZ.
Proof.
  apply (rowwise_roundtrip (A:=exact) _ _
           (XYZ_to_UCS_row (S:=exact_signed)) (UCS_to_XYZ_row (S:=exact_signed))).
  - apply (XYZ_to_UCS_vectorise_rows (S:=exact_signed)).
  - apply (UCS_to_XYZ_vectorise_rows (S:=exact_signed)).
  - intros [[X Y] Z]. unfold XYZ_to_UCS_row, UCS_to_XYZ_row, three, two.
    signed_arith. repeat apply (f_equal2 pair); field; nonzero3_compute.
Qed.

(** X18.  Over the rationals, RGB to CMY and back returns the array, for
    every array whose last axis is 3. *)
Theorem RGB_CMY_roundtrip (RGB : ndarray Qc) :
  wf RGB -> last (shape RGB) = Some 3%nat ->
  exists CMY,
    RGB_to_CMY_vectorise (S:=exact_signed) RGB = Ok CMY /\
    CMY_to_RGB_vectorise (S:=exact_signed) CMY = Ok RGB.
Proof.
  apply (rowwise_roundtrip (A:=exact) _ _
           (fun '(r, g, b) => (1 - r, 1 - g, 1 - b))
           (fun '(r, g, b) => (1 - r, 1 - g, 1 - b))).
  - apply (RGB_to_CMY_vectorise_rows (S:=exact_signed)).
  - apply (CMY_to_RGB_vectorise_rows (S:=exact_signed)).
  - intros [[r g] b]. cbv beta iota. signed_arith.
    repeat apply (f_equal2 pair); ring.
Qed.
Lemma UCS_uv_xy_algebra (X Y Z : Qc) :
  X + Y + Z <> 0 ->
  X + (1 + 1 + 1) * (1 + 1 + 1 + 1 + 1) * Y + (1 + 1 + 1) * Z <> 0 ->
  let U := (1 + 1) / (1 + 1 + 1) * X in
  let W := 1 / (1 + 1) * (- X + (1 + 1 + 1) * Y + Z) in
  let u := U / (U + Y + W) in
  let v := Y / (U + Y + W) in
  let d := (1 + 1) * u - (1 + 1 + (1 + 1) + (1 + 1 + (1 + 1))) * v + (1 + 1 + (1 + 1)) in
  (1 + 1 + 1) * u / d = X / (X + Y + Z) /\
  (1 + 1) * v / d = Y / (X + Y + Z).
Proof.
  intros HS HD U W u v d.
  set (D := X + (1 + 1 + 1) * (1 + 1 + 1 + 1 + 1) * Y + (1 + 1 + 1) * Z) in *.
  assert (Hden : U + Y + W = D / ((1 + 1) * (1 + 1 + 1)))
    by (unfold U, W, D; field; nonzero3_compute).
  assert (Hu : u = (1 + 1 + 1 + 1) * X / D)
    by (unfold u; rewrite Hden; unfold U; field; split; [exact HD | nonzero3_compute]).
  assert (Hv : v = (1 + 1) * (1 + 1 + 1) * Y / D)
    by (unfold v; rewrite Hden; field; split; [exact HD | nonzero3_compute]).
  assert (Hd : d = (1 + 1 + 1) * (1 + 1 + 1 + 1) * (X + Y + Z) / D)
    by (unfold d; rewrite Hu, Hv; unfold D; field; exact HD).
  rewrite Hd, Hu, Hv.
  split; field; repeat split; auto; nonzero3_compute.
Qed.

(** X19.  Over the rationals, for one colour with [X], [Y], [X + Y + Z]
    and [X + 15 Y + 3 Z] non-zero: going from XYZ through CIE UCS and its
    [uv] chromaticity to [xy] gives what [XYZ_to_xy] gives directly. *)
Theorem XYZ_UCS_uv_xy (X Y Z ix iy : Qc) :
  X <> 0 -> Y <> 0 -> X + Y + Z <> 0 -> X + Q2Qc 15 * Y + Q2Qc 3 * Z <> 0 ->
  exists UVW uv,
    XYZ_to_UCS_vectorise (S:=exact_signed) (array1 [X; Y; Z]) = Ok UVW /\
    UCS_to_uv_vectorise (S:=exact_signed) UVW = Ok uv /\
    UCS_uv_to_xy_vectorise (S:=exact_signed) uv
    = XYZ_to_xy_vectorise (A:=exact) (array1 [X; Y; Z]) (array1 [ix; iy]).
Proof.
  intros HX HY HS HD.
  assert (E3 : Q2Qc 3 = 1 + 1 + 1) by (apply Qc_is_canon; reflexivity).
  assert (E15 : Q2Qc 15 = (1 + 1 + 1) * (1 + 1 + 1 + 1 + 1))
    by (apply Qc_is_canon; reflexivity).
  rewrite E3, E15 in HD.
  destruct (UCS_uv_xy_algebra X Y Z HS HD) as [Ex Ey].
  set (U := (1 + 1) / (1 + 1 + 1) * X) in *.
  set (W := 1 / (1 + 1) * (- X + (1 + 1 + 1) * Y + Z)) in *.
  exists (array1 [U; Y; W]), (array1 [U / (U + Y + W); Y / (U + Y + W)]).
  split; [|split].
  - apply (XYZ_to_UCS_vectorise_single (S:=exact_signed)).
  - apply (UCS_to_uv_vectorise_single (S:=exact_signed)).
  - rewrite (XYZ_to_xy_vectorise_single (A:=exact)).
    unfold XYZ_to_xyY_row. cbn [num zero one add sub mul div eqb exact].
    rewrite (bool_decide_eq_false_2 _ HX), (bool_decide_eq_false_2 _ HY).
    cbn [fst snd]. rewrite <- Ex, <- Ey.
    apply (UCS_uv_to_xy_vectorise_single (S:=exact_signed)).
Qed.

Lemma CMYK_to_CMY_exact (C M Y K : Qc) :
  CMYK_to_CMY_vectorise (S:=exact_signed) (array1 [C; M; Y; K])
  = Ok (array_of_vec3 (C * (1 - K) + K, M * (1 - K) + K, Y * (1 - K) + K)).
Proof. reflexivity. Qed.

Lemma Qc_one_minus_nonzero (k : Qc) : k <> 1 -> 1 - k <> 0.
Proof.
  intros Hk E. apply Hk. replace k with (1 - (1 - k)) by ring. rewrite E. ring.
Qed.

Lemma least_lt_1 (a k : Qc) :
  a < 1 \/ k < 1 -> least (S:=exact_signed) a k < 1.
Proof.
  unfold least. signed_arith. intros H.
  destruct (bool_decide (a < k)) eqn:E.
  - apply bool_decide_eq_true in E. destruct H as [H|H]; [exact H|].
    eapply Qclt_trans; eassumption.
  - apply bool_decide_eq_false in E. apply Qcnot_lt_le in E.
    destruct H as [H|H]; [|exact H]. eapply Qcle_lt_trans; eassumption.
Qed.

Lemma least_1 (a : Qc) : ~ a < 1 -> least (S:=exact_signed) a 1 = 1.
Proof.
  intros H. unfold least. signed_arith.
  rewrite (bool_decide_eq_false_2 _ H). reflexivity.
Qed.

(** X20.  Over the rationals, for one colour: CMY to CMYK and back returns
    CMY when one of [C], [M], [Y] is below 1; when none is, the black
    component is 1, CMYK is [(0, 0, 0, 1)] and the way back gives
    [(1, 1, 1)]. *)
Theorem CMY_CMYK_roundtrip (C M Y : Qc) :
  (C < 1 \/ M < 1 \/ Y < 1 ->
   exists CMYK,
     CMY_to_CMYK_vectorise (S:=exact_signed) (array1 [C; M; Y]) = Ok CMYK /\
     CMYK_to_CMY_vectorise (S:=exact_signed) CMYK = Ok (array1 [C; M; Y])) /\
  (~ C < 1 -> ~ M < 1 -> ~ Y < 1 ->
   CMY_to_CMYK_vectorise (S:=exact_signed) (array1 [C; M; Y])
   = Ok (array1 [0; 0; 0; 1]) /\
   CMYK_to_CMY_vectorise (S:=exact_signed) (array1 [0; 0; 0; 1])
   = Ok (array1 [1; 1; 1])).
Proof.
  split.
  - intros H.
    eexists. split; [apply (CMY_to_CMYK_vectorise_single (S:=exact_signed))|].
    unfold CMY_to_CMYK_row. signed_arith.
    match goal with |- context [bool_decide (?k = 1)] => set (K := k) in * end.
    assert (HK : K < 1).
    { unfold K. apply least_lt_1.
      destruct H as [H|[H|H]]; [right|right|left; exact H].
      - apply least_lt_1. right. apply least_lt_1. left. exact H.
      - apply least_lt_1. left. exact H. }
    clearbody K. change (num exact) with Qc in *.
    assert (HK1 : K <> 1)
      by (intros E; rewrite E in HK; apply (Qclt_not_eq _ _ HK); reflexivity).
    pose proof (Qc_one_minus_nonzero K HK1) as HK0.
    rewrite (bool_decide_eq_false_2 _ HK1).
    etransitivity; [apply CMYK_to_CMY_exact|].
    apply (array3_eq (T:=Qc)); field; exact HK0.
  - intros HC HM HY. split.
    + rewrite (CMY_to_CMYK_vectorise_single (S:=exact_signed)).
      unfold CMY_to_CMYK_row. signed_arith.
      rewrite (least_1 C HC), (least_1 M HM), (least_1 Y HY).
      rewrite (bool_decide_eq_true_2 _ eq_refl). reflexivity.
    + rewrite CMYK_to_CMY_exact. apply (array3_eq (T:=Qc)); ring.
Qed.
End Exact_UCS.


(* ===================================================================== *)
(** ** The shape contract of the UCS and CMY functions, on every backend *)
(* ===================================================================== *)

Lemma known_size_app (a b : list Z) :
  known_size (a ++ b) = (known_size a * known_size b)%Z.
Proof.
  unfold known_size. induction a as [|d a IH]; cbn [app foldr]; [lia|].
  fold (known_size (a ++ b)) in *. fold (known_size a) in *.
  destruct (d =? -1)%Z; rewrite IH; lia.
Qed.

(** [reshape] to the leading axes with a last axis of [-1]. *)
Lemma resolve_shape_auto_axis (s : list nat) (k n : nat) :
  0 < size_of (removelast s) ->
  n = size_of (removelast s) * k ->
  resolve_shape n (auto_axis s) = Some (removelast s ++ [k]).
Proof.
  intros Hpos ->. unfold resolve_shape, auto_axis.
  set (r := removelast s) in *.
  rewrite existsb_app, no_negative_of_nat.
  rewrite List.filter_app, no_unknown_of_nat.
  rewrite known_size_app, known_size_of_nat.
  cbn [existsb orb List.filter app length known_size foldr].
  change (-1 <? -1)%Z with false. change (-1 =? -1)%Z with true.
  cbn [orb length]. rewrite Z.mul_1_r.
  rewrite (proj2 (Z.ltb_lt 0 (Z.of_nat (size_of r)))) by lia.
  rewrite Nat2Z.inj_mul, Z.mul_comm, Z.mod_mul by lia.
  cbn [andb Z.eqb]. f_equal.
  rewrite map_app, map_map. f_equal.
  - rewrite <- (map_id r) at 2. apply map_ext. intros d.
    destruct (Z.eqb_spec (Z.of_nat d) (-1)); lia.
  - cbn [map]. change (-1 =? -1)%Z with true.
    rewrite Z.div_mul by lia. rewrite Nat2Z.id. reflexivity.
Qed.

Lemma np_reshape_auto_axis {T} (l : list T) (s : list nat) (k : nat) :
  0 < size_of (removelast s) ->
  length l = size_of (removelast s) * k ->
  np_reshape l (auto_axis s) = Ok (NDArray (removelast s ++ [k]) l).
Proof.
  intros Hpos Hl. unfold np_reshape.
  rewrite (resolve_shape_auto_axis s k _ Hpos Hl). reflexivity.
Qed.

Lemma length_ravel2 {T} (a : list (T * T)) : length (ravel2 a) = 2 * length a.
Proof.
  unfold ravel2. induction a as [|r a IH]; simpl in *; [reflexivity | lia].
Qed.

Lemma length_ravel4 {T} (a : list (T * T * T * T)) :
  length (ravel4 a) = 4 * length a.
Proof.
  unfold ravel4. induction a as [|r a IH]; simpl in *; [reflexivity | lia].
Qed.

Lemma length_dstack4 {T} (a : list T) : forall b c d : list T,
  length (dstack4 a b c d)
  = Nat.min (length a) (Nat.min (length b) (Nat.min (length c) (length d))).
Proof.
  induction a as [|x a IH]; intros [|y b] [|z c] [|w d]; simpl; try reflexivity.
  rewrite IH. reflexivity.
Qed.

Section Shape_contract.
Context {S : Signed}.

Lemma rowwise_shape (f : ndarray S -> result (ndarray S)) (g : vec3 S -> vec3 S) :
  (forall x n, length (data x) = 3 * n ->
     f x = np_reshape (ravel3 (map g (rows3 (data x)))) (map Z.of_nat (shape x))) ->
  forall x, wf x -> last (shape x) = Some 3%nat ->
  exists y, f x = Ok y /\ shape y = shape x /\ wf y.
Proof.
  intros Hf x Hwf Hlast. unfold wf in Hwf.
  pose proof (size_of_last3 _ Hlast) as Hsz. rewrite Hsz in Hwf.
  rewrite (Hf x _ Hwf). apply np_reshape_rows.
  rewrite List.length_map, (length_rows3 _ _ Hwf). exact Hsz.
Qed.

(** X22.  On every arithmetic backend, binary64 included, the conversions
    between XYZ and CIE UCS and between RGB and CMY return an array of the
    shape of their argument, for every array whose last axis is 3. *)
Theorem UCS_CMY_shape (x : ndarray S) :
  wf x -> last (shape x) = Some 3%nat ->
  (exists y, XYZ_to_UCS_vectorise x = Ok y /\ shape y = shape x /\ wf y) /\
  (exists y, UCS_to_XYZ_vectorise x = Ok y /\ shape y = shape x /\ wf y) /\
  (exists y, RGB_to_CMY_vectorise x = Ok y /\ shape y = shape x /\ wf y) /\
  (exists y, CMY_to_RGB_vectorise x = Ok y /\ shape y = shape x /\ wf y).
Proof.
  intros Hwf Hlast. split; [|split; [|split]].
  - apply (rowwise_shape _ XYZ_to_UCS_row XYZ_to_UCS_vectorise_rows x Hwf Hlast).
  - apply (rowwise_shape _ UCS_to_XYZ_row UCS_to_XYZ_vectorise_rows x Hwf Hlast).
  - apply (rowwise_shape _ _ RGB_to_CMY_vectorise_rows x Hwf Hlast).
  - apply (rowwise_shape _ _ CMY_to_RGB_vectorise_rows x Hwf Hlast).
Qed.

(** X23.  On every arithmetic backend, for an array of shape [(.., 3)]
    with a non-empty batch: [UCS_to_uv] returns an array of shape
    [(.., 2)] and [CMY_to_CMYK] one of shape [(.., 4)]. *)
Theorem uv_CMYK_shape (x : ndarray S) :
  wf x -> last (shape x) = Some 3%nat -> 0 < size_of (removelast (shape x)) ->
  (exists y, UCS_to_uv_vectorise x = Ok y /\
             shape y = removelast (shape x) ++ [2] /\ wf y) /\
  (exists y, CMY_to_CMYK_vectorise x = Ok y /\
             shape y = removelast (shape x) ++ [4] /\ wf y).
Proof.
  intros Hwf Hlast Hpos. unfold wf in Hwf.
  pose proof (size_of_last3 _ Hlast) as Hsz. rewrite Hsz in Hwf.
  set (n := size_of (removelast (shape x))) in *.
  pose proof (length_rows3 n _ Hwf) as Hrows.
  assert (Hwf' : forall (k : nat) (l : list S), length l = n * k ->
            wf (NDArray (removelast (shape x) ++ [k]) l)).
  { intros k l Hl. unfold wf. cbn [data shape].
    rewrite size_of_app. cbn [size_of foldr]. fold n. lia. }
  split.
  - unfold UCS_to_uv_vectorise. rewrite (as_array3_ok _ n Hwf).
    cbn [mbind result_bind]. unfold as_stack2, as_shape.
    match goal with |- context [ravel2 ?r] => set (rows := r) end.
    assert (Hl : length (ravel2 rows) = n * 2).
    { rewrite length_ravel2. unfold rows, dstack2, np_div, np_add, col0, col1, col2.
      rewrite length_zip, !length_zip_with, !List.length_map, Hrows. lia. }
    eexists. split; [apply (np_reshape_auto_axis _ _ 2 Hpos Hl)|].
    split; [reflexivity | apply Hwf', Hl].
  - unfold CMY_to_CMYK_vectorise. rewrite (as_array3_ok _ n Hwf).
    cbn [mbind result_bind]. unfold as_stack4, as_shape.
    match goal with |- context [ravel4 ?r] => set (rows := r) end.
    assert (Hl : length (ravel4 rows) = n * 4).
    { rewrite length_ravel4. unfold rows, setitem_mask, np_eq_scalar, np_lt, np_ones,
        scalar_l, np_div, np_sub, col0, col1, col2.
      rewrite length_dstack4.
      repeat (rewrite ?length_zip_with, ?List.length_map, ?length_np_where,
                ?length_replicate, ?Hrows).
      lia. }
    eexists. split; [apply (np_reshape_auto_axis _ _ 4 Hpos Hl)|].
    split; [reflexivity | apply Hwf', Hl].
Qed.
End Shape_contract.

Lemma XYZ_UCS_roundtrip_sample :
  exists UVW,
    XYZ_to_UCS_vectorise (S:=exact_signed) XYZ_sample_exact = Ok UVW /\
    UCS_to_XYZ_vectorise (S:=exact_signed) UVW = Ok XYZ_sample_exact.
Proof. apply (XYZ_UCS_roundtrip XYZ_sample_exact); reflexivity. Defined.

Lemma RGB_CMY_roundtrip_sample :
  exists CMY,
    RGB_to_CMY_vectorise (S:=exact_signed) XYZ_sample_exact = Ok CMY /\
    CMY_to_RGB_vectorise (S:=exact_signed) CMY = Ok XYZ_sample_exact.
Proof. apply (RGB_CMY_roundtrip XYZ_sample_exact); reflexivity. Defined.

Lemma XYZ_UCS_uv_xy_sample :
  exists UVW uv,
    XYZ_to_UCS_vectorise (S:=exact_signed) XYZ_sample_exact = Ok UVW /\
    UCS_to_uv_vectorise (S:=exact_signed) UVW = Ok uv /\
    UCS_uv_to_xy_vectorise (S:=exact_signed) uv
    = XYZ_to_xy_vectorise (A:=exact) XYZ_sample_exact
        (array1 [W_D50_exact.1; W_D50_exact.2]).
Proof.
  apply (XYZ_UCS_uv_xy (decimal 7049534 100000000) (decimal 1008 10000)
           (decimal 9558313 100000000) W_D50_exact.1 W_D50_exact.2);
    intros H; apply (f_equal this) in H; vm_compute in H; discriminate.
Defined.

Lemma CMY_CMYK_roundtrip_sample :
  (exists CMYK,
     CMY_to_CMYK_vectorise (S:=exact_signed)
       (array1 [decimal 5 10; decimal 25 100; decimal 75 100]) = Ok CMYK /\
     CMYK_to_CMY_vectorise (S:=exact_signed) CMYK
     = Ok (array1 [decimal 5 10; decimal 25 100; decimal 75 100])) /\
  CMY_to_CMYK_vectorise (S:=exact_signed) (array1 [Q2Qc 2; Q2Qc 1; Q2Qc 3])
  = Ok (array1 [Q2Qc 0; Q2Qc 0; Q2Qc 0; Q2Qc 1]) /\
  CMYK_to_CMY_vectorise (S:=exact_signed) (array1 [Q2Qc 0; Q2Qc 0; Q2Qc 0; Q2Qc 1])
  = Ok (array1 [Q2Qc 1; Q2Qc 1; Q2Qc 1]).
Proof.
  split.
  - apply (proj1 (CMY_CMYK_roundtrip (decimal 5 10) (decimal 25 100) (decimal 75 100))).
    left. reflexivity.
  - apply (proj2 (CMY_CMYK_roundtrip (Q2Qc 2) (Q2Qc 1) (Q2Qc 3)));
      intros H; vm_compute in H; discriminate.
Defined.

Lemma UCS_CMY_shape_sample :
  (exists y, XYZ_to_UCS_vectorise (S:=binary64_signed) image_sample = Ok y /\
             shape y = [2; 2; 3] /\ wf y) /\
  (exists y, UCS_to_XYZ_vectorise (S:=binary64_signed) image_sample = Ok y /\
             shape y = [2; 2; 3] /\ wf y) /\
  (exists y, RGB_to_CMY_vectorise (S:=binary64_signed) image_sample = Ok y /\
             shape y = [2; 2; 3] /\ wf y) /\
  (exists y, CMY_to_RGB_vectorise (S:=binary64_signed) image_sample = Ok y /\
             shape y = [2; 2; 3] /\ wf y).
Proof. apply (UCS_CMY_shape (S:=binary64_signed) image_sample); reflexivity. Defined.

Lemma uv_CMYK_shape_sample :
  (exists y, UCS_to_uv_vectorise (S:=binary64_signed) image_sample = Ok y /\
             shape y = [2; 2; 2] /\ wf y) /\
  (exists y, CMY_to_CMYK_vectorise (S:=binary64_signed) image_sample = Ok y /\
             shape y = [2; 2; 4] /\ wf y).
Proof.
  apply (uv_CMYK_shape (S:=binary64_signed) image_sample);
    [reflexivity | reflexivity | simpl; lia].
Defined.

(* ===================================================================== *)
(** ** Shape contract: the xyY transforms and RGB to RGB *)
(* ===================================================================== *)

Lemma length_rows2 {T} (n : nat) : forall l : list T,
  length l = 2 * n -> length (rows2 l) = n.
Proof.
  induction n as [|n IH]; intros l Hl.
  - destruct l; [reflexivity | discriminate].
  - destruct l as [|a [|b l]]; simpl in Hl; try lia.
    simpl. f_equal. apply IH. lia.
Qed.

Lemma resolve_shape_rows2 (n : nat) :
  resolve_shape (2 * n) [(-1)%Z; 2%Z] = Some [n; 2].
Proof.
  unfold resolve_shape. cbn [existsb List.filter length known_size foldr].
  change (-1 <? -1)%Z with false. change (2 <? -1)%Z with false.
  change (-1 =? -1)%Z with true. change (2 =? -1)%Z with false.
  cbn [orb length map].
  replace (Z.of_nat (2 * n)) with (Z.of_nat n * (2 * 1))%Z by lia.
  rewrite Z.mod_mul, Z.div_mul by lia. cbn [andb Z.ltb Z.mul Z.compare Z.eqb].
  change (-1 =? -1)%Z with true. change (2 =? -1)%Z with false.
  rewrite Nat2Z.id. reflexivity.
Qed.

Lemma as_array2_ok {T} (x : ndarray T) (n : nat) :
  length (data x) = 2 * n -> as_array2 x = Ok (rows2 (data x)).
Proof.
  intros Hl. unfold as_array2, np_reshape. rewrite Hl, resolve_shape_rows2.
  reflexivity.
Qed.

Lemma size_of_last (s : list nat) (k : nat) :
  last s = Some k -> size_of s = size_of (removelast s) * k /\
                     removelast s ++ [k] = s.
Proof.
  intros Hl. apply last_Some in Hl as [s' ->].
  rewrite removelast_last, size_of_app. simpl. split; [lia | reflexivity].
Qed.

Section Family_shape.
Context {A : Arith}.
Variable reg : gmap string (mat3 A).

Lemma wf_auto_axis (s : list nat) (k : nat) (l : list A) :
  length l = size_of (removelast s) * k -> wf (NDArray (removelast s ++ [k]) l).
Proof.
  intros Hl. unfold wf. cbn [data shape]. rewrite size_of_app.
  cbn [size_of foldr]. lia.
Qed.

(** [RGB_to_RGB] and the transforms between XYZ, xyY and xy reshape
    their result to the leading shape of the input, with their own
    channel count. *)
Lemma RGB_to_RGB_vectorise_shape
    (RGB : ndarray A) (W1 W2 : A * A) (R1 X1 R2 X2 : mat3 A)
    (transform : string) (M M_inv : mat3 A) :
  wf RGB -> last (shape RGB) = Some 3 ->
  cim_get reg transform = Some M ->
  np_linalg_inv M = Ok M_inv ->
  exists y,
    RGB_to_RGB_vectorise reg RGB
      {| whitepoint := array1 [W1.1; W1.2];
         RGB_to_XYZ_matrix := R1; XYZ_to_RGB_matrix := X1 |}
      {| whitepoint := array1 [W2.1; W2.2];
         RGB_to_XYZ_matrix := R2; XYZ_to_RGB_matrix := X2 |}
      transform = Ok y /\
    shape y = shape RGB /\ wf y.
Proof.
  intros Hwf Hlast Hreg Hinv. unfold wf in Hwf.
  pose proof (size_of_last3 _ Hlast) as Hsz. rewrite Hsz in Hwf.
  set (n := size_of (removelast (shape RGB))) in *.
  rewrite (RGB_to_RGB_vectorise_rows reg RGB n W1 W2 R1 X1 R2 X2 transform M M_inv)
    by assumption.
  apply np_reshape_rows.
  rewrite List.length_map, (length_rows3 n _ Hwf). exact Hsz.
Qed.

Lemma xyY_to_XYZ_vectorise_shape (xyY : ndarray A) :
  wf xyY -> last (shape xyY) = Some 3 -> 0 < size_of (removelast (shape xyY)) ->
  exists y, xyY_to_XYZ_vectorise xyY = Ok y /\ shape y = shape xyY /\ wf y.
Proof.
  intros Hwf Hlast Hpos. unfold wf in Hwf.
  destruct (size_of_last _ _ Hlast) as [Hsz Hs]. rewrite Hsz in Hwf.
  set (n := size_of (removelast (shape xyY))) in *.
  rewrite (xyY_to_XYZ_vectorise_rows xyY n) by lia.
  assert (Hl : length (ravel3 (map xyY_to_XYZ_row (rows3 (data xyY)))) = n * 3).
  { rewrite length_ravel3, List.length_map, (length_rows3 n) by lia. lia. }
  rewrite (np_reshape_auto_axis _ _ 3 Hpos Hl). eexists. split; [reflexivity|].
  split; [exact Hs | apply wf_auto_axis, Hl].
Qed.

Lemma XYZ_to_xyY_vectorise_shape (XYZ : ndarray A) (ix iy : A) :
  wf XYZ -> last (shape XYZ) = Some 3 ->
  exists y, XYZ_to_xyY_vectorise XYZ (array1 [ix; iy]) = Ok y /\
            shape y = shape XYZ /\ wf y.
Proof.
  intros Hwf Hlast. unfold wf in Hwf.
  pose proof (size_of_last3 _ Hlast) as Hsz. rewrite Hsz in Hwf.
  set (n := size_of (removelast (shape XYZ))) in *.
  unfold XYZ_to_xyY_vectorise. rewrite (as_array3_ok _ n Hwf).
  change (as_array2 (array1 [ix; iy])) with (Ok [(ix, iy)] : result (list (A * A))).
  cbn [mbind result_bind].
  pose proof (length_rows3 n _ Hwf) as Hrows.
  rewrite XYZ_to_xyY_columns.
  2:{ rewrite Hrows. apply length_rows3. rewrite length_np_resize. reflexivity. }
  unfold as_stack, as_shape. apply np_reshape_rows.
  rewrite length_zip_with, Hrows.
  rewrite (length_rows3 n) by (rewrite length_np_resize; reflexivity).
  lia.
Qed.

Lemma xy_to_XYZ_vectorise_shape (xy : ndarray A) :
  wf xy -> last (shape xy) = Some 2 -> 0 < size_of (removelast (shape xy)) ->
  exists y, xy_to_XYZ_vectorise xy = Ok y /\
            shape y = removelast (shape xy) ++ [3] /\ wf y.
Proof.
  intros Hwf Hlast Hpos. unfold wf in Hwf.
  destruct (size_of_last _ _ Hlast) as [Hsz Hs]. rewrite Hsz in Hwf.
  set (n := size_of (removelast (shape xy))) in *.
  assert (Hxy : length (data xy) = 2 * n) by lia.
  unfold xy_to_XYZ_vectorise. rewrite (as_array2_ok _ n Hxy).
  cbn [mbind result_bind]. unfold as_stack, as_shape.
  pose proof (length_rows2 n _ Hxy) as Hrows.
  match goal with |- context [ravel3 ?r] => set (rows := r) end.
  assert (Hl : length (ravel3 rows) = n * 3).
  { rewrite length_ravel3. unfold rows, np_ones.
    rewrite length_dstack3, !List.length_map, length_replicate, Hrows. lia. }
  rewrite (np_reshape_auto_axis _ _ 3 Hpos Hl). cbn [mbind result_bind].
  set (xyY := NDArray (removelast (shape xy) ++ [3]) (ravel3 rows)).
  destruct (xyY_to_XYZ_vectorise_shape xyY) as (y & Ey & Hsy & Hwy).
  - apply wf_auto_axis, Hl.
  - unfold xyY. cbn [shape]. apply last_snoc.
  - unfold xyY. cbn [shape]. rewrite removelast_last. exact Hpos.
  - exists y. split; [exact Ey|]. split; [exact Hsy | exact Hwy].
Qed.

Lemma XYZ_to_xy_vectorise_shape (XYZ : ndarray A) (ix iy : A) :
  wf XYZ -> last (shape XYZ) = Some 3 -> 0 < size_of (removelast (shape XYZ)) ->
  exists y, XYZ_to_xy_vectorise XYZ (array1 [ix; iy]) = Ok y /\
            shape y = removelast (shape XYZ) ++ [2] /\ wf y.
Proof.
  intros Hwf Hlast Hpos.
  destruct (XYZ_to_xyY_vectorise_shape XYZ ix iy Hwf Hlast) as (xyY & E & Hs & Hwy).
  unfold XYZ_to_xy_vectorise. rewrite E. cbn [mbind result_bind].
  unfold wf in Hwy. rewrite Hs, (size_of_last3 _ Hlast) in Hwy.
  set (n := size_of (removelast (shape XYZ))) in *.
  rewrite (as_array3_ok _ n Hwy). cbn [mbind result_bind]. unfold as_shape.
  match goal with |- context [ravel2 ?r] => set (rows := r) end.
  assert (Hl : length (ravel2 rows) = n * 2).
  { rewrite length_ravel2. unfold rows.
    rewrite List.length_map, (length_rows3 n _ Hwy). lia. }
  rewrite (np_reshape_auto_axis _ _ 2 Hpos Hl). eexists. split; [reflexivity|].
  split; [reflexivity | apply wf_auto_axis, Hl].
Qed.
End Family_shape.

(** On the 2 x 2 image. *)
Lemma xyY_family_shape_sample :
  (exists y, XYZ_to_xyY_vectorise (A:=binary64) image_sample W_D50 = Ok y /\
             shape y = [2; 2; 3]) /\
  (exists y, xyY_to_XYZ_vectorise (A:=binary64) image_sample = Ok y /\
             shape y = [2; 2; 3]) /\
  (exists y, XYZ_to_xy_vectorise (A:=binary64) image_sample W_D50 = Ok y /\
             shape y = [2; 2; 2]) /\
  (exists y, xy_to_XYZ_vectorise (A:=binary64)
               (NDArray [2; 2; 2] (data W_D50 ++ data W_D65 ++ data W_D50 ++ data W_D65))
             = Ok y /\
             shape y = [2; 2; 3]).
Proof.
  repeat split; eexists; (split; [vm_compute; reflexivity | reflexivity]).
Qed.
